(** * Sequence alignment, superposition and contact detection

    A shallow embedding of the gyrase modelling scripts: the global
    aligner of [setup_gyrase_model.py] and [generate_alignment.py], the
    Kabsch fit of [structural_alignment.py] and [assemble_tetramer.py],
    the interface scan of [generate_constraints.py] and
    [analyze_models.py], and the functions that read, write and edit
    the text files the scripts exchange: FASTA and GRISHIN alignment
    files, SEQRES records, and the lines of PDB files that
    [prepare_templates.py], [assemble_tetramer.py],
    [structural_alignment.py] and [check_binding_conservation.py]
    clean, rename, renumber and map.

    Python integers are [Z]; Python strings are lists of characters;
    Python lists are lists, indexed the way Python indexes them (a
    negative index counts from the end, an index out of range raises
    [IndexError]); a [dict] is an association list in insertion order.
    Python floats are read as real numbers, and the identity of an
    alignment, a quotient of two counts, as a rational number.  The
    scores of the aligner are integers, as they are in every call the
    scripts make.

    The embedding of the scripts comes first, then the vocabulary the
    statements use, then the proofs. *)

From Stdlib Require Import Reals Lra.
From Stdlib Require Import QArith.
From Stdlib Require Import Ascii String.
From Stdlib Require Import List ZArith Bool Lia Sorted.
Import ListNotations.

Close Scope R_scope.
Close Scope Q_scope.

Set Implicit Arguments.

(** ** The Python run-time model *)

Module Py.

(** Exceptions the modelled code can raise; the last two are numpy's
    [numpy.linalg.LinAlgError] and [numpy.exceptions.AxisError]. *)
Inductive exn : Type :=
| IndexError
| KeyError
| ValueError
| LinAlgError
| AxisError.

(** Outcome of running a piece of code: a value, a raised exception, or
    a [while] loop that has not finished within the fuel it was given. *)
Inductive result (A : Type) : Type :=
| Ok (a : A)
| Raise (e : exn)
| OutOfFuel.

Arguments Ok {A} a.
Arguments Raise {A} e.
Arguments OutOfFuel {A}.

Definition bind {A B : Type} (r : result A) (k : A -> result B) : result B :=
  match r with
  | Ok a => k a
  | Raise e => Raise e
  | OutOfFuel => OutOfFuel
  end.

(** [l[k]]: position of index [k] in a sequence of [len] items. *)
Definition index (len : nat) (k : Z) : option nat :=
  let n := Z.of_nat len in
  if (0 <=? k)%Z && (k <? n)%Z then Some (Z.to_nat k)
  else if (- n <=? k)%Z && (k <? 0)%Z then Some (Z.to_nat (k + n))
  else None.

Definition getitem {A : Type} (l : list A) (k : Z) : result A :=
  match index (length l) k with
  | Some p =>
      match nth_error l p with
      | Some a => Ok a
      | None => Raise IndexError
      end
  | None => Raise IndexError
  end.

(** The list [l] with its item at position [p] replaced. *)
Fixpoint update {A : Type} (l : list A) (p : nat) (v : A) : list A :=
  match l, p with
  | [], _ => []
  | _ :: t, O => v :: t
  | h :: t, S p' => h :: update t p' v
  end.

(** [l[k] = v]. *)
Definition setitem {A : Type} (l : list A) (k : Z) (v : A) : result (list A) :=
  match index (length l) k with
  | Some p => Ok (update l p v)
  | None => Raise IndexError
  end.

(** [for k in range(lo, lo + count): s = body(k, s)]. *)
Fixpoint for_count {S : Type} (lo : Z) (count : nat)
         (body : Z -> S -> result S) (s : S) : result S :=
  match count with
  | O => Ok s
  | Datatypes.S c => bind (body lo s) (for_count (lo + 1) c body)
  end.

(** [for k in range(lo, hi): s = body(k, s)]. *)
Definition for_range {S : Type} (lo hi : Z)
           (body : Z -> S -> result S) (s : S) : result S :=
  for_count lo (Z.to_nat (hi - lo)) body s.

(** [while cond(s): s = body(s)], cut off after [fuel] tests of [cond]. *)
Fixpoint while {S : Type} (fuel : nat) (cond : S -> bool)
         (body : S -> result S) (s : S) : result S :=
  match fuel with
  | O => OutOfFuel
  | Datatypes.S f =>
      if cond s then bind (body s) (while f cond body) else Ok s
  end.

(** [[v] * n]. *)
Definition replicate {A : Type} (v : A) (n : Z) : list A :=
  repeat v (Z.to_nat n).

(** [d[k]] on a dictionary kept as an association list. *)
Fixpoint lookup {K V : Type} (eqb : K -> K -> bool)
         (d : list (K * V)) (k : K) : result V :=
  match d with
  | [] => Raise KeyError
  | (k', v) :: rest => if eqb k' k then Ok v else lookup eqb rest k
  end.

(** [list(d.keys())]. *)
Definition keys {K V : Type} (d : list (K * V)) : list K := map fst d.

(** [for x in xs: s = body(x, s)]. *)
Fixpoint for_each {A S : Type} (xs : list A)
         (body : A -> S -> result S) (s : S) : result S :=
  match xs with
  | [] => Ok s
  | x :: rest => bind (body x s) (for_each rest body)
  end.

(** [s.add(x)] on a set of integers, kept as a list without repeats. *)
Definition set_add (s : list Z) (x : Z) : list Z :=
  if existsb (Z.eqb x) s then s else s ++ [x].

(** [sorted(s)] on integers. *)
Fixpoint insert_sorted (x : Z) (l : list Z) : list Z :=
  match l with
  | [] => [x]
  | y :: rest => if (x <=? y)%Z then x :: l else y :: insert_sorted x rest
  end.

Definition sorted (l : list Z) : list Z := fold_right insert_sorted [] l.

(** [d[k] = v]: the value of an existing key is replaced where the key
    stands, a new key goes to the end. *)
Fixpoint dict_set {K V : Type} (eqb : K -> K -> bool)
         (d : list (K * V)) (k : K) (v : V) : list (K * V) :=
  match d with
  | [] => [(k, v)]
  | (k', v') :: rest =>
      if eqb k' k then (k', v) :: rest else (k', v') :: dict_set eqb rest k v
  end.

(** [k in d]. *)
Definition dict_mem {K V : Type} (eqb : K -> K -> bool)
           (d : list (K * V)) (k : K) : bool :=
  existsb (fun kv => eqb (fst kv) k) d.

(** [range(0, n, step)] for a positive [step]. *)
Definition range_step (n step : nat) : list nat :=
  map (fun q => (q * step)%nat) (seq 0 ((n + step - 1) / step)).

End Py.

Export Py.

Declare Scope py_scope.
Delimit Scope py_scope with py.
Notation "x <- e ;; k" := (Py.bind e (fun x => k))
  (at level 61, e at next level, right associativity) : py_scope.
Local Open Scope py_scope.

(** A sequence is a Python [str]. *)
Definition pystr : Type := list ascii.

(** The gap symbol ['-'] of both aligners. *)
Definition GAP : ascii := "-"%char.

(** A score table: a list of rows. *)
Definition matrix : Type := list (list Z).

(** [score[i][j]]. *)
Definition get2 (score : matrix) (i j : Z) : result Z :=
  row <- getitem score i ;;
  getitem row j.

(** [score[i][j] = v].  Each row of the table is a list of its own (the
    comprehension builds one per row), so the assignment changes that row
    only. *)
Definition set2 (score : matrix) (i j : Z) (v : Z) : result matrix :=
  row <- getitem score i ;;
  row' <- setitem row j v ;;
  setitem score i row'.

(** [max(a, b, c)] on integers. *)
Definition max3 (a b c : Z) : Z := Z.max (Z.max a b) c.

(** [s.replace('-', '')]. *)
Definition remove_gaps (s : pystr) : pystr :=
  filter (fun c => negb (Ascii.eqb c GAP)) s.

(** ** Python strings and text files

    A character is a code point below 256.  A text file is the string of
    its characters: what a sequence of [f.write] calls leaves is the
    concatenation of their arguments (the line separator of the system
    being ['\n']), and reading gives the lines, each with its line end,
    every line end read as ['\n']. *)

Module PyStr.

(** [a == b]. *)
Fixpoint eqb (a b : pystr) : bool :=
  match a, b with
  | [], [] => true
  | x :: a', y :: b' => Ascii.eqb x y && eqb a' b'
  | _, _ => false
  end.

(** [c.isspace()]: tab to carriage return, the four separators, the
    space, the next-line control and the no-break space. *)
Definition isspace (c : ascii) : bool :=
  let n := nat_of_ascii c in
  ((9 <=? n) && (n <=? 13) || (28 <=? n) && (n <=? 32)
   || (n =? 133) || (n =? 160))%nat.

(** [s.lstrip()], [s.rstrip()], [s.strip()]. *)
Fixpoint lstrip (s : pystr) : pystr :=
  match s with
  | [] => []
  | c :: t => if isspace c then lstrip t else s
  end.

Definition rstrip (s : pystr) : pystr := rev (lstrip (rev s)).

Definition strip (s : pystr) : pystr := rstrip (lstrip s).

(** [s.split()]: the maximal runs of characters that are not white
    space; [cur] is the run being read. *)
Fixpoint split_from (cur s : pystr) : list pystr :=
  match s with
  | [] => match cur with [] => [] | _ :: _ => [cur] end
  | c :: t =>
      if isspace c
      then match cur with
           | [] => split_from [] t
           | _ :: _ => cur :: split_from [] t
           end
      else split_from (cur ++ [c]) t
  end.

Definition split (s : pystr) : list pystr := split_from [] s.

(** [s.startswith(prefix)]. *)
Fixpoint startswith (s prefix : pystr) : bool :=
  match prefix, s with
  | [], _ => true
  | p :: prefix', c :: s' => Ascii.eqb c p && startswith s' prefix'
  | _ :: _, [] => false
  end.

(** [s[a:b]], [s[a:]] and [s[:b]] for indices that are not negative. *)
Definition slice (s : pystr) (a b : nat) : pystr := firstn (b - a) (skipn a s).

Definition slice_from (s : pystr) (a : nat) : pystr := skipn a s.

Definition slice_to (s : pystr) (b : nat) : pystr := firstn b s.

(** [''.join(parts)]. *)
Definition join (parts : list pystr) : pystr := concat parts.

Definition LF : ascii := ascii_of_nat 10.

Definition CR : ascii := ascii_of_nat 13.

(** The lines of a text file: a line ends after ['\n'], after ['\r'] or
    after the two together, and its end is read as ['\n']; the last
    line may have no end. *)
Fixpoint lines_from (cur text : pystr) : list pystr :=
  match text with
  | [] => match cur with [] => [] | _ :: _ => [cur] end
  | c :: rest =>
      if Ascii.eqb c LF then (cur ++ [LF]) :: lines_from [] rest
      else if Ascii.eqb c CR then
        match rest with
        | c' :: rest' =>
            if Ascii.eqb c' LF then (cur ++ [LF]) :: lines_from [] rest'
            else (cur ++ [LF]) :: lines_from [] rest
        | [] => [cur ++ [LF]]
        end
      else lines_from (cur ++ [c]) rest
  end.

(** [for line in f] and [f.readlines()]. *)
Definition readlines (text : pystr) : list pystr := lines_from [] text.

(** [f"{n:5d}"] and the like: the decimal digits of [n], a minus sign
    before them when [n] is negative, spaces on the left up to the
    width. *)
Definition digit (d : Z) : ascii := ascii_of_nat (48 + Z.to_nat d).

Fixpoint digits_fuel (fuel : nat) (n : Z) : pystr :=
  match fuel with
  | O => []
  | S f =>
      if (n <? 10)%Z then [digit n]
      else digits_fuel f (n / 10) ++ [digit (n mod 10)]
  end.

Definition digits (n : Z) : pystr := digits_fuel (S (Z.to_nat (Z.log2 n))) n.

Definition decimal (n : Z) : pystr :=
  if (n <? 0)%Z then "-"%char :: digits (- n) else digits n.

Definition format_d (width : nat) (n : Z) : pystr :=
  let s := decimal n in repeat " "%char (width - length s) ++ s.

(** [f.write(s)] on the text written so far. *)
Definition write (f s : pystr) : pystr := f ++ s.

(** [s] is [line] with one of the [prefixes] in front:
    [line.startswith((p1, p2, ...))]. *)
Definition startswith_any (line : pystr) (prefixes : list pystr) : bool :=
  existsb (startswith line) prefixes.

End PyStr.

(** A string literal of the scripts. *)
Abbreviation lit := list_ascii_of_string.

(** ** [scripts/setup_gyrase_model.py] *)

Module setup_gyrase_model.

Section Aligner.

Variables seq1 seq2 : pystr.
Variables match_ mismatch gap : Z.

Let m : Z := Z.of_nat (length seq1).
Let n : Z := Z.of_nat (length seq2).

(** [(match if seq1[i-1] == seq2[j-1] else mismatch)]. *)
Definition pair_score (i j : Z) : result Z :=
  a <- getitem seq1 (i - 1) ;;
  b <- getitem seq2 (j - 1) ;;
  Ok (if Ascii.eqb a b then match_ else mismatch).

(** [score = [[0] * (n + 1) for _ in range(m + 1)]]. *)
Definition zero_matrix : matrix :=
  replicate (replicate 0%Z (n + 1)) (m + 1).

(** The two initialisation loops. *)
Definition init_matrix : result matrix :=
  score <- for_range 0 (m + 1)
             (fun i score => set2 score i 0 (i * gap)) zero_matrix ;;
  for_range 0 (n + 1) (fun j score => set2 score 0 j (j * gap)) score.

(** Body of the inner fill loop. *)
Definition fill_cell (i j : Z) (score : matrix) : result matrix :=
  d <- get2 score (i - 1) (j - 1) ;;
  s <- pair_score i j ;;
  let match_score := (d + s)%Z in
  u <- get2 score (i - 1) j ;;
  let delete := (u + gap)%Z in
  l <- get2 score i (j - 1) ;;
  let insert := (l + gap)%Z in
  set2 score i j (max3 match_score delete insert).

(** The filled score table. *)
Definition score_matrix : result matrix :=
  score <- init_matrix ;;
  for_range 1 (m + 1)
    (fun i score => for_range 1 (n + 1) (fun j score => fill_cell i j score) score)
    score.

(** State of the traceback loop: [i], [j], [aligned1], [aligned2]. *)
Definition tb_state : Type := (Z * Z * list ascii * list ascii)%type.

(** [while i > 0 or j > 0]. *)
Definition tb_cond (st : tb_state) : bool :=
  let '(i, j, _, _) := st in (0 <? i)%Z || (0 <? j)%Z.

(** The statements after the first [if] of the loop body. *)
Definition tb_up_or_left (score : matrix) (st : tb_state) : result tb_state :=
  let '(i, j, aligned1, aligned2) := st in
  up <- (if (0 <? i)%Z then
           c <- get2 score i j ;;
           u <- get2 score (i - 1) j ;;
           Ok (c =? u + gap)%Z
         else Ok false) ;;
  if up then
    a <- getitem seq1 (i - 1) ;;
    Ok ((i - 1)%Z, j, aligned1 ++ [a], aligned2 ++ [GAP])
  else
    b <- getitem seq2 (j - 1) ;;
    Ok (i, (j - 1)%Z, aligned1 ++ [GAP], aligned2 ++ [b]).

(** One turn of the traceback loop. *)
Definition tb_step (score : matrix) (st : tb_state) : result tb_state :=
  let '(i, j, aligned1, aligned2) := st in
  if (0 <? i)%Z && (0 <? j)%Z then
    current <- get2 score i j ;;
    d <- get2 score (i - 1) (j - 1) ;;
    s <- pair_score i j ;;
    let diag := (d + s)%Z in
    if (current =? diag)%Z then
      a <- getitem seq1 (i - 1) ;;
      b <- getitem seq2 (j - 1) ;;
      Ok ((i - 1)%Z, (j - 1)%Z, aligned1 ++ [a], aligned2 ++ [b])
    else tb_up_or_left score st
  else tb_up_or_left score st.

(** The traceback, from [(m, n)] with both output lists empty. *)
Definition traceback (fuel : nat) (score : matrix) : result tb_state :=
  while fuel tb_cond (tb_step score) (m, n, [], []).

(** [needleman_wunsch], its [while] loop run with [fuel] tests. *)
Definition needleman_wunsch_fuel (fuel : nat) : result (pystr * pystr) :=
  score <- score_matrix ;;
  st <- traceback fuel score ;;
  let '(_, _, aligned1, aligned2) := st in
  Ok (rev aligned1, rev aligned2).

(** [needleman_wunsch(seq1, seq2, match, mismatch, gap)].  Every turn of
    the loop lowers [i] or [j], so [len(seq1) + len(seq2) + 1] tests
    of the loop condition are all the loop can make. *)
Definition needleman_wunsch : result (pystr * pystr) :=
  needleman_wunsch_fuel (S (length seq1 + length seq2)).

End Aligner.

(** [calculate_identity(aligned1, aligned2)], the numerator. *)
Definition identity_matches (aligned1 aligned2 : pystr) : nat :=
  length (filter (fun ab => Ascii.eqb (fst ab) (snd ab) && negb (Ascii.eqb (fst ab) GAP))
                 (combine aligned1 aligned2)).

(** [length = len(aligned1.replace('-', ''))]. *)
Definition identity_length (aligned1 aligned2 : pystr) : nat :=
  length (remove_gaps aligned1).

(** [(matches / length * 100) if length > 0 else 0]. *)
Definition calculate_identity (aligned1 aligned2 : pystr) : Q :=
  let matches := identity_matches aligned1 aligned2 in
  let length := identity_length aligned1 aligned2 in
  if (0 <? length)%nat
  then (inject_Z (Z.of_nat matches) / inject_Z (Z.of_nat length) * 100)%Q
  else 0%Q.

(** [THREE_TO_ONE]. *)
Definition THREE_TO_ONE : list (pystr * pystr) :=
  [ (lit "ALA", lit "A"); (lit "ARG", lit "R"); (lit "ASN", lit "N");
    (lit "ASP", lit "D"); (lit "CYS", lit "C"); (lit "GLN", lit "Q");
    (lit "GLU", lit "E"); (lit "GLY", lit "G"); (lit "HIS", lit "H");
    (lit "ILE", lit "I"); (lit "LEU", lit "L"); (lit "LYS", lit "K");
    (lit "MET", lit "M"); (lit "PHE", lit "F"); (lit "PRO", lit "P");
    (lit "SER", lit "S"); (lit "THR", lit "T"); (lit "TRP", lit "W");
    (lit "TYR", lit "Y"); (lit "VAL", lit "V"); (lit "MSE", lit "M");
    (lit "PTR", lit "Y"); (lit "SEP", lit "S"); (lit "TPO", lit "T") ].

(** [get_seqres_sequence(pdb_file, chain_id)], on the text of the file. *)
Definition get_seqres_sequence (pdb_file : pystr) (chain_id : pystr)
  : result pystr :=
  sequence <-
    for_each (PyStr.readlines pdb_file)
      (fun line sequence =>
         selected <-
           (if PyStr.startswith line (lit "SEQRES")
            then c <- getitem line 11 ;; Ok (PyStr.eqb [c] chain_id)
            else Ok false) ;;
         if selected : bool then
           let residues := PyStr.split (PyStr.slice_from line 19) in
           for_each residues
             (fun res sequence =>
                if dict_mem PyStr.eqb THREE_TO_ONE res
                then one <- lookup PyStr.eqb THREE_TO_ONE res ;;
                     Ok (sequence ++ [one])
                else Ok sequence)
             sequence
         else Ok sequence)
      [] ;;
  Ok (PyStr.join sequence).

End setup_gyrase_model.

(** ** [scripts/generate_alignment.py] *)

Module generate_alignment.

(** Scoring parameters of [simple_align]. *)
Definition match_score : Z := 2.
Definition mismatch_score : Z := -1.
Definition gap_penalty : Z := -2.

Section Aligner.

Variables seq1 seq2 : pystr.

Let m : Z := Z.of_nat (length seq1).
Let n : Z := Z.of_nat (length seq2).

Definition zero_matrix : matrix :=
  replicate (replicate 0%Z (n + 1)) (m + 1).

Definition init_matrix : result matrix :=
  score <- for_range 0 (m + 1)
             (fun i score => set2 score i 0 (i * gap_penalty)) zero_matrix ;;
  for_range 0 (n + 1) (fun j score => set2 score 0 j (j * gap_penalty)) score.

Definition fill_cell (i j : Z) (score : matrix) : result matrix :=
  d <- get2 score (i - 1) (j - 1) ;;
  a <- getitem seq1 (i - 1) ;;
  b <- getitem seq2 (j - 1) ;;
  let match_ := (d + (if Ascii.eqb a b then match_score else mismatch_score))%Z in
  u <- get2 score (i - 1) j ;;
  let delete := (u + gap_penalty)%Z in
  l <- get2 score i (j - 1) ;;
  let insert := (l + gap_penalty)%Z in
  set2 score i j (max3 match_ delete insert).

Definition score_matrix : result matrix :=
  score <- init_matrix ;;
  for_range 1 (m + 1)
    (fun i score => for_range 1 (n + 1) (fun j score => fill_cell i j score) score)
    score.

Definition tb_state : Type := (Z * Z * list ascii * list ascii)%type.

Definition tb_cond (st : tb_state) : bool :=
  let '(i, j, _, _) := st in (0 <? i)%Z || (0 <? j)%Z.

Definition tb_up_or_left (score : matrix) (st : tb_state) : result tb_state :=
  let '(i, j, aligned1, aligned2) := st in
  up <- (if (0 <? i)%Z then
           c <- get2 score i j ;;
           u <- get2 score (i - 1) j ;;
           Ok (c =? u + gap_penalty)%Z
         else Ok false) ;;
  if up then
    a <- getitem seq1 (i - 1) ;;
    Ok ((i - 1)%Z, j, aligned1 ++ [a], aligned2 ++ [GAP])
  else
    b <- getitem seq2 (j - 1) ;;
    Ok (i, (j - 1)%Z, aligned1 ++ [GAP], aligned2 ++ [b]).

Definition tb_step (score : matrix) (st : tb_state) : result tb_state :=
  let '(i, j, aligned1, aligned2) := st in
  if (0 <? i)%Z && (0 <? j)%Z then
    current <- get2 score i j ;;
    diagonal <- get2 score (i - 1) (j - 1) ;;
    a <- getitem seq1 (i - 1) ;;
    b <- getitem seq2 (j - 1) ;;
    let expected_diagonal :=
      if Ascii.eqb a b then (diagonal + match_score)%Z
      else (diagonal + mismatch_score)%Z in
    if (current =? expected_diagonal)%Z then
      a <- getitem seq1 (i - 1) ;;
      b <- getitem seq2 (j - 1) ;;
      Ok ((i - 1)%Z, (j - 1)%Z, aligned1 ++ [a], aligned2 ++ [b])
    else tb_up_or_left score st
  else tb_up_or_left score st.

Definition traceback (fuel : nat) (score : matrix) : result tb_state :=
  while fuel tb_cond (tb_step score) (m, n, [], []).

Definition simple_align_fuel (fuel : nat) : result (pystr * pystr) :=
  score <- score_matrix ;;
  st <- traceback fuel score ;;
  let '(_, _, aligned1, aligned2) := st in
  Ok (rev aligned1, rev aligned2).

(** [simple_align(seq1, seq2)]. *)
Definition simple_align : result (pystr * pystr) :=
  simple_align_fuel (S (length seq1 + length seq2)).

End Aligner.

Definition identity_matches (aligned1 aligned2 : pystr) : nat :=
  length (filter (fun ab => Ascii.eqb (fst ab) (snd ab) && negb (Ascii.eqb (fst ab) GAP))
                 (combine aligned1 aligned2)).

(** [max(len(aligned1.replace('-', '')), len(aligned2.replace('-', '')))]. *)
Definition identity_length (aligned1 aligned2 : pystr) : nat :=
  Nat.max (length (remove_gaps aligned1)) (length (remove_gaps aligned2)).

Definition calculate_identity (aligned1 aligned2 : pystr) : Q :=
  let matches := identity_matches aligned1 aligned2 in
  let length := identity_length aligned1 aligned2 in
  if (0 <? length)%nat
  then (inject_Z (Z.of_nat matches) / inject_Z (Z.of_nat length) * 100)%Q
  else 0%Q.

(** [if current_header: sequences[current_header] = ''.join(current_seq)]:
    [None] and the empty string count as false. *)
Definition store_sequence (sequences : list (pystr * pystr))
           (current_header : option pystr) (current_seq : list pystr)
  : list (pystr * pystr) :=
  match current_header with
  | Some ((_ :: _) as header) =>
      dict_set PyStr.eqb sequences header (PyStr.join current_seq)
  | _ => sequences
  end.

(** [read_fasta(fasta_file)], on the text of the file. *)
Definition read_fasta (fasta_file : pystr) : result (list (pystr * pystr)) :=
  st <-
    for_each (PyStr.readlines fasta_file)
      (fun line '(sequences, current_header, current_seq) =>
         let line := PyStr.strip line in
         if PyStr.startswith line (lit ">") then
           let sequences := store_sequence sequences current_header current_seq in
           header <- getitem (PyStr.split (PyStr.slice_from line 1)) 0 ;;
           Ok (sequences, Some header, [])
         else Ok (sequences, current_header, current_seq ++ [line]))
      ([], None, []) ;;
  let '(sequences, current_header, current_seq) := st in
  Ok (store_sequence sequences current_header current_seq).

(** The six [f.write] calls that [write_grishin_alignment] makes, and
    that [create_dimer_alignment] makes once for each chain: one
    alignment in GRISHIN format, added to the text [f] written so far. *)
Definition write_block (f target_name template_name aligned_target
                          aligned_template : pystr) : pystr :=
  let f := PyStr.write f (lit "## " ++ target_name ++ lit " " ++ template_name
                          ++ [PyStr.LF]) in
  let f := PyStr.write f (lit "#" ++ [PyStr.LF]) in
  let f := PyStr.write f (lit "scores_from_program: 0" ++ [PyStr.LF]) in
  let f := PyStr.write f (lit "0 " ++ aligned_target ++ [PyStr.LF]) in
  let f := PyStr.write f (lit "0 " ++ aligned_template ++ [PyStr.LF]) in
  PyStr.write f (lit "--" ++ [PyStr.LF]).

(** [write_grishin_alignment(...)]: the text of the file it writes. *)
Definition write_grishin_alignment
           (target_name target_seq template_name template_seq
            aligned_target aligned_template : pystr) : pystr :=
  write_block [] target_name template_name aligned_target aligned_template.

(** [d[list(d.keys())[1]] if len(d) > 1 else d[list(d.keys())[0]]]. *)
Definition second_or_first (seqs : list (pystr * pystr)) : result pystr :=
  let names := keys seqs in
  if (1 <? Z.of_nat (length names))%Z
  then name <- getitem names 1 ;; lookup PyStr.eqb seqs name
  else name <- getitem names 0 ;; lookup PyStr.eqb seqs name.

(** [create_dimer_alignment(target_seqs, template_seqs, template_name,
    output_dir)]: the text of the file it writes. *)
Definition create_dimer_alignment (target_seqs template_seqs : list (pystr * pystr))
           (template_name : pystr) : result pystr :=
  let target_names := keys target_seqs in
  name <- getitem target_names 0 ;;
  target_seq_a <- lookup PyStr.eqb target_seqs name ;;
  target_seq_b <- second_or_first target_seqs ;;
  let template_names := keys template_seqs in
  name <- getitem template_names 0 ;;
  template_seq_a <- lookup PyStr.eqb template_seqs name ;;
  template_seq_b <- second_or_first template_seqs ;;
  a <- simple_align target_seq_a template_seq_a ;;
  b <- simple_align target_seq_b template_seq_b ;;
  let f := write_block [] (lit "Target_ChainA") (template_name ++ lit "_ChainA")
                       (fst a) (snd a) in
  Ok (write_block f (lit "Target_ChainB") (template_name ++ lit "_ChainB")
                  (fst b) (snd b)).

End generate_alignment.

(** ** The numpy operations the scripts use, on real numbers

    An array of points is the list of its rows, as the scripts build it
    with [np.array(rows)]: an array of shape [(N, 3)] for [N] rows, and
    for no row at all [np.array([])], which has one dimension and the
    shape [(0,)].  A [3 x 3] array is a triple of rows.  numpy raises
    [ValueError] when two shapes do not fit, [AxisError] when an array
    lacks the axis it is asked to sum over, and [LinAlgError] when
    [np.linalg.svd] is given an array of fewer than two dimensions. *)

Module np.

Definition vec3 : Type := (R * R * R)%type.
Definition mat3 : Type := (vec3 * vec3 * vec3)%type.

Definition vsub (p q : vec3) : vec3 :=
  let '(px, py, pz) := p in
  let '(qx, qy, qz) := q in
  (px - qx, py - qy, pz - qz)%R.

Definition vadd (p q : vec3) : vec3 :=
  let '(px, py, pz) := p in
  let '(qx, qy, qz) := q in
  (px + qx, py + qy, pz + qz)%R.

Definition vzero : vec3 := (0, 0, 0)%R.

(** [np.sum(v ** 2)] of one row. *)
Definition sum_sq (v : vec3) : R :=
  let '(x, y, z) := v in (x ^ 2 + y ^ 2 + z ^ 2)%R.

(** [np.mean(xs)] of a one-dimensional array.  Of an empty array numpy
    returns [nan], with a warning and no exception; the real numbers hold
    no such value, and no statement below rests on the value of the mean
    of an empty array. *)
Definition mean (xs : list R) : R :=
  (fold_right Rplus 0 xs / INR (length xs))%R.

(** [np.mean(P, axis=0)]. *)
Definition mean_axis0 (P : list vec3) : vec3 :=
  (mean (map (fun p => fst (fst p)) P),
   mean (map (fun p => snd (fst p)) P),
   mean (map (fun p => snd p) P)).

(** [P - c] for a point [c]: the point is subtracted from every row. *)
Definition sub_row (P : list vec3) (c : vec3) : list vec3 :=
  map (fun p => vsub p c) P.

(** [P - Q] for two arrays of shapes [(N, 3)] and [(M, 3)]: row by row
    when [N = M]; an array of one row is broadcast against the other;
    any other pair of shapes is refused.  Two arrays without rows, of
    shape [(0,)] both, give an array without rows; the shape [(0,)]
    fits no shape [(M, 3)]. *)
Definition sub (P Q : list vec3) : result (list vec3) :=
  match P, Q with
  | [], [] => Ok []
  | [], _ :: _ => Raise ValueError
  | _ :: _, [] => Raise ValueError
  | _ :: _, _ :: _ =>
      if (length P =? length Q)%nat
      then Ok (map (fun pq => vsub (fst pq) (snd pq)) (combine P Q))
      else match P, Q with
           | [p], _ => Ok (map (fun q => vsub p q) Q)
           | _, [q] => Ok (map (fun p => vsub p q) P)
           | _, _ => Raise ValueError
           end
  end.

(** [np.sum(A ** 2, axis=1)]: the sum of the squares of each row.  An
    array without rows has one dimension, hence no axis 1. *)
Definition sum_sq_axis1 (A : list vec3) : result (list R) :=
  match A with
  | [] => Raise AxisError
  | _ :: _ => Ok (map sum_sq A)
  end.

Definition outer (p q : vec3) : mat3 :=
  let '(px, py, pz) := p in
  let '(qx, qy, qz) := q in
  ((px * qx, px * qy, px * qz),
   (py * qx, py * qy, py * qz),
   (pz * qx, pz * qy, pz * qz))%R.

Definition madd (A B : mat3) : mat3 :=
  let '(a1, a2, a3) := A in
  let '(b1, b2, b3) := B in
  (vadd a1 b1, vadd a2 b2, vadd a3 b3).

Definition mzero : mat3 := (vzero, vzero, vzero).

(** What a product of two arrays of points is: a [3 x 3] array, or an
    array of fewer than two dimensions. *)
Inductive product : Type :=
| Matrix (A : mat3)
| Flat.

(** [P.T @ Q] for arrays of shapes [(N, 3)] and [(M, 3)]: the [3 x 3] sum
    of the outer products of corresponding rows; refused unless
    [N = M].  An array without rows, of shape [(0,)], is its own
    transpose: with an array of rows it is refused as well, and the
    product of two of them is a number, not a [3 x 3] array. *)
Definition matmul_T (P Q : list vec3) : result product :=
  match P, Q with
  | [], [] => Ok Flat
  | _, _ =>
      if (length P =? length Q)%nat
      then Ok (Matrix (fold_right (fun pq acc => madd (outer (fst pq) (snd pq)) acc)
                                  mzero (combine P Q)))
      else Raise ValueError
  end.

(** [np.linalg.svd(H)], given what it computes on a [3 x 3] array: an
    array of fewer than two dimensions is refused. *)
Definition linalg_svd (svd : mat3 -> mat3 * vec3 * mat3) (H : product)
  : result (mat3 * vec3 * mat3) :=
  match H with
  | Matrix A => Ok (svd A)
  | Flat => Raise LinAlgError
  end.

(** [A.T]. *)
Definition transpose (A : mat3) : mat3 :=
  let '((a11, a12, a13), (a21, a22, a23), (a31, a32, a33)) := A in
  ((a11, a21, a31), (a12, a22, a32), (a13, a23, a33)).

(** [A @ B] for two [3 x 3] arrays. *)
Definition matmul (A B : mat3) : mat3 :=
  let '((a11, a12, a13), (a21, a22, a23), (a31, a32, a33)) := A in
  let '((b11, b12, b13), (b21, b22, b23), (b31, b32, b33)) := B in
  ((a11 * b11 + a12 * b21 + a13 * b31,
    a11 * b12 + a12 * b22 + a13 * b32,
    a11 * b13 + a12 * b23 + a13 * b33),
   (a21 * b11 + a22 * b21 + a23 * b31,
    a21 * b12 + a22 * b22 + a23 * b32,
    a21 * b13 + a22 * b23 + a23 * b33),
   (a31 * b11 + a32 * b21 + a33 * b31,
    a31 * b12 + a32 * b22 + a33 * b32,
    a31 * b13 + a32 * b23 + a33 * b33))%R.

(** [A @ v] for a [3 x 3] array and a point. *)
Definition matvec (A : mat3) (v : vec3) : vec3 :=
  let '((a11, a12, a13), (a21, a22, a23), (a31, a32, a33)) := A in
  let '(x, y, z) := v in
  (a11 * x + a12 * y + a13 * z,
   a21 * x + a22 * y + a23 * z,
   a31 * x + a32 * y + a33 * z)%R.

(** [np.linalg.det(A)]. *)
Definition det (A : mat3) : R :=
  let '((a11, a12, a13), (a21, a22, a23), (a31, a32, a33)) := A in
  (a11 * (a22 * a33 - a23 * a32)
   - a12 * (a21 * a33 - a23 * a31)
   + a13 * (a21 * a32 - a22 * a31))%R.

(** [A[-1, :] *= -1]. *)
Definition negate_last_row (A : mat3) : mat3 :=
  let '(r1, r2, (a31, a32, a33)) := A in
  (r1, r2, (a31 * -1, a32 * -1, a33 * -1)%R).

End np.

(** ** [scripts/structural_alignment.py] *)

Module structural_alignment.

Section Kabsch.

(** [np.linalg.svd] on a [3 x 3] array: the factors [U], [S] and [Vt]. *)
Variable svd : np.mat3 -> np.mat3 * np.vec3 * np.mat3.

(** [kabsch_align(P, Q)]. *)
Definition kabsch_align (P Q : list np.vec3) : result (np.mat3 * np.vec3) :=
  let centroid_P := np.mean_axis0 P in
  let centroid_Q := np.mean_axis0 Q in
  let P_centered := np.sub_row P centroid_P in
  let Q_centered := np.sub_row Q centroid_Q in
  H <- np.matmul_T P_centered Q_centered ;;
  usv <- np.linalg_svd svd H ;;
  let '(U, _, Vt) := usv in
  let d := np.det (np.matmul (np.transpose Vt) (np.transpose U)) in
  let Vt := if Rlt_dec d 0 then np.negate_last_row Vt else Vt in
  let R := np.matmul (np.transpose Vt) (np.transpose U) in
  let t := np.vsub centroid_Q (np.matvec R centroid_P) in
  Ok (R, t).

End Kabsch.

(** [calculate_rmsd(P, Q)]. *)
Definition calculate_rmsd (P Q : list np.vec3) : result R :=
  diff <- np.sub P Q ;;
  squares <- np.sum_sq_axis1 diff ;;
  Ok (sqrt (np.mean squares)).

(** [read_pdb_atoms(filename)], on the text of the file. *)
Definition read_pdb_atoms (filename : pystr) : list pystr :=
  filter (fun line => PyStr.startswith line (lit "ATOM")
                      || PyStr.startswith line (lit "HETATM"))
         (PyStr.readlines filename).

(** [change_chain_id(pdb_lines, old_chain, new_chain)]. *)
Definition change_chain_id (pdb_lines : list pystr) (old_chain new_chain : pystr)
  : result (list pystr) :=
  for_each pdb_lines
    (fun line modified =>
       line <-
         (if PyStr.startswith_any line [lit "ATOM"; lit "HETATM"; lit "TER"]
             && (21 <? length line)%nat
          then c <- getitem line 21 ;;
               Ok (if PyStr.eqb [c] old_chain
                   then PyStr.slice_to line 21 ++ new_chain
                        ++ PyStr.slice_from line 22
                   else line)
          else Ok line) ;;
       Ok (modified ++ [line]))
    [].

(** The four renamings of the template chains in [main]. *)
Definition rename_template_chains (template_protein : list pystr)
  : result (list pystr) :=
  template_renamed <- change_chain_id template_protein (lit "A") (lit "W") ;;
  template_renamed <- change_chain_id template_renamed (lit "B") (lit "X") ;;
  template_renamed <- change_chain_id template_renamed (lit "C") (lit "Y") ;;
  change_chain_id template_renamed (lit "D") (lit "Z").

End structural_alignment.

(** ** [scripts/assemble_tetramer.py] *)

Module assemble_tetramer.

Section Kabsch.

Variable svd : np.mat3 -> np.mat3 * np.vec3 * np.mat3.

(** [extract_transformation], from the two arrays of CA coordinates that
    [get_ca_coords] read.  When one of them has no row, [min_len] is 0
    and the product [H] has fewer than two dimensions (a number, or
    three zeros when the other array had rows before the slice). *)
Definition extract_transformation (ca_A ca_C : list np.vec3) : result (np.mat3 * np.vec3) :=
  let min_len := Nat.min (length ca_A) (length ca_C) in
  let ca_A := firstn min_len ca_A in
  let ca_C := firstn min_len ca_C in
  let center_A := np.mean_axis0 ca_A in
  let center_C := np.mean_axis0 ca_C in
  let ca_A_centered := np.sub_row ca_A center_A in
  let ca_C_centered := np.sub_row ca_C center_C in
  H <- np.matmul_T ca_A_centered ca_C_centered ;;
  usv <- np.linalg_svd svd H ;;
  let '(U, _, Vt) := usv in
  let d := np.det (np.matmul (np.transpose Vt) (np.transpose U)) in
  let Vt := if Rlt_dec d 0 then np.negate_last_row Vt else Vt in
  let R := np.matmul (np.transpose Vt) (np.transpose U) in
  let t := np.vsub center_C (np.matvec R center_A) in
  Ok (R, t).

End Kabsch.

(** [read_pdb(filename)], on the text of the file. *)
Definition read_pdb (filename : pystr) : list pystr :=
  filter (fun line =>
            PyStr.startswith_any line [lit "ATOM"; lit "HETATM"; lit "TER"])
         (PyStr.readlines filename).

(** [get_atoms_by_chain(pdb_lines, chain_id)]. *)
Definition get_atoms_by_chain (pdb_lines : list pystr) (chain_id : pystr)
  : result (list pystr) :=
  for_each pdb_lines
    (fun line selected =>
       keep <-
         (if (21 <? length line)%nat
          then c <- getitem line 21 ;; Ok (PyStr.eqb [c] chain_id)
          else Ok false) ;;
       Ok (if keep : bool then selected ++ [line] else selected))
    [].

(** [change_chain_id(pdb_lines, new_chain_id)]. *)
Definition change_chain_id (pdb_lines : list pystr) (new_chain_id : pystr)
  : list pystr :=
  fold_left
    (fun modified line =>
       if PyStr.startswith_any line [lit "ATOM"; lit "HETATM"; lit "TER"]
       then modified ++ [PyStr.slice_to line 21 ++ new_chain_id
                         ++ PyStr.slice_from line 22]
       else modified ++ [line])
    pdb_lines [].

(** [renumber_atoms(pdb_lines, start_num)]. *)
Definition renumber_atoms (pdb_lines : list pystr) (start_num : Z)
  : list pystr * Z :=
  fold_left
    (fun '(renumbered, atom_num) line =>
       if PyStr.startswith_any line [lit "ATOM"; lit "HETATM"]
       then (renumbered ++ [PyStr.slice_to line 6 ++ PyStr.format_d 5 atom_num
                            ++ PyStr.slice_from line 11],
             (atom_num + 1)%Z)
       else (renumbered ++ [line], atom_num))
    pdb_lines ([], start_num).

End assemble_tetramer.

(** ** [scripts/generate_constraints.py] *)

Module generate_constraints.

(** The nested dictionary [read_pdb_coordinates] builds:
    chain -> residue number -> atom name -> (x, y, z). *)
Definition coord : Type := (R * R * R)%type.
Definition atom_dict : Type := list (string * coord).
Definition residue_dict : Type := list (Z * atom_dict).
Definition coords_dict : Type := list (string * residue_dict).

(** A contact dictionary. *)
Record contact : Type := Contact {
  chain1 : string;
  res1 : Z;
  atom1 : string;
  chain2 : string;
  res2 : Z;
  atom2 : string;
  distance : R
}.

(** [calculate_distance(coord1, coord2)]. *)
Definition calculate_distance (coord1 coord2 : coord) : R :=
  let '(x1, y1, z1) := coord1 in
  let '(x2, y2, z2) := coord2 in
  sqrt (0 + (x1 - x2) ^ 2 + (y1 - y2) ^ 2 + (z1 - z2) ^ 2)%R.

(** [atom in ['CA', 'CB', 'N', 'C', 'O']]. *)
Definition backbone : list string := ["CA"; "CB"; "N"; "C"; "O"]%string.

Definition is_backbone (atom : string) : bool :=
  existsb (String.eqb atom) backbone.

(** [find_interface_contacts(coords, distance_cutoff)]. *)
Definition find_interface_contacts
           (coords : coords_dict) (distance_cutoff : R) : result (list contact) :=
  let contacts : list contact := [] in
  let chains := keys coords in
  if (length chains <? 2)%nat then Ok contacts
  else
    chain_a <- getitem chains 0 ;;
    chain_b <- getitem chains 1 ;;
    residues_a <- lookup String.eqb coords chain_a ;;
    for_each (keys residues_a)
      (fun res1 contacts =>
         residues_a <- lookup String.eqb coords chain_a ;;
         atoms1 <- lookup Z.eqb residues_a res1 ;;
         for_each atoms1
           (fun item1 contacts =>
              let '(atom1, coord1) := item1 in
              if negb (is_backbone atom1) then Ok contacts
              else
                residues_b <- lookup String.eqb coords chain_b ;;
                for_each (keys residues_b)
                  (fun res2 contacts =>
                     residues_b <- lookup String.eqb coords chain_b ;;
                     atoms2 <- lookup Z.eqb residues_b res2 ;;
                     for_each atoms2
                       (fun item2 contacts =>
                          let '(atom2, coord2) := item2 in
                          if negb (is_backbone atom2) then Ok contacts
                          else
                            let dist := calculate_distance coord1 coord2 in
                            if Rlt_dec dist distance_cutoff
                            then Ok (contacts ++
                                     [Contact chain_a res1 atom1 chain_b res2 atom2 dist])
                            else Ok contacts)
                       contacts)
                  contacts)
           contacts)
      contacts.

End generate_constraints.

(** ** [scripts/analyze_models.py] *)

Module analyze_models.

(** An entry of [chain_a_atoms] or [chain_b_atoms]: [(res_num, x, y, z)]. *)
Definition ca_atom : Type := (Z * R * R * R)%type.

(** The second half of [identify_interface_residues]: the scan over the
    CA atoms of chains A and B that the first half read from the file. *)
Definition identify_interface_residues
           (chain_a_atoms chain_b_atoms : list ca_atom) (distance_cutoff : R)
  : list Z * list Z :=
  let scan :=
    fold_left
      (fun sets a =>
         let '(res_a, xa, ya, za) := a in
         fold_left
           (fun sets b =>
              let '(res_b, xb, yb, zb) := b in
              let '(interface_a, interface_b) := sets in
              let dist := sqrt ((xa - xb) ^ 2 + (ya - yb) ^ 2 + (za - zb) ^ 2)%R in
              if Rlt_dec dist distance_cutoff
              then (set_add interface_a res_a, set_add interface_b res_b)
              else sets)
           chain_b_atoms sets)
      chain_a_atoms ([], []) in
  (sorted (fst scan), sorted (snd scan)).

End analyze_models.

(** ** [scripts/check_binding_conservation.py] *)

Module check_binding_conservation.

(** [parse_grishin_alignment(filepath)], on the text of the file. *)
Definition parse_grishin_alignment (filepath : pystr) : list (pystr * pystr) :=
  let lines := PyStr.readlines filepath in
  fold_left
    (fun sequences '(i, line) =>
       if PyStr.startswith line (lit "0 ") then
         let sequence := PyStr.strip (PyStr.slice_from line 2) in
         if (i =? 3)%nat then dict_set PyStr.eqb sequences (lit "mabs") sequence
         else if (i =? 4)%nat
              then dict_set PyStr.eqb sequences (lit "mtb") sequence
              else sequences
       else sequences)
    (combine (seq 0 (length lines)) lines) [].

(** A value of the mapping: the dictionary with the keys [target_res],
    [template_res] and [template_pos]. *)
Record residue_pair : Type := ResiduePair {
  target_res : ascii;
  template_res : ascii;
  template_pos : Z
}.

(** [align_residue_mapping(target_seq, template_seq)]. *)
Definition align_residue_mapping (target_seq template_seq : pystr)
  : result (list (Z * residue_pair)) :=
  st <-
    for_range 0 (Z.of_nat (length target_seq))
      (fun i '(target_pos, template_pos, mapping) =>
         target_char <-
           (if (i <? Z.of_nat (length target_seq))%Z
            then getitem target_seq i else Ok GAP) ;;
         template_char <-
           (if (i <? Z.of_nat (length template_seq))%Z
            then getitem template_seq i else Ok GAP) ;;
         let target_pos :=
           if negb (Ascii.eqb target_char GAP)
           then (target_pos + 1)%Z else target_pos in
         let template_pos :=
           if negb (Ascii.eqb template_char GAP)
           then (template_pos + 1)%Z else template_pos in
         Ok (target_pos, template_pos,
             if negb (Ascii.eqb target_char GAP)
                && negb (Ascii.eqb template_char GAP)
             then dict_set Z.eqb mapping target_pos
                    (ResiduePair target_char template_char template_pos)
             else mapping))
      (0%Z, 0%Z, []) ;;
  Ok (snd st).

End check_binding_conservation.

(** ** [scripts/prepare_templates.py] *)

Module prepare_templates.

(** [keep_chains and chain_id not in keep_chains]: [None] and the empty
    list keep every chain. *)
Definition chain_dropped (keep_chains : option (list pystr)) (chain_id : pystr)
  : bool :=
  match keep_chains with
  | Some ((_ :: _) as chains) => negb (existsb (PyStr.eqb chain_id) chains)
  | _ => false
  end.

(** [clean_pdb(pdb_file, output_file, keep_chains)]: from the text of the
    input file to the text of the output file. *)
Definition clean_pdb (pdb_file : pystr) (keep_chains : option (list pystr))
  : result pystr :=
  clean_lines <-
    for_each (PyStr.readlines pdb_file)
      (fun line clean_lines =>
         if PyStr.startswith line (lit "ATOM") then
           alt_loc <- getitem line 16 ;;
           if negb (existsb (PyStr.eqb [alt_loc]) [lit " "; lit "A"])
           then Ok clean_lines
           else
             chain_id <- getitem line 21 ;;
             if chain_dropped keep_chains [chain_id]
             then Ok clean_lines
             else Ok (clean_lines
                      ++ [PyStr.slice_to line 16 ++ lit " "
                          ++ PyStr.slice_from line 17])
         else if PyStr.startswith line (lit "TER")
              then Ok (clean_lines ++ [line])
              else Ok clean_lines)
      [] ;;
  let clean_lines := clean_lines ++ [lit "END" ++ [PyStr.LF]] in
  Ok (fold_left PyStr.write clean_lines []).

(** [three_to_one] of [extract_sequence_from_pdb]. *)
Definition three_to_one : list (pystr * pystr) :=
  [ (lit "ALA", lit "A"); (lit "ARG", lit "R"); (lit "ASN", lit "N");
    (lit "ASP", lit "D"); (lit "CYS", lit "C"); (lit "GLN", lit "Q");
    (lit "GLU", lit "E"); (lit "GLY", lit "G"); (lit "HIS", lit "H");
    (lit "ILE", lit "I"); (lit "LEU", lit "L"); (lit "LYS", lit "K");
    (lit "MET", lit "M"); (lit "PHE", lit "F"); (lit "PRO", lit "P");
    (lit "SER", lit "S"); (lit "THR", lit "T"); (lit "TRP", lit "W");
    (lit "TYR", lit "Y"); (lit "VAL", lit "V"); (lit "MSE", lit "M") ].

(** [res_num != last_residue[chain_id]], where the stored value is
    [None] or a string. *)
Definition differs (res_num : pystr) (last : option pystr) : bool :=
  match last with
  | Some l => negb (PyStr.eqb res_num l)
  | None => true
  end.

(** [extract_sequence_from_pdb(pdb_file)], on the text of the file. *)
Definition extract_sequence_from_pdb (pdb_file : pystr)
  : result (list (pystr * pystr)) :=
  st <-
    for_each (PyStr.readlines pdb_file)
      (fun line '(sequences, last_residue) =>
         if PyStr.startswith line (lit "ATOM") then
           c <- getitem line 21 ;;
           let chain_id := [c] in
           let res_name := PyStr.strip (PyStr.slice line 17 20) in
           let res_num := PyStr.strip (PyStr.slice line 22 26) in
           let '(sequences, last_residue) :=
             if negb (dict_mem PyStr.eqb sequences chain_id)
             then (dict_set PyStr.eqb sequences chain_id [],
                   dict_set PyStr.eqb last_residue chain_id None)
             else (sequences, last_residue) in
           last <- lookup PyStr.eqb last_residue chain_id ;;
           if differs res_num last then
             sequences <-
               (if dict_mem PyStr.eqb three_to_one res_name
                then chain_seq <- lookup PyStr.eqb sequences chain_id ;;
                     one <- lookup PyStr.eqb three_to_one res_name ;;
                     Ok (dict_set PyStr.eqb sequences chain_id
                                  (chain_seq ++ [one]))
                else Ok sequences) ;;
             Ok (sequences,
                 dict_set PyStr.eqb last_residue chain_id (Some res_num))
           else Ok (sequences, last_residue)
         else Ok (sequences, last_residue))
      ([], []) ;;
  Ok (map (fun '(chain, chain_seq) => (chain, PyStr.join chain_seq)) (fst st)).

(** [write_template_fasta(sequences, template_name, output_file)]: the
    text of the file it writes. *)
Definition write_template_fasta (sequences : list (pystr * pystr))
           (template_name : pystr) : pystr :=
  fold_left
    (fun f '(chain_id, sequence) =>
       let f := PyStr.write f (lit ">" ++ template_name ++ lit "_Chain"
                               ++ chain_id ++ [PyStr.LF]) in
       fold_left
         (fun f i =>
            PyStr.write f (PyStr.slice sequence i (i + 80) ++ [PyStr.LF]))
         (range_step (length sequence) 80) f)
    sequences [].

End prepare_templates.

(** * Specification vocabulary *)

(** ** Score tables *)

(** The entry of [score] in row [a], column [b], if there is one. *)
Definition cell_at (score : matrix) (a b : nat) : option Z :=
  match nth_error score a with
  | Some row => nth_error row b
  | None => None
  end.

(** [score] has [r] rows of [c] entries each. *)
Definition shape (score : matrix) (r c : nat) : Prop :=
  length score = r /\ forall a row, nth_error score a = Some row -> length row = c.

(** ** The recurrence the table implements *)

Section Recurrence.

Variables seq1 seq2 : pystr.
Variables match_ mismatch gap : Z.

(** Score of pairing the symbols at 0-based positions [i] and [j]. *)
Definition subst_score (i j : nat) : Z :=
  if Ascii.eqb (nth i seq1 GAP) (nth j seq2 GAP) then match_ else mismatch.

(** The Needleman-Wunsch recurrence on prefix lengths [i] and [j]. *)
Fixpoint opt (i j : nat) {struct i} : Z :=
  match i with
  | O => (Z.of_nat j * gap)%Z
  | S i' =>
      (fix row (j : nat) : Z :=
         match j with
         | O => (Z.of_nat (S i') * gap)%Z
         | S j' =>
             max3 (opt i' j' + subst_score i' j')%Z
                  (opt i' (S j') + gap)%Z
                  (row j' + gap)%Z
         end) j
  end.

End Recurrence.

(** ** Alignments as lists of columns *)

(** A column of an alignment: two symbols paired, a symbol of the first
    sequence over a gap, or a symbol of the second sequence under a gap. *)
Inductive column : Type :=
| Pair (a b : ascii)
| Del (a : ascii)
| Ins (b : ascii).

(** The symbol a column shows in the first and in the second row. *)
Definition top (c : column) : ascii :=
  match c with Pair a _ => a | Del a => a | Ins _ => GAP end.

Definition bottom (c : column) : ascii :=
  match c with Pair _ b => b | Del _ => GAP | Ins b => b end.

(** The symbols of each input sequence that a list of columns uses up. *)
Definition consumed1 (cols : list column) : pystr :=
  flat_map (fun c => match c with Pair a _ => [a] | Del a => [a] | Ins _ => [] end) cols.

Definition consumed2 (cols : list column) : pystr :=
  flat_map (fun c => match c with Pair _ b => [b] | Del _ => [] | Ins b => [b] end) cols.

Section Scoring.

Variables match_ mismatch gap : Z.

(** What a column contributes to the score of an alignment. *)
Definition column_score (c : column) : Z :=
  match c with
  | Pair a b => if Ascii.eqb a b then match_ else mismatch
  | Del _ => gap
  | Ins _ => gap
  end.

Definition columns_score (cols : list column) : Z :=
  fold_right (fun c acc => (column_score c + acc)%Z) 0%Z cols.

(** Re-scoring two aligned strings column by column: the gap penalty for a
    column that holds a gap, else the match or the mismatch score. *)
Definition rescore_column (x y : ascii) : Z :=
  if Ascii.eqb x GAP || Ascii.eqb y GAP then gap
  else if Ascii.eqb x y then match_ else mismatch.

Definition rescore (aligned1 aligned2 : pystr) : Z :=
  fold_right (fun xy acc => (rescore_column (fst xy) (snd xy) + acc)%Z) 0%Z
             (combine aligned1 aligned2).

End Scoring.

(** A string that holds no gap symbol. *)
Definition gap_free (s : pystr) : Prop := Forall (fun c => c <> GAP) s.

(** ** What the loops of the aligner keep true *)

Section AlignerInvariants.

Variables seq1 seq2 : pystr.
Variables match_ mismatch gap : Z.

Let m : nat := length seq1.
Let n : nat := length seq2.

(** Every entry of [score] that [D] marks holds the recurrence's value. *)
Definition filled (D : nat -> nat -> Prop) (score : matrix) : Prop :=
  shape score (S m) (S n) /\
  forall a b, (a <= m)%nat -> (b <= n)%nat -> D a b ->
              cell_at score a b = Some (opt seq1 seq2 match_ mismatch gap a b).

(** What the loop keeps true: the columns written so far use up exactly
    the symbols after position [i] and [j], and their score added to the
    entry at [(i, j)] is the entry at [(m, n)]. *)
Definition tb_inv (st : setup_gyrase_model.tb_state) : Prop :=
  exists (i j : nat) (cols : list column),
    st = (Z.of_nat i, Z.of_nat j, map top cols, map bottom cols) /\
    (i <= m)%nat /\ (j <= n)%nat /\
    rev (consumed1 cols) = skipn i seq1 /\
    rev (consumed2 cols) = skipn j seq2 /\
    (columns_score match_ mismatch gap cols + opt seq1 seq2 match_ mismatch gap i j =
     opt seq1 seq2 match_ mismatch gap m n)%Z.

Definition tb_measure (st : setup_gyrase_model.tb_state) : nat :=
  let '(i, j, _, _) := st in (Z.to_nat i + Z.to_nat j)%nat.

End AlignerInvariants.

(** ** The path of the tie-break rule *)

(** The entry [score[i][j]] of a table, 0 where the table has none. *)
Definition entry (score : matrix) (i j : nat) : Z :=
  match cell_at score i j with
  | Some v => v
  | None => 0%Z
  end.

Section TieBreak.

Variables seq1 seq2 : pystr.
Variables match_ mismatch gap : Z.

(** The entries of the table the traceback reads. *)
Variable value : nat -> nat -> Z.

(** The columns the rule writes on its way from the cell [(i, j)] back
    to [(0, 0)], in the order it writes them.  At a cell off both edges:
    the diagonal move when the entry equals the recomputed diagonal
    candidate; otherwise the move up, a symbol of the first sequence
    over a gap, when that reproduces the entry; otherwise the move
    left.  In column 0 the only move is up, in row 0 it is left. *)
Fixpoint rule_path (i j : nat) {struct i} : list column :=
  match i with
  | O =>
      (fix along_row (j : nat) : list column :=
         match j with
         | O => []
         | S j' => Ins (nth j' seq2 GAP) :: along_row j'
         end) j
  | S i' =>
      (fix row (j : nat) : list column :=
         match j with
         | O => Del (nth i' seq1 GAP) :: rule_path i' O
         | S j' =>
             if (value (S i') (S j') =?
                 value i' j' + subst_score seq1 seq2 match_ mismatch i' j')%Z
             then Pair (nth i' seq1 GAP) (nth j' seq2 GAP) :: rule_path i' j'
             else if (value (S i') (S j') =? value i' (S j') + gap)%Z
                  then Del (nth i' seq1 GAP) :: rule_path i' (S j')
                  else Ins (nth j' seq2 GAP) :: row j'
         end) j
  end.

End TieBreak.

(** The two aligned strings the rule determines on the table [score]:
    the rows of the columns of its path from [(m, n)], first written
    last. *)
Definition rule_rows (seq1 seq2 : pystr) (match_ mismatch gap : Z)
           (score : matrix) : pystr * pystr :=
  let cols := rev (rule_path seq1 seq2 match_ mismatch gap (entry score)
                             (length seq1) (length seq2)) in
  (map top cols, map bottom cols).

(** ** Round trip *)

(** A string literal as a sequence. *)
Definition str (x : string) : pystr := list_ascii_of_string x.

(** What the round trip asks of a result [r] of aligning [seq1] and
    [seq2]: a pair of strings of one length; deleting the gap symbol from
    either gives the input with its own gap symbols deleted, hence the
    input itself when it holds none. *)
Definition round_trip (seq1 seq2 : pystr) (r : result (pystr * pystr)) : Prop :=
  exists aligned1 aligned2,
    r = Ok (aligned1, aligned2) /\
    length aligned1 = length aligned2 /\
    remove_gaps aligned1 = remove_gaps seq1 /\
    remove_gaps aligned2 = remove_gaps seq2 /\
    (gap_free seq1 -> remove_gaps aligned1 = seq1) /\
    (gap_free seq2 -> remove_gaps aligned2 = seq2).

(** ** Identity *)

(** Number of aligned columns whose two symbols are equal and not gaps. *)
Fixpoint matching_columns (aligned1 aligned2 : pystr) : nat :=
  match aligned1, aligned2 with
  | x :: t1, y :: t2 =>
      ((if Ascii.eqb x y && negb (Ascii.eqb x GAP) then 1 else 0)
       + matching_columns t1 t2)%nat
  | _, _ => O
  end.

(** Number of aligned columns neither symbol of which is a gap. *)
Fixpoint ungapped_columns (aligned1 aligned2 : pystr) : nat :=
  match aligned1, aligned2 with
  | x :: t1, y :: t2 =>
      ((if negb (Ascii.eqb x GAP) && negb (Ascii.eqb y GAP) then 1 else 0)
       + ungapped_columns t1 t2)%nat
  | _, _ => O
  end.

(** Number of symbols of a string that are not gaps. *)
Definition non_gap_symbols (s : pystr) : nat :=
  (length s - count_occ ascii_dec s GAP)%nat.

(** The quotient a count of matches and a denominator give, as a
    percentage, zero when the denominator is zero. *)
Definition percentage (matches denominator : nat) : Q :=
  match denominator with
  | O => 0%Q
  | S _ => (inject_Z (Z.of_nat matches) / inject_Z (Z.of_nat denominator) * 100)%Q
  end.

(** Identity the way the specification words it: matching columns over
    the columns that hold no gap, zero when there is none. *)
Definition identity_as_specified (aligned1 aligned2 : pystr) : Q :=
  match ungapped_columns aligned1 aligned2 with
  | O => 0%Q
  | S k =>
      (inject_Z (Z.of_nat (matching_columns aligned1 aligned2))
       / inject_Z (Z.of_nat (S k)))%Q
  end.

(** ** Orthogonal factors *)

Definition identity3 : np.mat3 := ((1, 0, 0), (0, 1, 0), (0, 0, 1))%R.

(** [A @ A.T] is the identity. *)
Definition orthogonal (A : np.mat3) : Prop :=
  np.matmul A (np.transpose A) = identity3.

(** What numpy documents of [np.linalg.svd]: the factors [U] and [Vt] it
    returns are orthogonal. *)
Definition svd_orthogonal (svd : np.mat3 -> np.mat3 * np.vec3 * np.mat3) : Prop :=
  forall H, orthogonal (fst (fst (svd H))) /\ orthogonal (snd (svd H)).

(** A proper rotation, the way the specification bounds it: determinant
    1, within [[0.999, 1.001]], and not -1. *)
Definition proper_rotation (A : np.mat3) : Prop :=
  np.det A = 1%R /\ (0.999 <= np.det A <= 1.001)%R /\ np.det A <> (-1)%R.

(** The reflection in the plane [z = 0], of determinant -1. *)
Definition mirror_z : np.mat3 := ((1, 0, 0), (0, 1, 0), (0, 0, -1))%R.

(** Six points, one unit along each half-axis, and their mirror images. *)
Definition octahedron : list np.vec3 :=
  [(1, 0, 0); (-1, 0, 0); (0, 1, 0); (0, -1, 0); (0, 0, 1); (0, 0, -1)]%R.

Definition octahedron_mirrored : list np.vec3 :=
  [(1, 0, 0); (-1, 0, 0); (0, 1, 0); (0, -1, 0); (0, 0, -1); (0, 0, 1)]%R.

(** The factors of a singular value decomposition of the product
    [P_centered.T @ Q_centered] of the six points and their mirror
    images, which is [diag(2, 2, -2)]: [U] the identity, the singular
    values 2, 2 and 2, and [Vt] the reflection. *)
Definition mirror_svd (H : np.mat3) : np.mat3 * np.vec3 * np.mat3 :=
  (identity3, (2, 2, 2)%R, mirror_z).

(** [U @ np.diag(S) @ Vt]. *)
Definition svd_product (usv : np.mat3 * np.vec3 * np.mat3) : np.mat3 :=
  let '(U, (s1, s2, s3), Vt) := usv in
  np.matmul U (np.matmul ((s1, 0, 0), (0, s2, 0), (0, 0, s3))%R Vt).

(** ** The contract of the contact finder, in the specification's words *)

(** A label: chain, residue number, atom name. *)
Definition label : Type := (string * Z * string)%type.

(** A labelled point. *)
Definition point : Type := (label * generate_constraints.coord)%type.

(** For every point of [setA] and every point of [setB], the triple of the
    two labels and the distance, kept when the distance is below the
    cutoff. *)
Definition findContacts (setA setB : list point) (cutoff : R)
  : list (label * label * R) :=
  flat_map
    (fun a =>
       flat_map
         (fun b =>
            let d := generate_constraints.calculate_distance (snd a) (snd b) in
            if Rlt_dec d cutoff then [(fst a, fst b, d)] else [])
         setB)
    setA.

(** The point set of a chain after the label filter: its backbone and CB
    atoms, in the order of the dictionary. *)
Definition backbone_points (chain : string) (residues : generate_constraints.residue_dict)
  : list point :=
  flat_map
    (fun e =>
       flat_map
         (fun item =>
            if generate_constraints.is_backbone (fst item)
            then [((chain, fst e, fst item), snd item)]
            else [])
         (snd e))
    residues.

(** The contact dictionary of a triple. *)
Definition contact_of (t : label * label * R) : generate_constraints.contact :=
  let '((c1, r1, a1), (c2, r2, a2), d) := t in
  generate_constraints.Contact c1 r1 a1 c2 r2 a2 d.

(** A dictionary holds a key once; so does every dictionary of residues. *)
Definition wf_coords (coords : generate_constraints.coords_dict) : Prop :=
  NoDup (keys coords) /\
  forall chain residues, In (chain, residues) coords -> NoDup (keys residues).

(** The two point sets the scan compares: the backbone and CB atoms of the
    first and of the second chain of the dictionary (none when it holds
    fewer than two chains). *)
Definition interface_point_sets (coords : generate_constraints.coords_dict)
  : list point * list point :=
  match coords with
  | (chain_a, residues_a) :: (chain_b, residues_b) :: _ =>
      (backbone_points chain_a residues_a, backbone_points chain_b residues_b)
  | _ => ([], [])
  end.

(** A dictionary of two chains with one CA atom each, three apart. *)
Definition two_chains : generate_constraints.coords_dict :=
  [("A"%string, [(1%Z, [("CA"%string, (0, 0, 0)%R)])]);
   ("B"%string, [(1%Z, [("CA"%string, (0, 0, 3)%R)])])].

(** ** What the loops of [find_interface_contacts] append *)

Section Scan.

Variables chain_a chain_b : string.
Variables residues_a residues_b : generate_constraints.residue_dict.
Variable cutoff : R.

(** What one turn of each of the four nested loops appends. *)
Definition scan_atom2 (res1 : Z) (atom1 : string) (coord1 : generate_constraints.coord)
           (res2 : Z) (item2 : string * generate_constraints.coord)
  : list generate_constraints.contact :=
  if generate_constraints.is_backbone (fst item2) then
    if Rlt_dec (generate_constraints.calculate_distance coord1 (snd item2)) cutoff
    then [generate_constraints.Contact chain_a res1 atom1 chain_b res2 (fst item2)
            (generate_constraints.calculate_distance coord1 (snd item2))]
    else []
  else [].

Definition scan_res2 (res1 : Z) (atom1 : string) (coord1 : generate_constraints.coord)
           (e2 : Z * generate_constraints.atom_dict) : list generate_constraints.contact :=
  flat_map (scan_atom2 res1 atom1 coord1 (fst e2)) (snd e2).

Definition scan_atom1 (res1 : Z) (item1 : string * generate_constraints.coord)
  : list generate_constraints.contact :=
  if generate_constraints.is_backbone (fst item1)
  then flat_map (scan_res2 res1 (fst item1) (snd item1)) residues_b
  else [].

Definition scan_res1 (e1 : Z * generate_constraints.atom_dict)
  : list generate_constraints.contact :=
  flat_map (scan_atom1 (fst e1)) (snd e1).

End Scan.

(** ** The loops of [identify_interface_residues] *)

(** Residue number of a CA atom, and distance of two CA atoms. *)
Definition ca_res (a : analyze_models.ca_atom) : Z := fst (fst (fst a)).

Definition ca_distance (a b : analyze_models.ca_atom) : R :=
  let '(_, xa, ya, za) := a in
  let '(_, xb, yb, zb) := b in
  sqrt ((xa - xb) ^ 2 + (ya - yb) ^ 2 + (za - zb) ^ 2)%R.

Section ResidueScan.

Variable cutoff : R.
Variable chain_b_atoms : list analyze_models.ca_atom.

(** The inner loop, for the atom [(res_a, xa, ya, za)] of chain A. *)
Definition scan_b (res_a : Z) (xa ya za : R) (bs : list analyze_models.ca_atom)
           (sets : list Z * list Z) : list Z * list Z :=
  fold_left
    (fun sets b =>
       let '(res_b, xb, yb, zb) := b in
       let '(interface_a, interface_b) := sets in
       let dist := sqrt ((xa - xb) ^ 2 + (ya - yb) ^ 2 + (za - zb) ^ 2)%R in
       if Rlt_dec dist cutoff
       then (set_add interface_a res_a, set_add interface_b res_b)
       else sets)
    bs sets.

(** The outer loop. *)
Definition scan_a (atoms : list analyze_models.ca_atom) (sets : list Z * list Z)
  : list Z * list Z :=
  fold_left
    (fun sets a =>
       let '(res_a, xa, ya, za) := a in
       scan_b res_a xa ya za chain_b_atoms sets)
    atoms sets.

End ResidueScan.

(** ** Residue mappings *)

(** Number of residues, symbols that are not gaps, among the first [i]
    symbols of an aligned row. *)
Definition residues_before (row : pystr) (i : nat) : nat :=
  length (remove_gaps (firstn i row)).

(** What column [i] of two aligned rows adds to the mapping: nothing
    when one of the rows shows a gap there or has ended, else the pair
    of residues under the residue numbers they have in their rows. *)
Definition paired_at (target template : pystr) (i : nat)
  : list (Z * check_binding_conservation.residue_pair) :=
  match nth_error target i, nth_error template i with
  | Some a, Some b =>
      if negb (Ascii.eqb a GAP) && negb (Ascii.eqb b GAP)
      then [(Z.of_nat (residues_before target (S i)),
             check_binding_conservation.ResiduePair a b
               (Z.of_nat (residues_before template (S i))))]
      else []
  | _, _ => []
  end.

Definition paired_columns (target template : pystr)
  : list (Z * check_binding_conservation.residue_pair) :=
  flat_map (paired_at target template) (seq 0 (length target)).

(** Two entries of a mapping in the order of their columns: both residue
    numbers grow. *)
Definition mapping_lt (x y : Z * check_binding_conservation.residue_pair) : Prop :=
  (fst x < fst y)%Z /\
  (check_binding_conservation.template_pos (snd x) <
   check_binding_conservation.template_pos (snd y))%Z.

(** ** Lines of a PDB file *)

(** The line starts one of the records that carry a chain identifier. *)
Definition is_record (line : pystr) : bool :=
  PyStr.startswith_any line [lit "ATOM"; lit "HETATM"; lit "TER"].

(** The line starts an atom record. *)
Definition is_atom (line : pystr) : bool :=
  PyStr.startswith_any line [lit "ATOM"; lit "HETATM"].

(** The line with [new] in the place of what it holds at index 21. *)
Definition set_chain (line new : pystr) : pystr :=
  PyStr.slice_to line 21 ++ new ++ PyStr.slice_from line 22.

(** The line has the one-character string [chain] at index 21. *)
Definition has_chain (line chain : pystr) : bool :=
  match nth_error line 21 with
  | Some c => PyStr.eqb [c] chain
  | None => false
  end.

(** What [structural_alignment.change_chain_id] does to one line. *)
Definition rename_line (old new line : pystr) : pystr :=
  if is_record line && has_chain line old then set_chain line new else line.

(** The renaming [main] of [structural_alignment.py] is after: A to W,
    B to X, C to Y and D to Z at once. *)
Definition chain_relabel (c : ascii) : ascii :=
  if Ascii.eqb c "A" then "W"%char
  else if Ascii.eqb c "B" then "X"%char
  else if Ascii.eqb c "C" then "Y"%char
  else if Ascii.eqb c "D" then "Z"%char
  else c.

Definition relabel_line (line : pystr) : pystr :=
  match nth_error line 21 with
  | Some c => if is_record line then set_chain line [chain_relabel c] else line
  | None => line
  end.

(** Two lines that agree in length and everywhere but at index [k]. *)
Definition same_but_at (k : nat) (line line' : pystr) : Prop :=
  length line' = length line /\
  forall j, j <> k -> nth_error line' j = nth_error line j.

(** Two lines that agree in length and everywhere but at the indices
    from [lo] up to, not including, [hi]. *)
Definition same_outside (lo hi : nat) (line line' : pystr) : Prop :=
  length line' = length line /\
  forall j, (j < lo \/ hi <= j)%nat -> nth_error line' j = nth_error line j.

(** Number of atom records among the lines. *)
Definition atom_count (pdb_lines : list pystr) : nat :=
  length (filter is_atom pdb_lines).

(** ** Text *)

(** The string holds no line break. *)
Definition one_line (s : pystr) : Prop :=
  forallb (fun c => negb (Ascii.eqb c PyStr.LF || Ascii.eqb c PyStr.CR)) s = true.

(** The string holds no white space. *)
Definition no_space (s : pystr) : Prop :=
  forallb (fun c => negb (PyStr.isspace c)) s = true.

(** A line of a file: its text and the line break that ends it. *)
Definition ended (s : pystr) : pystr := s ++ [PyStr.LF].

(** The string holds neither white space nor the mark [>] that starts a
    header of a FASTA file. *)
Definition plain (s : pystr) : Prop :=
  forallb (fun c => negb (PyStr.isspace c) && negb (Ascii.eqb c ">")) s = true.

(** The pieces of [width] characters a sequence is written in. *)
Definition chunks (width : nat) (s : pystr) : list pystr :=
  map (fun i => PyStr.slice s i (i + width)) (range_step (length s) width).

(** The header [write_template_fasta] gives a chain, without its mark. *)
Definition chain_header (template_name chain_id : pystr) : pystr :=
  template_name ++ lit "_Chain" ++ chain_id.

(** One turn of the loop of [read_fasta]. *)
Definition fasta_step (line : pystr)
           (st : list (pystr * pystr) * option pystr * list pystr)
  : result (list (pystr * pystr) * option pystr * list pystr) :=
  let '(sequences, current_header, current_seq) := st in
  let line := PyStr.strip line in
  if PyStr.startswith line (lit ">") then
    let sequences :=
      generate_alignment.store_sequence sequences current_header current_seq in
    header <- getitem (PyStr.split (PyStr.slice_from line 1)) 0 ;;
    Ok (sequences, Some header, [])
  else Ok (sequences, current_header, current_seq ++ [line]).

(** The text is empty or ends with a line break. *)
Definition terminated (text : pystr) : Prop :=
  match rev text with
  | [] => True
  | c :: _ => c = PyStr.LF \/ c = PyStr.CR
  end.

(** A line as a file gives it: text of one line and its line break. *)
Definition whole_line (line : pystr) : Prop :=
  exists body, line = ended body /\ one_line body.

(** What one turn of the loop of [clean_pdb] adds to the clean lines. *)
Definition clean_line (keep_chains : option (list pystr)) (line : pystr)
  : result (list pystr) :=
  if PyStr.startswith line (lit "ATOM") then
    alt_loc <- getitem line 16 ;;
    if negb (existsb (PyStr.eqb [alt_loc]) [lit " "; lit "A"])
    then Ok []
    else
      chain_id <- getitem line 21 ;;
      if prepare_templates.chain_dropped keep_chains [chain_id]
      then Ok []
      else Ok [PyStr.slice_to line 16 ++ lit " " ++ PyStr.slice_from line 17]
  else if PyStr.startswith line (lit "TER") then Ok [line] else Ok [].

(** The lines [clean_pdb] keeps of the lines it reads. *)
Definition clean_lines (keep_chains : option (list pystr)) (lines : list pystr)
  : result (list pystr) :=
  for_each lines
    (fun line acc => kept <- clean_line keep_chains line ;; Ok (acc ++ kept)) [].

(** A line of a cleaned file: an atom record with a blank at index 16,
    the place of the alternate location, and a chain that is kept, or a
    [TER] record. *)
Definition cleaned_record (keep_chains : option (list pystr)) (line : pystr)
  : Prop :=
  (PyStr.startswith line (lit "ATOM") = true /\
   nth_error line 16 = Some " "%char /\
   exists chain_id, nth_error line 21 = Some chain_id /\
                    prepare_templates.chain_dropped keep_chains [chain_id] = false)
  \/ (PyStr.startswith line (lit "ATOM") = false /\
      PyStr.startswith line (lit "TER") = true).

(** One turn of the loop of [prepare_templates.extract_sequence_from_pdb]. *)
Definition extract_step (line : pystr)
           (st : list (pystr * list pystr) * list (pystr * option pystr))
  : result (list (pystr * list pystr) * list (pystr * option pystr)) :=
  let '(sequences, last_residue) := st in
  if PyStr.startswith line (lit "ATOM") then
    c <- getitem line 21 ;;
    let chain_id := [c] in
    let res_name := PyStr.strip (PyStr.slice line 17 20) in
    let res_num := PyStr.strip (PyStr.slice line 22 26) in
    let '(sequences, last_residue) :=
      if negb (dict_mem PyStr.eqb sequences chain_id)
      then (dict_set PyStr.eqb sequences chain_id [],
            dict_set PyStr.eqb last_residue chain_id None)
      else (sequences, last_residue) in
    last <- lookup PyStr.eqb last_residue chain_id ;;
    if prepare_templates.differs res_num last then
      sequences <-
        (if dict_mem PyStr.eqb prepare_templates.three_to_one res_name
         then chain_seq <- lookup PyStr.eqb sequences chain_id ;;
              one <- lookup PyStr.eqb prepare_templates.three_to_one res_name ;;
              Ok (dict_set PyStr.eqb sequences chain_id (chain_seq ++ [one]))
         else Ok sequences) ;;
      Ok (sequences, dict_set PyStr.eqb last_residue chain_id (Some res_num))
    else Ok (sequences, last_residue)
  else Ok (sequences, last_residue).

(** What the loop keeps true of its two dictionaries: they have the same
    keys, each once, and every sequence is made of one-letter codes of
    the table. *)
Definition extract_inv
           (st : list (pystr * list pystr) * list (pystr * option pystr)) : Prop :=
  keys (fst st) = keys (snd st) /\
  NoDup (keys (fst st)) /\
  Forall (fun kv => Forall (fun one => In one (map snd prepare_templates.three_to_one))
                           (snd kv))
         (fst st).

(** What [get_seqres_sequence] does with one residue name. *)
Definition seqres_residue (res : pystr) (sequence : list pystr)
  : result (list pystr) :=
  if dict_mem PyStr.eqb setup_gyrase_model.THREE_TO_ONE res
  then one <- lookup PyStr.eqb setup_gyrase_model.THREE_TO_ONE res ;;
       Ok (sequence ++ [one])
  else Ok sequence.

(** One turn of the loop of [get_seqres_sequence] over the lines. *)
Definition seqres_step (chain_id line : pystr) (sequence : list pystr)
  : result (list pystr) :=
  selected <-
    (if PyStr.startswith line (lit "SEQRES")
     then c <- getitem line 11 ;; Ok (PyStr.eqb [c] chain_id)
     else Ok false) ;;
  if selected : bool then
    for_each (PyStr.split (PyStr.slice_from line 19)) seqres_residue sequence
  else Ok sequence.

(** Every item is a one-letter code of [THREE_TO_ONE]. *)
Definition one_letter_codes (sequence : list pystr) : Prop :=
  Forall (fun one => In one (map snd setup_gyrase_model.THREE_TO_ONE)) sequence.

(** * Properties of the run-time model *)

Section RuntimeFacts.

Context {A : Type}.

Lemma index_nonneg (len : nat) (k : Z) :
  (0 <= k < Z.of_nat len)%Z -> Py.index len k = Some (Z.to_nat k).
Proof.
  intros H. unfold Py.index.
  destruct (Z.leb_spec 0 k); [|lia].
  destruct (Z.ltb_spec k (Z.of_nat len)); [|lia].
  reflexivity.
Qed.

Lemma getitem_nth_error (l : list A) (k : nat) (a : A) :
  nth_error l k = Some a -> getitem l (Z.of_nat k) = Ok a.
Proof.
  intros H. unfold getitem.
  assert (k < length l)%nat by (apply nth_error_Some; congruence).
  rewrite index_nonneg by lia.
  rewrite Nat2Z.id, H. reflexivity.
Qed.

Lemma length_update (l : list A) (p : nat) (v : A) :
  length (update l p v) = length l.
Proof.
  revert p. induction l as [|h t IH]; intros [|p]; simpl; auto.
Qed.

Lemma nth_error_update_same (l : list A) (p : nat) (v : A) :
  (p < length l)%nat -> nth_error (update l p v) p = Some v.
Proof.
  revert p. induction l as [|h t IH]; intros [|p] H; simpl in *; try lia; auto.
  apply IH. lia.
Qed.

Lemma nth_error_update_other (l : list A) (p q : nat) (v : A) :
  p <> q -> nth_error (update l p v) q = nth_error l q.
Proof.
  revert p q. induction l as [|h t IH]; intros [|p] [|q] H; simpl; auto.
  congruence.
Qed.

Lemma setitem_nonneg (l : list A) (k : nat) (v : A) :
  (k < length l)%nat -> setitem l (Z.of_nat k) v = Ok (update l k v).
Proof.
  intros H. unfold setitem. rewrite index_nonneg by lia.
  rewrite Nat2Z.id. reflexivity.
Qed.

End RuntimeFacts.

Section LoopFacts.

Context {S : Type}.

(** Invariant rule for a counted loop: an invariant that every turn
    re-establishes holds when the loop ends, and the loop does end. *)
Lemma for_count_invariant (P : nat -> S -> Prop) (body : Z -> S -> result S) :
  forall (count lo : nat) (s : S),
    P lo s ->
    (forall k s0, (lo <= k < lo + count)%nat -> P k s0 ->
                  exists s1, body (Z.of_nat k) s0 = Ok s1 /\ P (Datatypes.S k) s1) ->
    exists s', for_count (Z.of_nat lo) count body s = Ok s' /\ P (lo + count)%nat s'.
Proof.
  induction count as [|c IH]; intros lo s HP Hbody; simpl.
  - exists s. rewrite Nat.add_0_r. auto.
  - destruct (Hbody lo s) as [s1 [E1 P1]]; [lia | assumption |].
    rewrite E1. simpl.
    replace (Z.of_nat lo + 1)%Z with (Z.of_nat (Datatypes.S lo)) by lia.
    destruct (IH (Datatypes.S lo) s1 P1) as [s' [E' P']].
    + intros k s0 Hk. apply Hbody. lia.
    + exists s'. split; [assumption|].
      replace (lo + Datatypes.S c)%nat with (Datatypes.S lo + c)%nat by lia. assumption.
Qed.

Lemma for_range_invariant (P : nat -> S -> Prop) (body : Z -> S -> result S)
      (lo hi : nat) (s : S) :
  (lo <= hi)%nat ->
  P lo s ->
  (forall k s0, (lo <= k < hi)%nat -> P k s0 ->
                exists s1, body (Z.of_nat k) s0 = Ok s1 /\ P (Datatypes.S k) s1) ->
  exists s', for_range (Z.of_nat lo) (Z.of_nat hi) body s = Ok s' /\ P hi s'.
Proof.
  intros Hle HP Hbody. unfold for_range.
  replace (Z.to_nat (Z.of_nat hi - Z.of_nat lo)) with (hi - lo)%nat by lia.
  destruct (@for_count_invariant P body (hi - lo) lo s HP) as [s' [E P']].
  - intros k s0 Hk. apply Hbody. lia.
  - exists s'. split; [assumption|].
    replace hi with (lo + (hi - lo))%nat at 1 by lia. assumption.
Qed.

(** Two loops whose bodies agree on every index and state agree. *)
Lemma for_count_ext (body1 body2 : Z -> S -> result S) :
  (forall k s, body1 k s = body2 k s) ->
  forall count lo s, for_count lo count body1 s = for_count lo count body2 s.
Proof.
  intros H. induction count as [|c IH]; intros lo s; simpl; [reflexivity|].
  rewrite H. destruct (body2 lo s); simpl; auto.
Qed.

Lemma while_ext (cond : S -> bool) (body1 body2 : S -> result S) :
  (forall s, body1 s = body2 s) ->
  forall fuel s, while fuel cond body1 s = while fuel cond body2 s.
Proof.
  intros H. induction fuel as [|f IH]; intros s; simpl; [reflexivity|].
  destruct (cond s); [|reflexivity].
  rewrite H. destruct (body2 s); simpl; auto.
Qed.

(** Total correctness of a [while] loop: with a measure that every turn
    lowers and an invariant that every turn keeps, the loop ends within
    [measure + 1] tests, in a state where the invariant holds and the
    condition fails. *)
Lemma while_invariant (I : S -> Prop) (mu : S -> nat)
      (cond : S -> bool) (body : S -> result S) :
  (forall s, I s -> cond s = true ->
             exists s1, body s = Ok s1 /\ I s1 /\ (mu s1 < mu s)%nat) ->
  forall fuel s, I s -> (mu s < fuel)%nat ->
    exists s', while fuel cond body s = Ok s' /\ I s' /\ cond s' = false.
Proof.
  intros Hbody. induction fuel as [|f IH]; intros s HI Hmu; [lia|].
  simpl. destruct (cond s) eqn:Ec.
  - destruct (Hbody s HI Ec) as [s1 [E1 [I1 M1]]].
    rewrite E1. simpl. apply IH; [assumption | lia].
  - exists s. auto.
Qed.

(** A loop that ends within some fuel ends the same way with more. *)
Lemma while_fuel_mono (cond : S -> bool) (body : S -> result S) :
  forall fuel s s', while fuel cond body s = Ok s' ->
  forall fuel', (fuel <= fuel')%nat -> while fuel' cond body s = Ok s'.
Proof.
  induction fuel as [|f IH]; intros s s' H fuel' Hle; [discriminate|].
  destruct fuel' as [|f']; [lia|].
  simpl in *. destruct (cond s); [|assumption].
  destruct (body s) as [s1| |]; simpl in *; try discriminate.
  apply IH with (fuel' := f') in H; [assumption | lia].
Qed.

End LoopFacts.

(** ** Score tables *)

Lemma get2_cell_at (score : matrix) (a b : nat) (v : Z) :
  cell_at score a b = Some v -> get2 score (Z.of_nat a) (Z.of_nat b) = Ok v.
Proof.
  unfold cell_at, get2. intros H.
  destruct (nth_error score a) as [row|] eqn:E; [|discriminate].
  rewrite (getitem_nth_error _ _ E). simpl.
  apply getitem_nth_error. assumption.
Qed.

Lemma set2_cell_at (score : matrix) (r c a b : nat) (v : Z) :
  shape score r c -> (a < r)%nat -> (b < c)%nat ->
  exists score',
    set2 score (Z.of_nat a) (Z.of_nat b) v = Ok score' /\
    shape score' r c /\
    cell_at score' a b = Some v /\
    forall a' b', (a', b') <> (a, b) -> cell_at score' a' b' = cell_at score a' b'.
Proof.
  intros [Hr Hc] Ha Hb.
  destruct (nth_error score a) as [row|] eqn:E.
  2:{ apply nth_error_None in E. lia. }
  pose proof (Hc _ _ E) as Hrow.
  exists (update score a (update row b v)).
  unfold set2.
  rewrite (getitem_nth_error _ _ E). simpl.
  rewrite setitem_nonneg by lia. simpl.
  rewrite setitem_nonneg by lia.
  split; [reflexivity|]. split; [|split].
  - split; [rewrite length_update; assumption|].
    intros a' row' E'.
    destruct (Nat.eq_dec a a') as [->|Hne].
    + rewrite nth_error_update_same in E' by lia.
      injection E' as <-. rewrite length_update. assumption.
    + rewrite nth_error_update_other in E' by assumption. eauto.
  - unfold cell_at. rewrite nth_error_update_same by lia.
    apply nth_error_update_same. lia.
  - intros a' b' Hne. unfold cell_at.
    destruct (Nat.eq_dec a a') as [<-|Hna].
    + rewrite nth_error_update_same by lia. rewrite E.
      apply nth_error_update_other. congruence.
    + rewrite nth_error_update_other by assumption. reflexivity.
Qed.

(** * Properties of the aligners *)

(** ** The recurrence the table implements *)

Section RecurrenceFacts.

Variables seq1 seq2 : pystr.
Variables match_ mismatch gap : Z.

Abbreviation opt_r := (opt seq1 seq2 match_ mismatch gap).

Lemma opt_0_l (j : nat) : opt_r 0 j = (Z.of_nat j * gap)%Z.
Proof. reflexivity. Qed.

Lemma opt_0_r (i : nat) : opt_r i 0 = (Z.of_nat i * gap)%Z.
Proof. destruct i; reflexivity. Qed.

Lemma opt_S_S (i j : nat) :
  opt_r (S i) (S j) =
  max3 (opt_r i j + subst_score seq1 seq2 match_ mismatch i j)%Z
       (opt_r i (S j) + gap)%Z (opt_r (S i) j + gap)%Z.
Proof. reflexivity. Qed.

End RecurrenceFacts.

(** ** Filling the table *)

Section FillCorrect.

Variables seq1 seq2 : pystr.
Variables match_ mismatch gap : Z.

Let m : nat := length seq1.
Let n : nat := length seq2.

Abbreviation opt' := (opt seq1 seq2 match_ mismatch gap).
Abbreviation filled' := (filled seq1 seq2 match_ mismatch gap).

Lemma getitem_seq (l : pystr) (k : nat) :
  (k < length l)%nat -> getitem l (Z.of_nat (S k) - 1) = Ok (nth k l GAP).
Proof.
  intros H. replace (Z.of_nat (S k) - 1)%Z with (Z.of_nat k) by lia.
  apply getitem_nth_error. apply nth_error_nth'. assumption.
Qed.

Lemma pair_score_spec (i j : nat) :
  (i < m)%nat -> (j < n)%nat ->
  setup_gyrase_model.pair_score seq1 seq2 match_ mismatch
    (Z.of_nat (S i)) (Z.of_nat (S j)) = Ok (subst_score seq1 seq2 match_ mismatch i j).
Proof.
  intros Hi Hj. unfold setup_gyrase_model.pair_score.
  rewrite getitem_seq by exact Hi. cbn [bind].
  rewrite getitem_seq by exact Hj. reflexivity.
Qed.

Lemma nth_error_repeat_Some (A : Type) (v x : A) (k a : nat) :
  nth_error (repeat v k) a = Some x -> x = v.
Proof.
  intros H. apply nth_error_In in H. apply repeat_spec in H. assumption.
Qed.

Lemma zero_matrix_shape :
  shape (setup_gyrase_model.zero_matrix seq1 seq2) (S m) (S n).
Proof.
  unfold setup_gyrase_model.zero_matrix, replicate, shape.
  replace (Z.to_nat (Z.of_nat (length seq1) + 1)) with (S m) by (unfold m; lia).
  replace (Z.to_nat (Z.of_nat (length seq2) + 1)) with (S n) by (unfold n; lia).
  split; [apply repeat_length|].
  intros a row H. apply nth_error_repeat_Some in H. subst row. apply repeat_length.
Qed.

Lemma init_matrix_spec :
  exists score,
    setup_gyrase_model.init_matrix seq1 seq2 gap = Ok score /\
    filled' (fun a b => a = O \/ b = O) score.
Proof.
  unfold setup_gyrase_model.init_matrix.
  destruct (@for_range_invariant matrix
              (fun k s => shape s (S m) (S n) /\
                          forall a, (a < k)%nat -> cell_at s a 0 = Some (Z.of_nat a * gap)%Z)
              (fun i score => set2 score i 0 (i * gap)) 0 (S m)
              (setup_gyrase_model.zero_matrix seq1 seq2))
    as [s1 [E1 [Sh1 C1]]].
  - lia.
  - split; [apply zero_matrix_shape | intros; lia].
  - intros k s0 Hk [Sh C].
    destruct (@set2_cell_at s0 (S m) (S n) k 0 (Z.of_nat k * gap) Sh) as [s1 [E [Sh' [Cs Co]]]];
      [lia | lia |].
    exists s1. split; [exact E|]. split; [assumption|].
    intros a Ha. destruct (Nat.eq_dec a k) as [->|Hne]; [assumption|].
    rewrite Co by congruence. apply C. lia.
  - change (Z.of_nat 0) with 0%Z in E1.
    replace (Z.of_nat (length seq1) + 1)%Z with (Z.of_nat (S m)) by (unfold m; lia).
    rewrite E1. cbn [bind].
    destruct (@for_range_invariant matrix
                (fun k s => shape s (S m) (S n) /\
                            (forall a, (a <= m)%nat -> cell_at s a 0 = Some (Z.of_nat a * gap)%Z) /\
                            forall b, (b < k)%nat -> cell_at s 0 b = Some (Z.of_nat b * gap)%Z)
                (fun j score => set2 score 0 j (j * gap)) 0 (S n) s1)
      as [s2 [E2 [Sh2 [C2 R2]]]].
    + lia.
    + split; [assumption|]. split; [intros; apply C1; lia | intros; lia].
    + intros k s0 Hk [Sh [C R]].
      destruct (@set2_cell_at s0 (S m) (S n) 0 k (Z.of_nat k * gap) Sh) as [s3 [E [Sh' [Cs Co]]]];
        [lia | lia |].
      exists s3. split; [exact E|]. split; [assumption|]. split.
      * intros a Ha. destruct (Nat.eq_dec k 0) as [->|Hk0].
        -- destruct (Nat.eq_dec a 0) as [->|Ha0]; [assumption|].
           rewrite Co by congruence. apply C. assumption.
        -- rewrite Co by congruence. apply C. assumption.
      * intros b Hb. destruct (Nat.eq_dec b k) as [->|Hne]; [assumption|].
        rewrite Co by congruence. apply R. lia.
    + change (Z.of_nat 0) with 0%Z in E2.
      replace (Z.of_nat (length seq2) + 1)%Z with (Z.of_nat (S n)) by (unfold n; lia).
      exists s2. split; [exact E2|]. split; [assumption|].
      intros a b Ha Hb [->| ->].
      * rewrite opt_0_l. apply R2. lia.
      * rewrite opt_0_r. apply C2. assumption.
Qed.

Lemma fill_cell_spec (i j : nat) (score : matrix) :
  (i < m)%nat -> (j < n)%nat ->
  shape score (S m) (S n) ->
  cell_at score i j = Some (opt' i j) ->
  cell_at score i (S j) = Some (opt' i (S j)) ->
  cell_at score (S i) j = Some (opt' (S i) j) ->
  exists score',
    setup_gyrase_model.fill_cell seq1 seq2 match_ mismatch gap
      (Z.of_nat (S i)) (Z.of_nat (S j)) score = Ok score' /\
    shape score' (S m) (S n) /\
    cell_at score' (S i) (S j) = Some (opt' (S i) (S j)) /\
    forall a b, (a, b) <> (S i, S j) -> cell_at score' a b = cell_at score a b.
Proof.
  intros Hi Hj Sh Cd Cu Cl.
  unfold setup_gyrase_model.fill_cell.
  rewrite pair_score_spec by assumption.
  replace (Z.of_nat (S i) - 1)%Z with (Z.of_nat i) by lia.
  replace (Z.of_nat (S j) - 1)%Z with (Z.of_nat j) by lia.
  rewrite (get2_cell_at _ _ _ Cd). cbn [bind].
  rewrite (get2_cell_at _ _ _ Cu). cbn [bind].
  rewrite (get2_cell_at _ _ _ Cl). cbn [bind].
  rewrite <- opt_S_S.
  apply set2_cell_at; [assumption | lia | lia].
Qed.

Theorem score_matrix_spec :
  exists score,
    setup_gyrase_model.score_matrix seq1 seq2 match_ mismatch gap = Ok score /\
    filled' (fun _ _ => True) score.
Proof.
  unfold setup_gyrase_model.score_matrix.
  destruct init_matrix_spec as [s0 [E0 F0]].
  rewrite E0. cbn [bind].
  replace (Z.of_nat (length seq1) + 1)%Z with (Z.of_nat (S m)) by (unfold m; lia).
  replace (Z.of_nat (length seq2) + 1)%Z with (Z.of_nat (S n)) by (unfold n; lia).
  change 1%Z with (Z.of_nat 1).
  destruct (@for_range_invariant matrix
              (fun i s => filled' (fun a b => (a < i)%nat \/ b = O) s)
              (fun i score =>
                 for_range (Z.of_nat 1) (Z.of_nat (S n))
                   (fun j score =>
                      setup_gyrase_model.fill_cell seq1 seq2 match_ mismatch gap i j score)
                   score)
              1 (S m) s0) as [s1 [E1 F1]].
  - lia.
  - destruct F0 as [Sh C]. split; [assumption|].
    intros a b Ha Hb [H| ->]; apply C; auto. left. lia.
  - intros i s Hi Fi.
    destruct i as [|i]; [lia|].
    destruct (@for_range_invariant matrix
                (fun j s' => filled' (fun a b => (a < S i)%nat \/ b = O \/
                                                (a = S i /\ b < j)%nat) s')
                (fun j score =>
                   setup_gyrase_model.fill_cell seq1 seq2 match_ mismatch gap
                     (Z.of_nat (S i)) j score)
                1 (S n) s) as [s' [E' F']].
    + lia.
    + destruct Fi as [Sh C]. split; [assumption|].
      intros a b Ha Hb [H|[->|[_ H]]]; apply C; auto. right. lia.
    + intros j s' Hj [Sh C].
      destruct j as [|j]; [lia|].
      destruct (@fill_cell_spec i j s') as [s2 [E2 [Sh2 [Cs Co]]]];
        try assumption; try lia; try (apply C; lia).
      exists s2. split; [exact E2|]. split; [assumption|].
      intros a b Ha Hb HD.
      destruct (Nat.eq_dec a (S i)) as [->|Hna].
      * destruct (Nat.eq_dec b (S j)) as [->|Hnb]; [assumption|].
        rewrite Co by congruence. apply C; lia.
      * rewrite Co by congruence. apply C; lia.
    + exists s'. split; [exact E'|].
      destruct F' as [Sh C]. split; [assumption|].
      intros a b Ha Hb HD. apply C; try assumption.
      destruct HD as [H| ->]; [|auto].
      destruct (Nat.eq_dec a (S i)); [right; right; lia | left; lia].
  - exists s1. split; [exact E1|].
    destruct F1 as [Sh C]. split; [assumption|].
    intros a b Ha Hb _. apply C; try assumption. left. lia.
Qed.

End FillCorrect.

(** ** The traceback *)

Lemma consumed1_app (c1 c2 : list column) :
  consumed1 (c1 ++ c2) = consumed1 c1 ++ consumed1 c2.
Proof. apply flat_map_app. Qed.

Lemma consumed2_app (c1 c2 : list column) :
  consumed2 (c1 ++ c2) = consumed2 c1 ++ consumed2 c2.
Proof. apply flat_map_app. Qed.

Lemma consumed1_rev (cols : list column) :
  consumed1 (rev cols) = rev (consumed1 cols).
Proof.
  induction cols as [|c cols IH]; [reflexivity|].
  simpl rev. rewrite consumed1_app, IH.
  change (consumed1 (c :: cols)) with (consumed1 [c] ++ consumed1 cols).
  rewrite rev_app_distr. f_equal.
  destruct c; reflexivity.
Qed.

Lemma consumed2_rev (cols : list column) :
  consumed2 (rev cols) = rev (consumed2 cols).
Proof.
  induction cols as [|c cols IH]; [reflexivity|].
  simpl rev. rewrite consumed2_app, IH.
  change (consumed2 (c :: cols)) with (consumed2 [c] ++ consumed2 cols).
  rewrite rev_app_distr. f_equal.
  destruct c; reflexivity.
Qed.

Lemma columns_score_app (ma mi g : Z) (c1 c2 : list column) :
  columns_score ma mi g (c1 ++ c2) =
  (columns_score ma mi g c1 + columns_score ma mi g c2)%Z.
Proof.
  induction c1 as [|c c1 IH]; simpl; [reflexivity|].
  rewrite IH. lia.
Qed.

Lemma columns_score_rev (ma mi g : Z) (cols : list column) :
  columns_score ma mi g (rev cols) = columns_score ma mi g cols.
Proof.
  induction cols as [|c cols IH]; [reflexivity|].
  simpl rev. rewrite columns_score_app, IH. simpl. lia.
Qed.

Lemma skipn_nth_cons (A : Type) (l : list A) (k : nat) (d : A) :
  (k < length l)%nat -> skipn k l = nth k l d :: skipn (S k) l.
Proof.
  revert k. induction l as [|h t IH]; intros [|k] H; simpl in *; try lia.
  - reflexivity.
  - apply IH. lia.
Qed.

Section TracebackCorrect.

Variables seq1 seq2 : pystr.
Variables match_ mismatch gap : Z.
Variable score : matrix.

Let m : nat := length seq1.
Let n : nat := length seq2.

Abbreviation opt_ := (opt seq1 seq2 match_ mismatch gap).
Abbreviation sub_ := (subst_score seq1 seq2 match_ mismatch).
Abbreviation tb_inv_ := (tb_inv seq1 seq2 match_ mismatch gap).
Abbreviation step_ := (setup_gyrase_model.tb_step seq1 seq2 match_ mismatch gap score).

Hypothesis Hfilled : filled seq1 seq2 match_ mismatch gap (fun _ _ => True) score.

Lemma filled_get2 (a b : nat) :
  (a <= m)%nat -> (b <= n)%nat ->
  get2 score (Z.of_nat a) (Z.of_nat b) = Ok (opt_ a b).
Proof.
  intros Ha Hb. apply get2_cell_at. apply Hfilled; auto.
Qed.

(** The loop body at a cell off both edges: the diagonal move when it
    reproduces the entry, else the move up when that one does, else the
    move left. *)
Lemma tb_step_inner (a b : nat) (aligned1 aligned2 : list ascii) :
  (a < m)%nat -> (b < n)%nat ->
  step_ (Z.of_nat (S a), Z.of_nat (S b), aligned1, aligned2) =
  Ok (if (opt_ (S a) (S b) =? opt_ a b + sub_ a b)%Z
      then (Z.of_nat a, Z.of_nat b,
            aligned1 ++ [nth a seq1 GAP], aligned2 ++ [nth b seq2 GAP])
      else if (opt_ (S a) (S b) =? opt_ a (S b) + gap)%Z
      then (Z.of_nat a, Z.of_nat (S b), aligned1 ++ [nth a seq1 GAP], aligned2 ++ [GAP])
      else (Z.of_nat (S a), Z.of_nat b, aligned1 ++ [GAP], aligned2 ++ [nth b seq2 GAP])).
Proof.
  intros Ha Hb.
  unfold setup_gyrase_model.tb_step, setup_gyrase_model.tb_up_or_left.
  replace (0 <? Z.of_nat (S a))%Z with true by (symmetry; apply Z.ltb_lt; lia).
  replace (0 <? Z.of_nat (S b))%Z with true by (symmetry; apply Z.ltb_lt; lia).
  cbn [andb].
  rewrite pair_score_spec by assumption.
  rewrite !getitem_seq by assumption.
  replace (Z.of_nat (S a) - 1)%Z with (Z.of_nat a) by lia.
  replace (Z.of_nat (S b) - 1)%Z with (Z.of_nat b) by lia.
  rewrite !filled_get2 by (unfold m, n in *; lia).
  cbn [bind].
  destruct (opt_ (S a) (S b) =? opt_ a b + sub_ a b)%Z; [reflexivity|].
  destruct (opt_ (S a) (S b) =? opt_ a (S b) + gap)%Z; reflexivity.
Qed.

(** The loop body in column 0: the move up. *)
Lemma tb_step_left_edge (a : nat) (aligned1 aligned2 : list ascii) :
  (a < m)%nat ->
  step_ (Z.of_nat (S a), 0%Z, aligned1, aligned2) =
  Ok (Z.of_nat a, 0%Z, aligned1 ++ [nth a seq1 GAP], aligned2 ++ [GAP]).
Proof.
  intros Ha.
  unfold setup_gyrase_model.tb_step, setup_gyrase_model.tb_up_or_left.
  replace (0 <? Z.of_nat (S a))%Z with true by (symmetry; apply Z.ltb_lt; lia).
  change (0 <? 0)%Z with false. cbn [andb].
  rewrite !getitem_seq by assumption.
  replace (Z.of_nat (S a) - 1)%Z with (Z.of_nat a) by lia.
  change 0%Z with (Z.of_nat 0) at 1 2.
  rewrite !filled_get2 by (unfold m, n in *; lia).
  cbn [bind]. rewrite !opt_0_r.
  replace (Z.of_nat (S a) * gap =? Z.of_nat a * gap + gap)%Z with true
    by (symmetry; apply Z.eqb_eq; lia).
  reflexivity.
Qed.

(** The loop body in row 0: the move left. *)
Lemma tb_step_top_edge (b : nat) (aligned1 aligned2 : list ascii) :
  (b < n)%nat ->
  step_ (0%Z, Z.of_nat (S b), aligned1, aligned2) =
  Ok (0%Z, Z.of_nat b, aligned1 ++ [GAP], aligned2 ++ [nth b seq2 GAP]).
Proof.
  intros Hb.
  unfold setup_gyrase_model.tb_step, setup_gyrase_model.tb_up_or_left.
  change (0 <? 0)%Z with false. cbn [andb bind].
  rewrite !getitem_seq by assumption.
  replace (Z.of_nat (S b) - 1)%Z with (Z.of_nat b) by lia.
  reflexivity.
Qed.

Lemma tb_inv_extend (i j i' j' : nat) (cols : list column) (c : column) :
  (i' <= m)%nat -> (j' <= n)%nat ->
  rev (consumed1 cols) = skipn i seq1 ->
  rev (consumed2 cols) = skipn j seq2 ->
  (columns_score match_ mismatch gap cols + opt_ i j = opt_ m n)%Z ->
  skipn i' seq1 = rev (consumed1 [c]) ++ skipn i seq1 ->
  skipn j' seq2 = rev (consumed2 [c]) ++ skipn j seq2 ->
  (opt_ i j = opt_ i' j' + column_score match_ mismatch gap c)%Z ->
  tb_inv_ (Z.of_nat i', Z.of_nat j', map top cols ++ [top c], map bottom cols ++ [bottom c]).
Proof.
  intros Hi Hj H1 H2 Hs K1 K2 Ks.
  exists i', j', (cols ++ [c]).
  rewrite !map_app. split; [reflexivity|].
  split; [assumption|]. split; [assumption|].
  rewrite consumed1_app, consumed2_app, !rev_app_distr, H1, H2, columns_score_app.
  split; [symmetry; assumption|]. split; [symmetry; assumption|].
  unfold m, n in *. simpl. lia.
Qed.

Lemma tb_step_invariant (st : setup_gyrase_model.tb_state) :
  tb_inv_ st -> setup_gyrase_model.tb_cond st = true ->
  exists st1, step_ st = Ok st1 /\ tb_inv_ st1 /\ (tb_measure st1 < tb_measure st)%nat.
Proof.
  intros [i [j [cols [-> [Hi [Hj [H1 [H2 Hs]]]]]]]] Hc.
  destruct i as [|a], j as [|b].
  - discriminate Hc.
  - rewrite tb_step_top_edge by (unfold n in *; lia).
    eexists. split; [reflexivity|]. split.
    + apply (@tb_inv_extend 0 (S b) 0 b cols (Ins (nth b seq2 GAP))); auto; try lia.
      * simpl rev. simpl app. apply skipn_nth_cons. unfold n in *; lia.
      * rewrite !opt_0_l. simpl column_score. lia.
    + simpl. lia.
  - rewrite tb_step_left_edge by (unfold m in *; lia).
    eexists. split; [reflexivity|]. split.
    + apply (@tb_inv_extend (S a) 0 a 0 cols (Del (nth a seq1 GAP))); auto; try lia.
      * simpl rev. simpl app. apply skipn_nth_cons. unfold m in *; lia.
      * rewrite !opt_0_r. simpl column_score. lia.
    + simpl. lia.
  - rewrite tb_step_inner by (unfold m, n in *; lia).
    eexists. split; [reflexivity|].
    pose proof (opt_S_S seq1 seq2 match_ mismatch gap a b) as Hmax.
    assert (K1 : skipn a seq1 = nth a seq1 GAP :: skipn (S a) seq1)
      by (apply skipn_nth_cons; unfold m in *; lia).
    assert (K2 : skipn b seq2 = nth b seq2 GAP :: skipn (S b) seq2)
      by (apply skipn_nth_cons; unfold n in *; lia).
    destruct (Z.eqb_spec (opt_ (S a) (S b)) (opt_ a b + sub_ a b)) as [Ed|Nd].
    + split; [|simpl; lia].
      apply (@tb_inv_extend (S a) (S b) a b cols (Pair (nth a seq1 GAP) (nth b seq2 GAP)));
        auto; try lia.
    + destruct (Z.eqb_spec (opt_ (S a) (S b)) (opt_ a (S b) + gap)) as [Eu|Nu].
      * split; [|simpl; lia].
        apply (@tb_inv_extend (S a) (S b) a (S b) cols (Del (nth a seq1 GAP)));
          auto; try lia.
      * split; [|simpl; lia].
        apply (@tb_inv_extend (S a) (S b) (S a) b cols (Ins (nth b seq2 GAP)));
          auto; try lia.
        simpl column_score. unfold max3 in Hmax. lia.
Qed.

(** The traceback ends, at [(0, 0)], with the columns of an alignment of
    the two sequences whose score is the entry at [(m, n)]. *)
Lemma traceback_spec (fuel : nat) :
  (m + n < fuel)%nat ->
  exists cols,
    setup_gyrase_model.traceback seq1 seq2 match_ mismatch gap fuel score =
      Ok (0%Z, 0%Z, map top cols, map bottom cols) /\
    rev (consumed1 cols) = seq1 /\
    rev (consumed2 cols) = seq2 /\
    columns_score match_ mismatch gap cols = opt_ m n.
Proof.
  intros Hfuel. unfold setup_gyrase_model.traceback.
  destruct (@while_invariant _ tb_inv_ tb_measure setup_gyrase_model.tb_cond step_
              tb_step_invariant fuel
              (Z.of_nat (length seq1), Z.of_nat (length seq2), [], []))
    as [st [E [[i [j [cols [-> [Hi [Hj [H1 [H2 Hs]]]]]]]] Hc]]].
  - exists m, n, []. split; [reflexivity|].
    split; [unfold m; lia|]. split; [unfold n; lia|].
    unfold m, n. rewrite !skipn_all. simpl. auto.
  - simpl. unfold m, n in Hfuel. lia.
  - simpl in Hc. apply orb_false_iff in Hc. destruct Hc as [Hi0 Hj0].
    apply Z.ltb_ge in Hi0, Hj0.
    assert (i = O) by lia. assert (j = O) by lia. subst i j.
    exists cols. split; [exact E|]. simpl in H1, H2.
    split; [assumption|]. split; [assumption|].
    unfold m, n in *. simpl in Hs. lia.
Qed.

End TracebackCorrect.

(** ** The traceback follows the tie-break rule *)

Lemma rule_path_ext (seq1 seq2 : pystr) (match_ mismatch gap : Z)
      (v1 v2 : nat -> nat -> Z) (i : nat) :
  forall j,
    (forall a b, (a <= i)%nat -> (b <= j)%nat -> v1 a b = v2 a b) ->
    rule_path seq1 seq2 match_ mismatch gap v1 i j =
    rule_path seq1 seq2 match_ mismatch gap v2 i j.
Proof.
  induction i as [|i IHi]; intros j H.
  - reflexivity.
  - induction j as [|j IHj].
    + cbn [rule_path]. f_equal. apply IHi. intros a b Ha Hb. apply H; lia.
    + change (rule_path seq1 seq2 match_ mismatch gap v1 (S i) (S j))
        with (if (v1 (S i) (S j) =?
                  v1 i j + subst_score seq1 seq2 match_ mismatch i j)%Z
              then Pair (nth i seq1 GAP) (nth j seq2 GAP)
                   :: rule_path seq1 seq2 match_ mismatch gap v1 i j
              else if (v1 (S i) (S j) =? v1 i (S j) + gap)%Z
                   then Del (nth i seq1 GAP)
                        :: rule_path seq1 seq2 match_ mismatch gap v1 i (S j)
                   else Ins (nth j seq2 GAP)
                        :: rule_path seq1 seq2 match_ mismatch gap v1 (S i) j).
      change (rule_path seq1 seq2 match_ mismatch gap v2 (S i) (S j))
        with (if (v2 (S i) (S j) =?
                  v2 i j + subst_score seq1 seq2 match_ mismatch i j)%Z
              then Pair (nth i seq1 GAP) (nth j seq2 GAP)
                   :: rule_path seq1 seq2 match_ mismatch gap v2 i j
              else if (v2 (S i) (S j) =? v2 i (S j) + gap)%Z
                   then Del (nth i seq1 GAP)
                        :: rule_path seq1 seq2 match_ mismatch gap v2 i (S j)
                   else Ins (nth j seq2 GAP)
                        :: rule_path seq1 seq2 match_ mismatch gap v2 (S i) j).
      rewrite !(H (S i) (S j)), !(H i j), !(H i (S j)) by lia.
      rewrite (IHi j) by (intros a b Ha Hb; apply H; lia).
      rewrite (IHi (S j)) by (intros a b Ha Hb; apply H; lia).
      rewrite IHj by (intros a b Ha Hb; apply H; lia).
      reflexivity.
Qed.

Section RuleCorrect.

Variables seq1 seq2 : pystr.
Variables match_ mismatch gap : Z.
Variable score : matrix.

Let m : nat := length seq1.
Let n : nat := length seq2.

Abbreviation ropt_ := (opt seq1 seq2 match_ mismatch gap).
Abbreviation rpath_ := (rule_path seq1 seq2 match_ mismatch gap ropt_).
Abbreviation rstep_ := (setup_gyrase_model.tb_step seq1 seq2 match_ mismatch gap score).

Hypothesis Hfilled : filled seq1 seq2 match_ mismatch gap (fun _ _ => True) score.

Lemma entry_filled (a b : nat) :
  (a <= m)%nat -> (b <= n)%nat -> entry score a b = ropt_ a b.
Proof.
  intros Ha Hb. unfold entry.
  destruct Hfilled as [_ H]. rewrite (H a b Ha Hb I). reflexivity.
Qed.

(** From any cell, with fuel for the moves that are left, the loop ends
    at [(0, 0)] having added the rows of the rule's path from that
    cell. *)
Lemma traceback_from_cell (fuel : nat) :
  forall (i j : nat) (aligned1 aligned2 : list ascii),
    (i <= m)%nat -> (j <= n)%nat -> (i + j < fuel)%nat ->
    while fuel setup_gyrase_model.tb_cond rstep_
          (Z.of_nat i, Z.of_nat j, aligned1, aligned2) =
    Ok (0%Z, 0%Z, aligned1 ++ map top (rpath_ i j),
        aligned2 ++ map bottom (rpath_ i j)).
Proof.
  induction fuel as [|fuel IH]; intros i j aligned1 aligned2 Hi Hj Hf; [lia|].
  cbn [while]. destruct i as [|a], j as [|b].
  - cbn [rule_path map]. rewrite !app_nil_r. reflexivity.
  - replace (setup_gyrase_model.tb_cond (Z.of_nat 0, Z.of_nat (S b), aligned1, aligned2))
      with true by (symmetry; cbn [setup_gyrase_model.tb_cond];
                    apply orb_true_iff; right; apply Z.ltb_lt; lia).
    change (Z.of_nat 0) with 0%Z.
    rewrite (tb_step_top_edge seq1 seq2 match_ mismatch gap score) by (unfold n in *; lia). cbn [bind].
    change 0%Z with (Z.of_nat 0) at 1.
    rewrite IH by lia.
    change (rpath_ 0 (S b)) with (Ins (nth b seq2 GAP) :: rpath_ 0 b).
    cbn [map top bottom]. rewrite <- !app_assoc. reflexivity.
  - replace (setup_gyrase_model.tb_cond (Z.of_nat (S a), Z.of_nat 0, aligned1, aligned2))
      with true by (symmetry; cbn [setup_gyrase_model.tb_cond];
                    apply orb_true_iff; left; apply Z.ltb_lt; lia).
    change (Z.of_nat 0) with 0%Z.
    rewrite (@tb_step_left_edge _ _ _ _ _ _ Hfilled) by (unfold m in *; lia). cbn [bind].
    change 0%Z with (Z.of_nat 0) at 1.
    rewrite IH by lia.
    change (rpath_ (S a) 0) with (Del (nth a seq1 GAP) :: rpath_ a 0).
    cbn [map top bottom]. rewrite <- !app_assoc. reflexivity.
  - replace (setup_gyrase_model.tb_cond
               (Z.of_nat (S a), Z.of_nat (S b), aligned1, aligned2))
      with true by (symmetry; cbn [setup_gyrase_model.tb_cond];
                    apply orb_true_iff; left; apply Z.ltb_lt; lia).
    rewrite (@tb_step_inner _ _ _ _ _ _ Hfilled) by (unfold m, n in *; lia). cbn [bind].
    change (rpath_ (S a) (S b))
      with (if (ropt_ (S a) (S b) =?
                ropt_ a b + subst_score seq1 seq2 match_ mismatch a b)%Z
            then Pair (nth a seq1 GAP) (nth b seq2 GAP) :: rpath_ a b
            else if (ropt_ (S a) (S b) =? ropt_ a (S b) + gap)%Z
                 then Del (nth a seq1 GAP) :: rpath_ a (S b)
                 else Ins (nth b seq2 GAP) :: rpath_ (S a) b).
    destruct (ropt_ (S a) (S b) =?
              ropt_ a b + subst_score seq1 seq2 match_ mismatch a b)%Z.
    + rewrite IH by lia. cbn [map top bottom]. rewrite <- !app_assoc. reflexivity.
    + destruct (ropt_ (S a) (S b) =? ropt_ a (S b) + gap)%Z.
      * rewrite IH by lia. cbn [map top bottom]. rewrite <- !app_assoc.
        reflexivity.
      * rewrite IH by lia. cbn [map top bottom]. rewrite <- !app_assoc.
        reflexivity.
Qed.

End RuleCorrect.

(** With fuel for every move the aligner returns the rows of the rule's
    path on the table it filled. *)
Lemma needleman_wunsch_fuel_rule
      (seq1 seq2 : pystr) (match_ mismatch gap : Z) (fuel : nat) :
  (length seq1 + length seq2 < fuel)%nat ->
  exists score,
    setup_gyrase_model.score_matrix seq1 seq2 match_ mismatch gap = Ok score /\
    setup_gyrase_model.needleman_wunsch_fuel seq1 seq2 match_ mismatch gap fuel =
      Ok (rule_rows seq1 seq2 match_ mismatch gap score).
Proof.
  intros Hfuel.
  destruct (score_matrix_spec seq1 seq2 match_ mismatch gap) as [score [Es Hf]].
  exists score. split; [exact Es|].
  unfold setup_gyrase_model.needleman_wunsch_fuel, setup_gyrase_model.traceback.
  rewrite Es. cbn [bind].
  rewrite (traceback_from_cell Hf) by lia. cbn [bind app].
  unfold rule_rows. cbv zeta. rewrite !map_rev.
  rewrite (@rule_path_ext seq1 seq2 match_ mismatch gap (entry score)
             (opt seq1 seq2 match_ mismatch gap))
    by (intros a b Ha Hb; apply (entry_filled Hf); assumption).
  reflexivity.
Qed.

(** ** What [needleman_wunsch] returns *)

(** The aligner returns, whatever the sequences and the scores, the two
    rows of a list of columns that uses up both sequences and whose score
    is the last entry of the table it filled. *)
Lemma needleman_wunsch_fuel_columns
      (seq1 seq2 : pystr) (match_ mismatch gap : Z) (fuel : nat) :
  (length seq1 + length seq2 < fuel)%nat ->
  exists score cols,
    setup_gyrase_model.score_matrix seq1 seq2 match_ mismatch gap = Ok score /\
    get2 score (Z.of_nat (length seq1)) (Z.of_nat (length seq2)) =
      Ok (columns_score match_ mismatch gap cols) /\
    setup_gyrase_model.needleman_wunsch_fuel seq1 seq2 match_ mismatch gap fuel =
      Ok (map top cols, map bottom cols) /\
    consumed1 cols = seq1 /\
    consumed2 cols = seq2.
Proof.
  intros Hfuel.
  destruct (score_matrix_spec seq1 seq2 match_ mismatch gap) as [score [Es Hf]].
  destruct (traceback_spec Hf Hfuel) as [cols [Et [H1 [H2 Hs]]]].
  exists score, (rev cols).
  split; [exact Es|]. split; [|split; [|split]].
  - rewrite columns_score_rev, Hs. apply get2_cell_at. apply Hf; auto.
  - unfold setup_gyrase_model.needleman_wunsch_fuel.
    rewrite Es. cbn [bind]. rewrite Et. cbn [bind].
    rewrite !map_rev. reflexivity.
  - rewrite consumed1_rev. assumption.
  - rewrite consumed2_rev. assumption.
Qed.

Lemma needleman_wunsch_columns (seq1 seq2 : pystr) (match_ mismatch gap : Z) :
  exists score cols,
    setup_gyrase_model.score_matrix seq1 seq2 match_ mismatch gap = Ok score /\
    get2 score (Z.of_nat (length seq1)) (Z.of_nat (length seq2)) =
      Ok (columns_score match_ mismatch gap cols) /\
    setup_gyrase_model.needleman_wunsch seq1 seq2 match_ mismatch gap =
      Ok (map top cols, map bottom cols) /\
    consumed1 cols = seq1 /\
    consumed2 cols = seq2.
Proof.
  apply needleman_wunsch_fuel_columns. lia.
Qed.

(** More fuel than the loop needs changes nothing. *)
Lemma needleman_wunsch_fuel_enough
      (seq1 seq2 : pystr) (match_ mismatch gap : Z) (fuel : nat) :
  (length seq1 + length seq2 < fuel)%nat ->
  setup_gyrase_model.needleman_wunsch_fuel seq1 seq2 match_ mismatch gap fuel =
  setup_gyrase_model.needleman_wunsch seq1 seq2 match_ mismatch gap.
Proof.
  intros Hfuel.
  destruct (score_matrix_spec seq1 seq2 match_ mismatch gap) as [score [Es Hf]].
  unfold setup_gyrase_model.needleman_wunsch, setup_gyrase_model.needleman_wunsch_fuel.
  rewrite Es. cbn [bind].
  destruct (@traceback_spec seq1 seq2 match_ mismatch gap score Hf
              (S (length seq1 + length seq2))) as [c2 [E2 _]]; [lia|].
  unfold setup_gyrase_model.traceback in *.
  rewrite (while_fuel_mono _ _ _ E2) by lia.
  rewrite E2. reflexivity.
Qed.

(** Rows of a list of columns. *)

Lemma remove_gaps_top (cols : list column) :
  remove_gaps (map top cols) = remove_gaps (consumed1 cols).
Proof.
  induction cols as [|c cols IH]; [reflexivity|].
  destruct c as [a b|a|b]; simpl; rewrite ?IH; try reflexivity.
Qed.

Lemma remove_gaps_bottom (cols : list column) :
  remove_gaps (map bottom cols) = remove_gaps (consumed2 cols).
Proof.
  induction cols as [|c cols IH]; [reflexivity|].
  destruct c as [a b|a|b]; simpl; rewrite ?IH; try reflexivity.
Qed.

Lemma remove_gaps_gap_free (s : pystr) : gap_free s -> remove_gaps s = s.
Proof.
  induction 1 as [|c s Hc Hs IH]; [reflexivity|].
  simpl. destruct (Ascii.eqb_spec c GAP) as [E|_]; [contradiction|].
  simpl. rewrite IH. reflexivity.
Qed.

Lemma top_bottom_of_ins (cols : list column) :
  consumed1 cols = [] ->
  map top cols = repeat GAP (length (consumed2 cols)) /\
  map bottom cols = consumed2 cols.
Proof.
  induction cols as [|c cols IH]; intros H; [split; reflexivity|].
  destruct c as [a b|a|b]; simpl in H; try discriminate.
  destruct (IH H) as [IH1 IH2]. simpl. rewrite IH1, IH2. split; reflexivity.
Qed.

Lemma top_bottom_of_del (cols : list column) :
  consumed2 cols = [] ->
  map top cols = consumed1 cols /\
  map bottom cols = repeat GAP (length (consumed1 cols)).
Proof.
  induction cols as [|c cols IH]; intros H; [split; reflexivity|].
  destruct c as [a b|a|b]; simpl in H; try discriminate.
  destruct (IH H) as [IH1 IH2]. simpl. rewrite IH1, IH2. split; reflexivity.
Qed.

Lemma rescore_columns (ma mi g : Z) (cols : list column) :
  gap_free (consumed1 cols) -> gap_free (consumed2 cols) ->
  rescore ma mi g (map top cols) (map bottom cols) = columns_score ma mi g cols.
Proof.
  unfold rescore, gap_free.
  induction cols as [|c cols IH]; intros H1 H2; [reflexivity|].
  destruct c as [a b|a|b]; simpl in *.
  - inversion H1; inversion H2; subst. rewrite IH by assumption.
    unfold rescore_column.
    destruct (Ascii.eqb_spec a GAP); [contradiction|].
    destruct (Ascii.eqb_spec b GAP); [contradiction|].
    reflexivity.
  - inversion H1; subst. rewrite IH by assumption.
    unfold rescore_column. rewrite Ascii.eqb_refl, orb_true_r. reflexivity.
  - inversion H2; subst. rewrite IH by assumption.
    unfold rescore_column. rewrite Ascii.eqb_refl. reflexivity.
Qed.

(** ** [simple_align] is [needleman_wunsch] at its own three scores *)

Lemma simple_fill_cell_eq (seq1 seq2 : pystr) (i j : Z) (score : matrix) :
  generate_alignment.fill_cell seq1 seq2 i j score =
  setup_gyrase_model.fill_cell seq1 seq2 2 (-1) (-2) i j score.
Proof.
  unfold generate_alignment.fill_cell, setup_gyrase_model.fill_cell,
    setup_gyrase_model.pair_score.
  destruct (get2 score (i - 1) (j - 1)); cbn [bind]; try reflexivity.
  destruct (getitem seq1 (i - 1)); cbn [bind]; try reflexivity.
  destruct (getitem seq2 (j - 1)); cbn [bind]; reflexivity.
Qed.

Lemma simple_score_matrix_eq (seq1 seq2 : pystr) :
  generate_alignment.score_matrix seq1 seq2 =
  setup_gyrase_model.score_matrix seq1 seq2 2 (-1) (-2).
Proof.
  unfold generate_alignment.score_matrix, setup_gyrase_model.score_matrix.
  change (generate_alignment.init_matrix seq1 seq2)
    with (setup_gyrase_model.init_matrix seq1 seq2 (-2)).
  destruct (setup_gyrase_model.init_matrix seq1 seq2 (-2)); cbn [bind]; try reflexivity.
  unfold for_range. apply for_count_ext. intros i sc.
  apply for_count_ext. intros j sc'. apply simple_fill_cell_eq.
Qed.

Lemma simple_tb_step_eq (seq1 seq2 : pystr) (score : matrix)
      (st : setup_gyrase_model.tb_state) :
  generate_alignment.tb_step seq1 seq2 score st =
  setup_gyrase_model.tb_step seq1 seq2 2 (-1) (-2) score st.
Proof.
  destruct st as [[[i j] a1] a2].
  unfold generate_alignment.tb_step, setup_gyrase_model.tb_step,
    setup_gyrase_model.pair_score.
  change (generate_alignment.tb_up_or_left seq1 seq2 score (i, j, a1, a2))
    with (setup_gyrase_model.tb_up_or_left seq1 seq2 (-2) score (i, j, a1, a2)).
  destruct ((0 <? i)%Z && (0 <? j)%Z); [|reflexivity].
  destruct (get2 score i j); cbn [bind]; try reflexivity.
  destruct (get2 score (i - 1) (j - 1)); cbn [bind]; try reflexivity.
  destruct (getitem seq1 (i - 1)) as [x| |]; cbn [bind]; try reflexivity.
  destruct (getitem seq2 (j - 1)) as [y| |]; cbn [bind]; try reflexivity.
  unfold generate_alignment.match_score, generate_alignment.mismatch_score.
  destruct (Ascii.eqb x y); reflexivity.
Qed.

Lemma simple_align_eq (seq1 seq2 : pystr) :
  generate_alignment.simple_align seq1 seq2 =
  setup_gyrase_model.needleman_wunsch seq1 seq2 2 (-1) (-2).
Proof.
  unfold generate_alignment.simple_align, generate_alignment.simple_align_fuel,
    setup_gyrase_model.needleman_wunsch, setup_gyrase_model.needleman_wunsch_fuel.
  rewrite simple_score_matrix_eq.
  destruct (setup_gyrase_model.score_matrix seq1 seq2 2 (-1) (-2)) as [score| |];
    cbn [bind]; try reflexivity.
  unfold generate_alignment.traceback, setup_gyrase_model.traceback.
  rewrite (while_ext setup_gyrase_model.tb_cond
             (generate_alignment.tb_step seq1 seq2 score)
             (setup_gyrase_model.tb_step seq1 seq2 2 (-1) (-2) score)
             (simple_tb_step_eq seq1 seq2 score)).
  reflexivity.
Qed.

(** ** Round trip, score, tie-break and empty inputs *)

(** C1, as amended: [needleman_wunsch] and [simple_align] always return two
    aligned strings of equal length, and deleting every gap symbol from an
    aligned string gives back the input sequence, exactly and in order,
    whenever that input holds no gap symbol itself (in general it gives
    the input with its own gap symbols deleted). *)
Theorem align_round_trip (seq1 seq2 : pystr) (match_ mismatch gap : Z) :
  round_trip seq1 seq2
    (setup_gyrase_model.needleman_wunsch seq1 seq2 match_ mismatch gap) /\
  round_trip seq1 seq2 (generate_alignment.simple_align seq1 seq2).
Proof.
  assert (H : forall ma mi g,
             round_trip seq1 seq2 (setup_gyrase_model.needleman_wunsch seq1 seq2 ma mi g)).
  { intros ma mi g.
    destruct (needleman_wunsch_columns seq1 seq2 ma mi g)
      as [score [cols [_ [_ [E [H1 H2]]]]]].
    exists (map top cols), (map bottom cols).
    split; [exact E|].
    split; [rewrite !length_map; reflexivity|].
    rewrite remove_gaps_top, remove_gaps_bottom, H1, H2.
    repeat split; auto using remove_gaps_gap_free. }
  split; [apply H | rewrite simple_align_eq; apply H].
Qed.

(** C1 as stated fails on a sequence that holds the gap symbol: aligning
    ["A-"] with ["A"] returns ["A-"] twice, and deleting the gaps from the
    first leaves ["A"], not the input ["A-"]. *)
Lemma align_round_trip_gap_input :
  setup_gyrase_model.needleman_wunsch (str "A-") (str "A") 2 (-1) (-2) =
    Ok (str "A-", str "A-") /\
  generate_alignment.simple_align (str "A-") (str "A") = Ok (str "A-", str "A-") /\
  remove_gaps (str "A-") = str "A" /\
  str "A" <> str "A-".
Proof.
  repeat split; try (vm_compute; reflexivity). discriminate.
Qed.

(** C2, as amended: for sequences that hold no gap symbol and any three
    integer scores, re-scoring the returned alignment column by column
    gives the entry [score[m][n]] of the table the aligner filled. *)
Theorem align_score_is_table_entry
        (seq1 seq2 : pystr) (match_ mismatch gap : Z) :
  gap_free seq1 -> gap_free seq2 ->
  exists score aligned1 aligned2,
    setup_gyrase_model.score_matrix seq1 seq2 match_ mismatch gap = Ok score /\
    setup_gyrase_model.needleman_wunsch seq1 seq2 match_ mismatch gap =
      Ok (aligned1, aligned2) /\
    get2 score (Z.of_nat (length seq1)) (Z.of_nat (length seq2)) =
      Ok (rescore match_ mismatch gap aligned1 aligned2).
Proof.
  intros G1 G2.
  destruct (needleman_wunsch_columns seq1 seq2 match_ mismatch gap)
    as [score [cols [Es [Eg [E [H1 H2]]]]]].
  exists score, (map top cols), (map bottom cols).
  split; [exact Es|]. split; [exact E|].
  rewrite rescore_columns by (rewrite ?H1, ?H2; assumption).
  exact Eg.
Qed.

Lemma gap_free_ACGT : gap_free (str "ACGT").
Proof. repeat constructor; discriminate. Qed.

Lemma gap_free_AGT : gap_free (str "AGT").
Proof. repeat constructor; discriminate. Qed.

Lemma align_score_is_table_entry_witness :
  gap_free (str "ACGT") /\ gap_free (str "AGT") /\
  exists score aligned1 aligned2,
    setup_gyrase_model.score_matrix (str "ACGT") (str "AGT") 2 (-1) (-2) = Ok score /\
    setup_gyrase_model.needleman_wunsch (str "ACGT") (str "AGT") 2 (-1) (-2) =
      Ok (aligned1, aligned2) /\
    get2 score 4 3 = Ok (rescore 2 (-1) (-2) aligned1 aligned2).
Proof.
  split; [exact gap_free_ACGT|]. split; [exact gap_free_AGT|].
  exact (align_score_is_table_entry 2 (-1) (-2) gap_free_ACGT gap_free_AGT).
Defined.

(** C2 as stated fails on a sequence that holds the gap symbol: for ["-"]
    and ["A"] the table ends in [-1] (one mismatch), the alignment is the
    single column ['-'] over ['A'], and re-scoring it as a gap column gives
    [-2]. *)
Lemma align_score_gap_input :
  setup_gyrase_model.score_matrix (str "-") (str "A") 2 (-1) (-2) =
    Ok [[0; -2]; [-2; -1]]%Z /\
  get2 [[0; -2]; [-2; -1]]%Z 1 1 = Ok (-1)%Z /\
  setup_gyrase_model.needleman_wunsch (str "-") (str "A") 2 (-1) (-2) =
    Ok (str "-", str "A") /\
  rescore 2 (-1) (-2) (str "-") (str "A") = (-2)%Z.
Proof.
  repeat split; vm_compute; reflexivity.
Qed.

(** C3: the strings [needleman_wunsch] returns are the rows of the path
    the tie-break rule determines on the table the aligner filled, from
    [(m, n)] back to [(0, 0)]: at a cell with [i > 0] and [j > 0] the
    diagonal move whenever the entry equals the recomputed diagonal
    candidate; otherwise the move up, a symbol of the first sequence
    over a gap, whenever that reproduces the entry, in preference to the
    move left.  [simple_align] returns the rows of that path for its own
    three scores on its own table.  The aligner is a function of its
    arguments: the same pair comes back whatever fuel above
    [len(seq1) + len(seq2)] its loop is given. *)
Theorem traceback_tie_break (seq1 seq2 : pystr) (match_ mismatch gap : Z) :
  (exists score,
     setup_gyrase_model.score_matrix seq1 seq2 match_ mismatch gap = Ok score /\
     setup_gyrase_model.needleman_wunsch seq1 seq2 match_ mismatch gap =
       Ok (rule_rows seq1 seq2 match_ mismatch gap score) /\
     forall fuel, (length seq1 + length seq2 < fuel)%nat ->
       setup_gyrase_model.needleman_wunsch_fuel seq1 seq2 match_ mismatch gap fuel =
         Ok (rule_rows seq1 seq2 match_ mismatch gap score)) /\
  (exists score,
     generate_alignment.score_matrix seq1 seq2 = Ok score /\
     generate_alignment.simple_align seq1 seq2 =
       Ok (rule_rows seq1 seq2 generate_alignment.match_score
                     generate_alignment.mismatch_score
                     generate_alignment.gap_penalty score)).
Proof.
  split.
  - destruct (@needleman_wunsch_fuel_rule seq1 seq2 match_ mismatch gap
                (S (length seq1 + length seq2))) as [score [Es E]]; [lia|].
    exists score. split; [exact Es|]. split; [exact E|].
    intros fuel Hfuel. rewrite needleman_wunsch_fuel_enough by assumption.
    exact E.
  - destruct (@needleman_wunsch_fuel_rule seq1 seq2 2 (-1) (-2)
                (S (length seq1 + length seq2))) as [score [Es E]]; [lia|].
    exists score. rewrite simple_score_matrix_eq, simple_align_eq.
    split; [exact Es | exact E].
Qed.

(** The rule at work on ["ACGT"] and ["AGT"]: the path from [(4, 3)]
    takes the diagonal three times and, at the cell [(2, 1)] where the
    diagonal candidate does not reproduce the entry, the move up. *)
Example rule_path_of_scenario :
  rule_path (str "ACGT") (str "AGT") 2 (-1) (-2)
            (opt (str "ACGT") (str "AGT") 2 (-1) (-2)) 4 3 =
  [Pair "T" "T"; Pair "G" "G"; Del "C"; Pair "A" "A"]%char.
Proof. reflexivity. Qed.

(** C5: [needleman_wunsch("ACGT", "AGT")] with [match=2], [mismatch=-1],
    [gap=-2] returns ["ACGT"] over ["A-GT"], one gap opposite the ['C'],
    and [calculate_identity] of that alignment is 75. *)
Theorem scenario_ACGT_AGT :
  setup_gyrase_model.needleman_wunsch (str "ACGT") (str "AGT") 2 (-1) (-2) =
    Ok (str "ACGT", str "A-GT") /\
  generate_alignment.simple_align (str "ACGT") (str "AGT") =
    Ok (str "ACGT", str "A-GT") /\
  (setup_gyrase_model.calculate_identity (str "ACGT") (str "A-GT") == 75)%Q /\
  (generate_alignment.calculate_identity (str "ACGT") (str "A-GT") == 75)%Q /\
  setup_gyrase_model.identity_matches (str "ACGT") (str "A-GT") = 3%nat /\
  setup_gyrase_model.identity_length (str "ACGT") (str "A-GT") = 4%nat.
Proof.
  repeat split; vm_compute; reflexivity.
Qed.

(** C6, as amended: [needleman_wunsch] and [simple_align] do not fail on an
    empty sequence: they return the other sequence aligned against as
    many gap symbols as it is long (two empty strings when both are
    empty). *)
Theorem align_empty_input (seq : pystr) (match_ mismatch gap : Z) :
  setup_gyrase_model.needleman_wunsch [] seq match_ mismatch gap =
    Ok (repeat GAP (length seq), seq) /\
  setup_gyrase_model.needleman_wunsch seq [] match_ mismatch gap =
    Ok (seq, repeat GAP (length seq)) /\
  generate_alignment.simple_align [] seq = Ok (repeat GAP (length seq), seq) /\
  generate_alignment.simple_align seq [] = Ok (seq, repeat GAP (length seq)).
Proof.
  assert (L : forall ma mi g,
             setup_gyrase_model.needleman_wunsch [] seq ma mi g =
             Ok (repeat GAP (length seq), seq)).
  { intros ma mi g.
    destruct (needleman_wunsch_columns [] seq ma mi g) as [sc [cols [_ [_ [E [H1 H2]]]]]].
    destruct (top_bottom_of_ins cols H1) as [T B].
    rewrite E, T, B, H2. reflexivity. }
  assert (R : forall ma mi g,
             setup_gyrase_model.needleman_wunsch seq [] ma mi g =
             Ok (seq, repeat GAP (length seq))).
  { intros ma mi g.
    destruct (needleman_wunsch_columns seq [] ma mi g) as [sc [cols [_ [_ [E [H1 H2]]]]]].
    destruct (top_bottom_of_del cols H2) as [T B].
    rewrite E, T, B, H1. reflexivity. }
  rewrite !simple_align_eq. auto.
Qed.

(** C6 as stated fails: with an empty first sequence the call returns an
    alignment and raises nothing. *)
Lemma align_empty_input_returns :
  setup_gyrase_model.needleman_wunsch (str "") (str "A") 2 (-1) (-2) =
    Ok (str "-", str "A") /\
  setup_gyrase_model.needleman_wunsch (str "") (str "") 2 (-1) (-2) =
    Ok (str "", str "").
Proof.
  split; vm_compute; reflexivity.
Qed.

(** ** Identity *)

Lemma identity_matches_count (aligned1 aligned2 : pystr) :
  setup_gyrase_model.identity_matches aligned1 aligned2 =
  matching_columns aligned1 aligned2.
Proof.
  unfold setup_gyrase_model.identity_matches.
  revert aligned2. induction aligned1 as [|x t1 IH]; intros [|y t2]; try reflexivity.
  simpl. destruct (Ascii.eqb x y && negb (Ascii.eqb x GAP)); simpl; rewrite IH; reflexivity.
Qed.

Lemma count_occ_le_length (s : pystr) (c : ascii) :
  (count_occ ascii_dec s c <= length s)%nat.
Proof.
  induction s as [|x s IH]; simpl; [lia|].
  destruct (ascii_dec x c); lia.
Qed.

Lemma remove_gaps_count (s : pystr) :
  (length (remove_gaps s) + count_occ ascii_dec s GAP = length s)%nat.
Proof.
  unfold remove_gaps.
  induction s as [|x s IH]; [reflexivity|].
  simpl. destruct (Ascii.eqb_spec x GAP) as [E|N]; simpl.
  - destruct (ascii_dec x GAP); [|contradiction]. lia.
  - destruct (ascii_dec x GAP); [contradiction|]. lia.
Qed.

Lemma remove_gaps_length (s : pystr) :
  length (remove_gaps s) = non_gap_symbols s.
Proof.
  unfold non_gap_symbols. pose proof (remove_gaps_count s). lia.
Qed.

Lemma matching_le_non_gap (aligned1 aligned2 : pystr) :
  (matching_columns aligned1 aligned2 <= length (remove_gaps aligned1))%nat.
Proof.
  revert aligned2. induction aligned1 as [|x t1 IH]; intros [|y t2]; simpl; try lia.
  specialize (IH t2).
  destruct (Ascii.eqb x y), (Ascii.eqb x GAP); simpl; lia.
Qed.

(** C4, as amended: the identity [calculate_identity] returns is the
    percentage 100 * matches / length, where matches counts the aligned
    columns whose two symbols are equal and not gaps, and length counts
    the non-gap symbols of the first aligned string (in
    [generate_alignment.py]: of whichever aligned string holds more); it
    is 0 when that length is 0, and in [setup_gyrase_model.py] never
    above 100. *)
Theorem identity_definition (aligned1 aligned2 : pystr) :
  setup_gyrase_model.calculate_identity aligned1 aligned2 =
    percentage (matching_columns aligned1 aligned2) (non_gap_symbols aligned1) /\
  generate_alignment.calculate_identity aligned1 aligned2 =
    percentage (matching_columns aligned1 aligned2)
               (Nat.max (non_gap_symbols aligned1) (non_gap_symbols aligned2)) /\
  (non_gap_symbols aligned1 = O ->
   setup_gyrase_model.calculate_identity aligned1 aligned2 = 0%Q) /\
  (matching_columns aligned1 aligned2 <= non_gap_symbols aligned1)%nat.
Proof.
  unfold setup_gyrase_model.calculate_identity, generate_alignment.calculate_identity,
    setup_gyrase_model.identity_length, generate_alignment.identity_length.
  change (generate_alignment.identity_matches aligned1 aligned2)
    with (setup_gyrase_model.identity_matches aligned1 aligned2).
  rewrite identity_matches_count, !remove_gaps_length.
  pose proof (matching_le_non_gap aligned1 aligned2) as Hle.
  rewrite remove_gaps_length in Hle.
  repeat split.
  - destruct (non_gap_symbols aligned1); reflexivity.
  - destruct (Nat.max (non_gap_symbols aligned1) (non_gap_symbols aligned2)); reflexivity.
  - intros ->. reflexivity.
  - exact Hle.
Qed.

(** C4 as stated fails: on ["ACGT"] over ["A-GT"] three columns match and
    three hold no gap, so the quotient the claim describes is 1 (100%),
    while [calculate_identity] divides by the four non-gap symbols of
    the first string and returns 75. *)
Lemma identity_denominator_differs :
  (setup_gyrase_model.calculate_identity (str "ACGT") (str "A-GT") == 75)%Q /\
  (generate_alignment.calculate_identity (str "ACGT") (str "A-GT") == 75)%Q /\
  matching_columns (str "ACGT") (str "A-GT") = 3%nat /\
  ungapped_columns (str "ACGT") (str "A-GT") = 3%nat /\
  (identity_as_specified (str "ACGT") (str "A-GT") == 1)%Q /\
  Qeq_bool (setup_gyrase_model.calculate_identity (str "ACGT") (str "A-GT"))
           (identity_as_specified (str "ACGT") (str "A-GT")) = false /\
  Qeq_bool (setup_gyrase_model.calculate_identity (str "ACGT") (str "A-GT"))
           (identity_as_specified (str "ACGT") (str "A-GT") * 100) = false.
Proof.
  repeat split; vm_compute; reflexivity.
Qed.

(** * Properties of the superposer *)

Ltac destruct_mat A :=
  let a11 := fresh "a11" in let a12 := fresh "a12" in let a13 := fresh "a13" in
  let a21 := fresh "a21" in let a22 := fresh "a22" in let a23 := fresh "a23" in
  let a31 := fresh "a31" in let a32 := fresh "a32" in let a33 := fresh "a33" in
  destruct A as [[[[a11 a12] a13] [[a21 a22] a23]] [[a31 a32] a33]].

Lemma det_matmul (A B : np.mat3) :
  np.det (np.matmul A B) = (np.det A * np.det B)%R.
Proof.
  destruct_mat A. destruct_mat B. unfold np.det, np.matmul. ring.
Qed.

Lemma det_transpose (A : np.mat3) : np.det (np.transpose A) = np.det A.
Proof.
  destruct_mat A. unfold np.det, np.transpose. ring.
Qed.

Lemma det_negate_last_row (A : np.mat3) :
  np.det (np.negate_last_row A) = (- np.det A)%R.
Proof.
  destruct_mat A. unfold np.det, np.negate_last_row. ring.
Qed.

(** The determinant of the rotation the reflection correction leaves:
    the absolute value of the product of the two factors' determinants. *)
Lemma corrected_rotation_det (U Vt : np.mat3) :
  let d := np.det (np.matmul (np.transpose Vt) (np.transpose U)) in
  let Vt' := if Rlt_dec d 0 then np.negate_last_row Vt else Vt in
  np.det (np.matmul (np.transpose Vt') (np.transpose U)) = Rabs (np.det Vt * np.det U).
Proof.
  cbv zeta. rewrite !det_matmul, !det_transpose.
  destruct (Rlt_dec (np.det Vt * np.det U) 0) as [Hneg|Hpos].
  - rewrite det_negate_last_row.
    rewrite Rabs_left by assumption. ring.
  - rewrite Rabs_right by lra. reflexivity.
Qed.

Lemma matmul_T_lengths (P Q : list np.vec3) :
  (P <> [] -> length P = length Q -> exists H, np.matmul_T P Q = Ok (np.Matrix H)) /\
  (length P <> length Q -> np.matmul_T P Q = Raise ValueError) /\
  (P = [] -> Q = [] -> np.matmul_T P Q = Ok np.Flat).
Proof.
  split; [|split].
  - intros NP E. destruct P as [|p P]; [congruence|].
    destruct Q as [|q Q]; [discriminate E|].
    unfold np.matmul_T. rewrite E, Nat.eqb_refl. eauto.
  - intros N. unfold np.matmul_T.
    destruct (Nat.eqb_spec (length P) (length Q)) as [E|_]; [contradiction|].
    destruct P, Q; try reflexivity. contradiction N. reflexivity.
  - intros -> ->. reflexivity.
Qed.

Lemma kabsch_align_shape (svd : np.mat3 -> np.mat3 * np.vec3 * np.mat3)
      (P Q : list np.vec3) :
  (P <> [] -> length P = length Q ->
   exists H U S Vt,
     np.matmul_T (np.sub_row P (np.mean_axis0 P)) (np.sub_row Q (np.mean_axis0 Q)) =
       Ok (np.Matrix H) /\
     svd H = (U, S, Vt) /\
     let d := np.det (np.matmul (np.transpose Vt) (np.transpose U)) in
     let Vt' := if Rlt_dec d 0 then np.negate_last_row Vt else Vt in
     let R := np.matmul (np.transpose Vt') (np.transpose U) in
     structural_alignment.kabsch_align svd P Q =
       Ok (R, np.vsub (np.mean_axis0 Q) (np.matvec R (np.mean_axis0 P)))) /\
  (length P <> length Q ->
   structural_alignment.kabsch_align svd P Q = Raise ValueError) /\
  (P = [] -> Q = [] ->
   structural_alignment.kabsch_align svd P Q = Raise LinAlgError).
Proof.
  unfold structural_alignment.kabsch_align.
  destruct (matmul_T_lengths (np.sub_row P (np.mean_axis0 P))
                             (np.sub_row Q (np.mean_axis0 Q))) as [Heq [Hne Hnil]].
  unfold np.sub_row in Heq, Hne, Hnil. rewrite !length_map in Heq, Hne.
  split; [|split].
  - intros NP E. destruct Heq as [H EH]; [|exact E|].
    { destruct P; [congruence | discriminate]. }
    unfold np.sub_row. rewrite EH. cbn [bind np.linalg_svd].
    destruct (svd H) as [[U S] Vt] eqn:Esvd.
    exists H, U, S, Vt. split; [reflexivity|]. split; [exact Esvd|]. reflexivity.
  - intros N. unfold np.sub_row. rewrite (Hne N). reflexivity.
  - intros -> ->. reflexivity.
Qed.

Lemma extract_transformation_shape (svd : np.mat3 -> np.mat3 * np.vec3 * np.mat3)
      (ca_A ca_C : list np.vec3) :
  (ca_A <> [] -> ca_C <> [] ->
   let k := Nat.min (length ca_A) (length ca_C) in
   let A := firstn k ca_A in
   let C := firstn k ca_C in
   exists H U S Vt,
     svd H = (U, S, Vt) /\
     let d := np.det (np.matmul (np.transpose Vt) (np.transpose U)) in
     let Vt' := if Rlt_dec d 0 then np.negate_last_row Vt else Vt in
     let R := np.matmul (np.transpose Vt') (np.transpose U) in
     assemble_tetramer.extract_transformation svd ca_A ca_C =
       Ok (R, np.vsub (np.mean_axis0 C) (np.matvec R (np.mean_axis0 A)))) /\
  (ca_A = [] \/ ca_C = [] ->
   assemble_tetramer.extract_transformation svd ca_A ca_C = Raise LinAlgError).
Proof.
  split.
  - intros NA NC. cbv zeta. unfold assemble_tetramer.extract_transformation.
    set (k := Nat.min (length ca_A) (length ca_C)).
    destruct (matmul_T_lengths
                (np.sub_row (firstn k ca_A) (np.mean_axis0 (firstn k ca_A)))
                (np.sub_row (firstn k ca_C) (np.mean_axis0 (firstn k ca_C))))
      as [Heq _].
    destruct Heq as [H EH].
    { destruct ca_A as [|a ca_A]; [congruence|].
      destruct ca_C as [|c ca_C]; [congruence|].
      unfold k. cbn [length Nat.min firstn np.sub_row map]. discriminate. }
    { unfold np.sub_row. rewrite !length_map, !length_firstn. unfold k. lia. }
    rewrite EH. cbn [bind np.linalg_svd].
    destruct (svd H) as [[U S] Vt] eqn:Esvd.
    exists H, U, S, Vt. split; [exact Esvd | reflexivity].
  - intros E. unfold assemble_tetramer.extract_transformation.
    replace (Nat.min (length ca_A) (length ca_C)) with 0%nat
      by (destruct E as [-> | ->]; cbn [length]; lia).
    reflexivity.
Qed.

Lemma calculate_rmsd_shape (P Q : list np.vec3) :
  (P <> [] -> Q <> [] ->
   length P = length Q \/ length P = 1%nat \/ length Q = 1%nat ->
   exists v, structural_alignment.calculate_rmsd P Q = Ok v) /\
  (length P <> length Q ->
   (length P <> 1%nat /\ length Q <> 1%nat) \/ P = [] \/ Q = [] ->
   structural_alignment.calculate_rmsd P Q = Raise ValueError) /\
  (P = [] -> Q = [] ->
   structural_alignment.calculate_rmsd P Q = Raise AxisError).
Proof.
  unfold structural_alignment.calculate_rmsd.
  split; [|split].
  - intros NP NQ H.
    destruct P as [|p P]; [congruence|]. destruct Q as [|q Q]; [congruence|].
    unfold np.sub.
    destruct (Nat.eqb_spec (length (p :: P)) (length (q :: Q))) as [E|N].
    + cbn [bind combine map np.sum_sq_axis1]. eauto.
    + destruct H as [H|[H|H]]; [contradiction| |].
      * destruct P; [|discriminate H]. cbn [bind map np.sum_sq_axis1]. eauto.
      * destruct Q; [|discriminate H].
        destruct P; cbn [bind map np.sum_sq_axis1]; eauto.
  - intros N H. unfold np.sub.
    destruct P as [|p P], Q as [|q Q]; try reflexivity.
    + contradiction N. reflexivity.
    + destruct (Nat.eqb_spec (length (p :: P)) (length (q :: Q))) as [E|_];
        [contradiction|].
      destruct H as [[H1 H2]|[H|H]]; try discriminate H.
      destruct P, Q; try reflexivity; cbn [length] in *; congruence.
  - intros -> ->. reflexivity.
Qed.

(** C8, as amended: [kabsch_align] and [calculate_rmsd] check neither the
    number of points nor the two lengths themselves.  On point sets that
    are not empty, [kabsch_align] returns a rotation and a translation
    for two sets of one length, whatever that length (also below 3), and
    raises numpy's shape error ([ValueError]) from the product
    [P_centered.T @ Q_centered] exactly when the lengths differ;
    [calculate_rmsd] raises that error only when the lengths differ and
    neither is 1: a set of one point is broadcast against the other set
    and a value is returned.  On the arrays the scripts build of no
    point at all, of shape [(0,)], nothing is returned either: two of
    them make [kabsch_align] raise [LinAlgError] from [np.linalg.svd]
    and [calculate_rmsd] raise [AxisError] from the sum over axis 1, and
    one of them against a set of points raises the shape error. *)
Theorem superposer_shape_errors
        (svd : np.mat3 -> np.mat3 * np.vec3 * np.mat3) (P Q : list np.vec3) :
  (P <> [] -> length P = length Q ->
   exists R t, structural_alignment.kabsch_align svd P Q = Ok (R, t)) /\
  (length P <> length Q ->
   structural_alignment.kabsch_align svd P Q = Raise ValueError) /\
  (P = [] -> Q = [] ->
   structural_alignment.kabsch_align svd P Q = Raise LinAlgError) /\
  (P <> [] -> Q <> [] ->
   length P = length Q \/ length P = 1%nat \/ length Q = 1%nat ->
   exists v, structural_alignment.calculate_rmsd P Q = Ok v) /\
  (length P <> length Q ->
   (length P <> 1%nat /\ length Q <> 1%nat) \/ P = [] \/ Q = [] ->
   structural_alignment.calculate_rmsd P Q = Raise ValueError) /\
  (P = [] -> Q = [] ->
   structural_alignment.calculate_rmsd P Q = Raise AxisError).
Proof.
  destruct (kabsch_align_shape svd P Q) as [Keq [Kne Knil]].
  destruct (calculate_rmsd_shape P Q) as [Req [Rne Rnil]].
  repeat split; try assumption.
  intros NP E. destruct (Keq NP E) as [H [U [S [Vt [_ [_ EK]]]]]]. eauto.
Qed.

(** C8 as stated fails: two points are enough for [kabsch_align] to return
    a transformation, whatever [np.linalg.svd] returns, and
    [calculate_rmsd] of a set of one point and a set of two returns a
    value (the single point is broadcast). *)
Lemma superposer_accepts_short_and_uneven_sets :
  (forall svd : np.mat3 -> np.mat3 * np.vec3 * np.mat3,
      exists R t,
        structural_alignment.kabsch_align svd
          [(0, 0, 0); (1, 0, 0)]%R [(0, 0, 0); (0, 1, 0)]%R = Ok (R, t)) /\
  structural_alignment.calculate_rmsd
    [(0, 0, 0)]%R [(0, 0, 0); (3, 0, 4)]%R = Ok (sqrt (25 / 2))%R.
Proof.
  split.
  - intros svd.
    destruct (kabsch_align_shape svd [(0, 0, 0); (1, 0, 0)]%R [(0, 0, 0); (0, 1, 0)]%R)
      as [Keq _].
    destruct (Keq ltac:(discriminate) eq_refl) as [H [U [S [Vt [_ [_ EK]]]]]]. eauto.
  - unfold structural_alignment.calculate_rmsd, np.sub.
    cbn [length Nat.eqb bind map np.sum_sq_axis1].
    do 2 f_equal. unfold np.mean, np.sum_sq, np.vsub. simpl. field.
Qed.

(** ** The reflection correction, in exact arithmetic *)

Lemma det_identity3 : np.det identity3 = 1%R.
Proof. unfold np.det, identity3. ring. Qed.

Lemma orthogonal_det (A : np.mat3) :
  orthogonal A -> (np.det A * np.det A = 1)%R.
Proof.
  unfold orthogonal. intros H.
  rewrite <- det_identity3, <- H, det_matmul, det_transpose. reflexivity.
Qed.

Lemma corrected_rotation_proper (U Vt : np.mat3) :
  orthogonal U -> orthogonal Vt ->
  let d := np.det (np.matmul (np.transpose Vt) (np.transpose U)) in
  let Vt' := if Rlt_dec d 0 then np.negate_last_row Vt else Vt in
  np.det (np.matmul (np.transpose Vt') (np.transpose U)) = 1%R.
Proof.
  intros HU HV. pose proof (corrected_rotation_det U Vt) as Hd.
  cbv zeta in *. rewrite Hd.
  apply orthogonal_det in HU. apply orthogonal_det in HV.
  assert (Hsq : ((np.det Vt * np.det U) * (np.det Vt * np.det U) = 1)%R) by nra.
  unfold Rabs. destruct (Rcase_abs (np.det Vt * np.det U)); nra.
Qed.

Lemma proper_rotation_facts (A : np.mat3) :
  np.det A = 1%R -> proper_rotation A.
Proof.
  unfold proper_rotation. intros ->. repeat split; lra.
Qed.

(** C7: with real numbers for floats and the orthogonal factors numpy
    documents of [np.linalg.svd], the rotation [kabsch_align] returns for
    two point sets of one length that are not empty, and the rotation
    [extract_transformation] returns for two sets of CA coordinates that
    are not empty, have determinant 1, which lies within
    [[0.999, 1.001]]: after the reflection correction, that negates the
    last row of [Vt] when [det(Vt.T @ U.T) < 0], no determinant -1 is
    left. *)
Theorem fit_rotation_is_proper
        (svd : np.mat3 -> np.mat3 * np.vec3 * np.mat3)
        (P Q ca_A ca_C : list np.vec3) :
  svd_orthogonal svd ->
  P <> [] -> length P = length Q ->
  ca_A <> [] -> ca_C <> [] ->
  (exists R t, structural_alignment.kabsch_align svd P Q = Ok (R, t) /\
               proper_rotation R) /\
  (exists R t, assemble_tetramer.extract_transformation svd ca_A ca_C = Ok (R, t) /\
               proper_rotation R).
Proof.
  intros Hsvd NP E NA NC. split.
  - destruct (kabsch_align_shape svd P Q) as [Keq _].
    destruct (Keq NP E) as [H [U [S [Vt [_ [Esvd EK]]]]]].
    cbv zeta in EK. eexists. eexists. split; [exact EK|].
    destruct (Hsvd H) as [HU HV]. rewrite Esvd in HU, HV.
    apply proper_rotation_facts, corrected_rotation_proper; assumption.
  - destruct (extract_transformation_shape svd ca_A ca_C) as [Sh _].
    destruct (Sh NA NC) as [H [U [S [Vt [Esvd EK]]]]].
    cbv zeta in EK. eexists. eexists. split; [exact EK|].
    destruct (Hsvd H) as [HU HV]. rewrite Esvd in HU, HV.
    apply proper_rotation_facts, corrected_rotation_proper; assumption.
Qed.

Lemma orthogonal_identity3 : orthogonal identity3.
Proof.
  unfold orthogonal, identity3, np.matmul, np.transpose.
  repeat f_equal; ring.
Qed.

Lemma orthogonal_mirror_z : orthogonal mirror_z.
Proof.
  unfold orthogonal, mirror_z, identity3, np.matmul, np.transpose.
  repeat f_equal; ring.
Qed.

(** The six points and their mirror images need the correction: the
    factors of the decomposition of their product give a determinant
    below 0. *)
Lemma mirror_needs_correction :
  exists H,
    np.matmul_T (np.sub_row octahedron (np.mean_axis0 octahedron))
                (np.sub_row octahedron_mirrored (np.mean_axis0 octahedron_mirrored)) =
      Ok (np.Matrix H) /\
    svd_product (mirror_svd H) = H /\
    (np.det (np.matmul (np.transpose (snd (mirror_svd H)))
                       (np.transpose (fst (fst (mirror_svd H))))) < 0)%R.
Proof.
  exists ((2, 0, 0), (0, 2, 0), (0, 0, -2))%R. split; [|split].
  - unfold np.matmul_T, octahedron, octahedron_mirrored, np.sub_row, np.mean_axis0,
      np.mean.
    cbn [map length Nat.eqb combine fold_right fst snd].
    do 2 f_equal.
    unfold np.madd, np.outer, np.vsub, np.vadd, np.mzero, np.vzero. simpl.
    repeat f_equal; field.
  - unfold svd_product, mirror_svd, identity3, mirror_z, np.matmul.
    repeat f_equal; ring.
  - unfold mirror_svd, identity3, mirror_z, np.det, np.matmul, np.transpose.
    cbn [fst snd]. lra.
Qed.

Lemma fit_rotation_is_proper_witness :
  svd_orthogonal mirror_svd /\
  octahedron <> [] /\
  length octahedron = length octahedron_mirrored /\
  octahedron_mirrored <> [] /\
  (exists R t,
     structural_alignment.kabsch_align mirror_svd octahedron octahedron_mirrored =
       Ok (R, t) /\
     proper_rotation R) /\
  (exists R t,
     assemble_tetramer.extract_transformation mirror_svd octahedron_mirrored octahedron =
       Ok (R, t) /\
     proper_rotation R).
Proof.
  assert (H : svd_orthogonal mirror_svd).
  { intros M. simpl. split; [exact orthogonal_identity3 | exact orthogonal_mirror_z]. }
  assert (N1 : octahedron <> []) by discriminate.
  assert (N2 : octahedron_mirrored <> []) by discriminate.
  split; [exact H|]. split; [exact N1|]. split; [reflexivity|]. split; [exact N2|].
  exact (@fit_rotation_is_proper mirror_svd octahedron octahedron_mirrored
           octahedron_mirrored octahedron H N1 eq_refl N2 N1).
Defined.

(** * Properties of the contact finder *)

(** ** Loops over dictionaries *)

Section DictFacts.

Context {K V : Type}.
Variable eqb : K -> K -> bool.
Hypothesis eqb_spec : forall x y, eqb x y = true <-> x = y.

Lemma lookup_first (d : list (K * V)) (k : K) (v : V) :
  lookup eqb ((k, v) :: d) k = Ok v.
Proof.
  simpl. replace (eqb k k) with true; [reflexivity|].
  symmetry. apply eqb_spec. reflexivity.
Qed.

Lemma lookup_In (d : list (K * V)) (k : K) (v : V) :
  NoDup (keys d) -> In (k, v) d -> lookup eqb d k = Ok v.
Proof.
  induction d as [|[k' v'] d IH]; intros Hnd Hin; [contradiction|].
  simpl in Hnd. inversion Hnd as [|? ? Hnotin Hnd']; subst.
  destruct Hin as [E|Hin].
  - injection E as -> ->. apply lookup_first.
  - simpl. destruct (eqb k' k) eqn:Ek.
    + apply eqb_spec in Ek. subst k'. exfalso. apply Hnotin.
      unfold keys. apply in_map_iff. exists (k, v). auto.
    + apply IH; assumption.
Qed.

End DictFacts.

Section ForEachFacts.

Context {A B : Type}.

(** A loop whose every turn appends to the list it carries appends, in
    all, what its turns append. *)
Lemma for_each_flat_map (f : A -> list B) (body : A -> list B -> result (list B))
      (xs : list A) :
  (forall x acc, In x xs -> body x acc = Ok (acc ++ f x)) ->
  forall acc, for_each xs body acc = Ok (acc ++ flat_map f xs).
Proof.
  induction xs as [|x xs IH]; intros Hbody acc; simpl.
  - rewrite app_nil_r. reflexivity.
  - rewrite Hbody by (left; reflexivity). cbn [bind].
    rewrite IH by (intros; apply Hbody; right; assumption).
    rewrite app_assoc. reflexivity.
Qed.

End ForEachFacts.

Lemma for_each_keys {K V B : Type} (f : K * V -> list B)
      (body : K -> list B -> result (list B)) (d : list (K * V)) :
  (forall k v acc, In (k, v) d -> body k acc = Ok (acc ++ f (k, v))) ->
  forall acc, for_each (keys d) body acc = Ok (acc ++ flat_map f d).
Proof.
  intros Hbody.
  assert (G : forall l, incl l d ->
              forall acc, for_each (keys l) body acc = Ok (acc ++ flat_map f l)).
  { induction l as [|[k v] l IH]; intros Hincl acc; simpl.
    - rewrite app_nil_r. reflexivity.
    - rewrite (Hbody k v) by (apply Hincl; left; reflexivity). cbn [bind].
      unfold keys in IH. rewrite IH by (intros x Hx; apply Hincl; right; assumption).
      rewrite app_assoc. reflexivity. }
  apply G. apply incl_refl.
Qed.

Lemma flat_map_flat_map {A B C : Type} (g : B -> list C) (h : A -> list B) (l : list A) :
  flat_map g (flat_map h l) = flat_map (fun x => flat_map g (h x)) l.
Proof.
  induction l as [|x l IH]; simpl; [reflexivity|].
  rewrite flat_map_app, IH. reflexivity.
Qed.

Lemma map_flat_map {A B C : Type} (g : B -> C) (h : A -> list B) (l : list A) :
  map g (flat_map h l) = flat_map (fun x => map g (h x)) l.
Proof.
  induction l as [|x l IH]; simpl; [reflexivity|].
  rewrite map_app, IH. reflexivity.
Qed.

(** ** The scan of [find_interface_contacts] *)

Section ScanFacts.

Variables chain_a chain_b : string.
Variables residues_a residues_b : generate_constraints.residue_dict.
Variable cutoff : R.

Abbreviation scan_atom2_ := (scan_atom2 chain_a chain_b cutoff).
Abbreviation scan_res2_ := (scan_res2 chain_a chain_b cutoff).
Abbreviation scan_atom1_ := (scan_atom1 chain_a chain_b residues_b cutoff).
Abbreviation scan_res1_ := (scan_res1 chain_a chain_b residues_b cutoff).

Lemma scan_res2_spec (res1 : Z) (atom1 : string) (coord1 : generate_constraints.coord) :
  map contact_of
      (flat_map
         (fun b =>
            let d := generate_constraints.calculate_distance coord1 (snd b) in
            if Rlt_dec d cutoff then [((chain_a, res1, atom1), fst b, d)] else [])
         (backbone_points chain_b residues_b)) =
  flat_map (scan_res2_ res1 atom1 coord1) residues_b.
Proof.
  unfold backbone_points. rewrite flat_map_flat_map, map_flat_map.
  apply flat_map_ext. intros e2. unfold scan_res2. cbv beta.
  rewrite flat_map_flat_map, map_flat_map.
  apply flat_map_ext. intros item2. unfold scan_atom2. cbv beta.
  destruct (generate_constraints.is_backbone (fst item2)); [|reflexivity].
  simpl.
  destruct (Rlt_dec (generate_constraints.calculate_distance coord1 (snd item2)) cutoff);
    reflexivity.
Qed.

Lemma scan_spec :
  map contact_of
      (findContacts (backbone_points chain_a residues_a)
                    (backbone_points chain_b residues_b) cutoff) =
  flat_map scan_res1_ residues_a.
Proof.
  unfold findContacts. rewrite map_flat_map.
  unfold backbone_points at 2. rewrite flat_map_flat_map.
  apply flat_map_ext. intros e1. unfold scan_res1. cbv beta.
  rewrite flat_map_flat_map.
  apply flat_map_ext. intros item1. unfold scan_atom1. cbv beta.
  destruct (generate_constraints.is_backbone (fst item1)); [|reflexivity].
  simpl flat_map at 1. rewrite app_nil_r.
  apply scan_res2_spec.
Qed.

End ScanFacts.

Lemma find_interface_contacts_scan
      (chain_a chain_b : string)
      (residues_a residues_b : generate_constraints.residue_dict)
      (rest : generate_constraints.coords_dict) (cutoff : R) :
  wf_coords ((chain_a, residues_a) :: (chain_b, residues_b) :: rest) ->
  generate_constraints.find_interface_contacts
    ((chain_a, residues_a) :: (chain_b, residues_b) :: rest) cutoff =
  Ok (flat_map (scan_res1 chain_a chain_b residues_b cutoff) residues_a).
Proof.
  intros [Hnd Hres].
  set (coords := (chain_a, residues_a) :: (chain_b, residues_b) :: rest) in *.
  assert (La : lookup String.eqb coords chain_a = Ok residues_a)
    by (apply lookup_first; apply String.eqb_eq).
  assert (Lb : lookup String.eqb coords chain_b = Ok residues_b).
  { apply lookup_In; [apply String.eqb_eq | assumption | right; left; reflexivity]. }
  assert (Na : NoDup (keys residues_a)) by (apply (Hres chain_a); left; reflexivity).
  assert (Nb : NoDup (keys residues_b))
    by (apply (Hres chain_b); right; left; reflexivity).
  unfold generate_constraints.find_interface_contacts. cbv zeta.
  change (keys coords) with (chain_a :: chain_b :: keys rest).
  change (length (chain_a :: chain_b :: keys rest) <? 2)%nat with false.
  cbv iota.
  change 0%Z with (Z.of_nat 0). change 1%Z with (Z.of_nat 1).
  rewrite (@getitem_nth_error _ (chain_a :: chain_b :: keys rest) 0 chain_a eq_refl).
  cbn [bind].
  rewrite (@getitem_nth_error _ (chain_a :: chain_b :: keys rest) 1 chain_b eq_refl).
  cbn [bind]. rewrite La, Lb. cbn [bind].
  rewrite (for_each_keys (scan_res1 chain_a chain_b residues_b cutoff)); [reflexivity|].
  intros res1 atoms1 acc1 Hin1.
  rewrite (lookup_In Z.eqb Z.eqb_eq _ _ _ Na Hin1). cbn [bind].
  apply (for_each_flat_map (scan_atom1 chain_a chain_b residues_b cutoff res1)).
  intros [atom1 coord1] acc2 _. unfold scan_atom1. cbn [fst snd].
  destruct (generate_constraints.is_backbone atom1); cbn [negb];
    [|rewrite app_nil_r; reflexivity].
  apply (for_each_keys (scan_res2 chain_a chain_b cutoff res1 atom1 coord1)).
  intros res2 atoms2 acc3 Hin2.
  rewrite (lookup_In Z.eqb Z.eqb_eq _ _ _ Nb Hin2). cbn [bind].
  apply (for_each_flat_map (scan_atom2 chain_a chain_b cutoff res1 atom1 coord1 res2)).
  intros [atom2 coord2] acc4 _. unfold scan_atom2. cbn [fst snd].
  destruct (generate_constraints.is_backbone atom2); cbn [negb];
    [|rewrite app_nil_r; reflexivity].
  destruct (Rlt_dec (generate_constraints.calculate_distance coord1 coord2) cutoff);
    [reflexivity | rewrite app_nil_r; reflexivity].
Qed.

(** [find_interface_contacts] is the all-pairs scan of the specification on
    the two filtered point sets, in the same order. *)
Lemma find_interface_contacts_spec
      (coords : generate_constraints.coords_dict) (cutoff : R) :
  wf_coords coords ->
  generate_constraints.find_interface_contacts coords cutoff =
  Ok (map contact_of
          (findContacts (fst (interface_point_sets coords))
                        (snd (interface_point_sets coords)) cutoff)).
Proof.
  intros Hwf.
  destruct coords as [|[chain_a residues_a] [|[chain_b residues_b] rest]];
    try reflexivity.
  rewrite find_interface_contacts_scan by assumption.
  simpl interface_point_sets. cbn [fst snd].
  rewrite scan_spec. reflexivity.
Qed.

Lemma find_interface_contacts_few_chains
      (coords : generate_constraints.coords_dict) (cutoff : R) :
  (length coords < 2)%nat ->
  generate_constraints.find_interface_contacts coords cutoff = Ok [].
Proof.
  intros H. destruct coords as [|e1 [|e2 rest]]; simpl in H; try lia; reflexivity.
Qed.

Lemma in_findContacts (setA setB : list point) (cutoff : R) (t : label * label * R) :
  In t (findContacts setA setB cutoff) <->
  exists a b,
    In a setA /\ In b setB /\
    t = (fst a, fst b, generate_constraints.calculate_distance (snd a) (snd b)) /\
    (generate_constraints.calculate_distance (snd a) (snd b) < cutoff)%R.
Proof.
  unfold findContacts. rewrite in_flat_map. split.
  - intros [a [Ha Hin]]. apply in_flat_map in Hin. destruct Hin as [b [Hb Hin]].
    cbv zeta in Hin.
    destruct (Rlt_dec (generate_constraints.calculate_distance (snd a) (snd b)) cutoff)
      as [Hlt|Hge]; [|contradiction].
    destruct Hin as [<-|[]]. exists a, b. auto.
  - intros [a [b [Ha [Hb [-> Hlt]]]]]. exists a. split; [assumption|].
    apply in_flat_map. exists b. split; [assumption|]. cbv zeta.
    destruct (Rlt_dec (generate_constraints.calculate_distance (snd a) (snd b)) cutoff);
      [left; reflexivity | contradiction].
Qed.

Lemma in_backbone_points (chain : string) (residues : generate_constraints.residue_dict)
      (p : point) :
  In p (backbone_points chain residues) <->
  exists res atoms atom xyz,
    In (res, atoms) residues /\ In (atom, xyz) atoms /\
    generate_constraints.is_backbone atom = true /\
    p = ((chain, res, atom), xyz).
Proof.
  unfold backbone_points. rewrite in_flat_map. split.
  - intros [[res atoms] [He Hin]]. apply in_flat_map in Hin.
    destruct Hin as [[atom xyz] [Hi Hin]]. cbn [fst snd] in Hin.
    destruct (generate_constraints.is_backbone atom) eqn:Eb; [|contradiction].
    destruct Hin as [<-|[]]. exists res, atoms, atom, xyz. auto.
  - intros [res [atoms [atom [xyz [He [Hi [Eb ->]]]]]]].
    exists (res, atoms). split; [assumption|].
    apply in_flat_map. exists (atom, xyz). split; [assumption|].
    cbn [fst snd]. rewrite Eb. left. reflexivity.
Qed.

Lemma is_backbone_In (atom : string) :
  generate_constraints.is_backbone atom = true <-> In atom generate_constraints.backbone.
Proof.
  unfold generate_constraints.is_backbone. rewrite existsb_exists. split.
  - intros [x [Hx E]]. apply String.eqb_eq in E. subst. assumption.
  - intros H. exists atom. split; [assumption | apply String.eqb_refl].
Qed.

(** C9: for a well-formed coordinate dictionary, [find_interface_contacts]
    returns exactly the contacts (label of a point of the first set, label
    of a point of the second set, their distance) whose distance is
    strictly below the cutoff, the point sets being the backbone and CB
    atoms of the first two chains; a pair at a distance equal to the
    cutoff is left out; and a larger cutoff returns every contact a smaller
    one returns. *)
Theorem contacts_cutoff_semantics
        (coords : generate_constraints.coords_dict) (cutoff : R) :
  wf_coords coords ->
  exists contacts,
    generate_constraints.find_interface_contacts coords cutoff = Ok contacts /\
    (forall c,
        In c contacts <->
        exists a b,
          In a (fst (interface_point_sets coords)) /\
          In b (snd (interface_point_sets coords)) /\
          c = contact_of (fst a, fst b,
                          generate_constraints.calculate_distance (snd a) (snd b)) /\
          (generate_constraints.calculate_distance (snd a) (snd b) < cutoff)%R) /\
    (forall c, In c contacts -> (generate_constraints.distance c < cutoff)%R) /\
    (forall a b,
        generate_constraints.calculate_distance (snd a) (snd b) = cutoff ->
        ~ In (contact_of (fst a, fst b, cutoff)) contacts) /\
    (forall cutoff', (cutoff < cutoff')%R ->
       exists contacts',
         generate_constraints.find_interface_contacts coords cutoff' = Ok contacts' /\
         incl contacts contacts').
Proof.
  intros Hwf.
  set (A := fst (interface_point_sets coords)).
  set (B := snd (interface_point_sets coords)).
  exists (map contact_of (findContacts A B cutoff)).
  assert (Hiff : forall c,
             In c (map contact_of (findContacts A B cutoff)) <->
             exists a b,
               In a A /\ In b B /\
               c = contact_of (fst a, fst b,
                               generate_constraints.calculate_distance (snd a) (snd b)) /\
               (generate_constraints.calculate_distance (snd a) (snd b) < cutoff)%R).
  { intros c. rewrite in_map_iff. split.
    - intros [t [<- Ht]]. apply in_findContacts in Ht.
      destruct Ht as [a [b [Ha [Hb [-> Hlt]]]]]. exists a, b. auto.
    - intros [a [b [Ha [Hb [-> Hlt]]]]].
      exists (fst a, fst b, generate_constraints.calculate_distance (snd a) (snd b)).
      split; [reflexivity|]. apply in_findContacts. exists a, b. auto. }
  assert (Hlt : forall c, In c (map contact_of (findContacts A B cutoff)) ->
                          (generate_constraints.distance c < cutoff)%R).
  { intros c Hc. apply Hiff in Hc. destruct Hc as [a [b [_ [_ [-> Hlt]]]]].
    destruct a as [[[ca ra] aa] pa], b as [[[cb rb] ab] pb]. exact Hlt. }
  split; [apply find_interface_contacts_spec; assumption|].
  split; [exact Hiff|]. split; [exact Hlt|]. split.
  - intros a b E Hin. apply Hlt in Hin.
    destruct a as [[[ca ra] aa] pa], b as [[[cb rb] ab] pb]. simpl in Hin. lra.
  - intros cutoff' Hc.
    exists (map contact_of (findContacts A B cutoff')).
    split; [apply find_interface_contacts_spec; assumption|].
    intros c Hin. apply in_map_iff in Hin. destruct Hin as [t [<- Ht]].
    apply in_map. apply in_findContacts in Ht. apply in_findContacts.
    destruct Ht as [a [b [Ha [Hb [-> Hlt']]]]]. exists a, b.
    repeat split; try assumption. lra.
Qed.

Lemma two_chains_wf : wf_coords two_chains.
Proof.
  split.
  - simpl. repeat constructor; simpl; intuition discriminate.
  - intros chain residues [E|[E|[]]]; injection E as <- <-; simpl;
      repeat constructor; simpl; intuition.
Qed.

Lemma contacts_cutoff_semantics_witness :
  wf_coords two_chains /\
  exists contacts,
    generate_constraints.find_interface_contacts two_chains 5 = Ok contacts /\
    (forall c,
        In c contacts <->
        exists a b,
          In a (fst (interface_point_sets two_chains)) /\
          In b (snd (interface_point_sets two_chains)) /\
          c = contact_of (fst a, fst b,
                          generate_constraints.calculate_distance (snd a) (snd b)) /\
          (generate_constraints.calculate_distance (snd a) (snd b) < 5)%R) /\
    (forall c, In c contacts -> (generate_constraints.distance c < 5)%R) /\
    (forall a b,
        generate_constraints.calculate_distance (snd a) (snd b) = 5%R ->
        ~ In (contact_of (fst a, fst b, 5%R)) contacts) /\
    (forall cutoff', (5 < cutoff')%R ->
       exists contacts',
         generate_constraints.find_interface_contacts two_chains cutoff' = Ok contacts' /\
         incl contacts contacts').
Proof.
  split; [exact two_chains_wf|].
  exact (@contacts_cutoff_semantics two_chains 5%R two_chains_wf).
Defined.

(** C10: [find_interface_contacts] returns the empty list, and raises
    nothing, on a dictionary of fewer than two chains; on a well-formed
    dictionary every contact it returns names two atoms of the set CA, CB,
    N, C, O, the first an atom of a residue of the first chain and the
    second an atom of a residue of the second chain; and what it returns
    is what it returns on the first two chains alone, so that no atom of a
    third or later chain is ever in the output. *)
Theorem contacts_filter_invariant
        (coords : generate_constraints.coords_dict) (cutoff : R) :
  ((length coords < 2)%nat ->
   generate_constraints.find_interface_contacts coords cutoff = Ok []) /\
  (wf_coords coords ->
   exists contacts,
     generate_constraints.find_interface_contacts coords cutoff = Ok contacts /\
     generate_constraints.find_interface_contacts (firstn 2 coords) cutoff = Ok contacts /\
     forall c, In c contacts ->
       In (generate_constraints.atom1 c) generate_constraints.backbone /\
       In (generate_constraints.atom2 c) generate_constraints.backbone /\
       exists residues_a residues_b atoms1 atoms2 xyz1 xyz2,
         nth_error coords 0 = Some (generate_constraints.chain1 c, residues_a) /\
         nth_error coords 1 = Some (generate_constraints.chain2 c, residues_b) /\
         In (generate_constraints.res1 c, atoms1) residues_a /\
         In (generate_constraints.atom1 c, xyz1) atoms1 /\
         In (generate_constraints.res2 c, atoms2) residues_b /\
         In (generate_constraints.atom2 c, xyz2) atoms2).
Proof.
  split; [apply find_interface_contacts_few_chains|].
  intros Hwf.
  destruct coords as [|[chain_a residues_a] [|[chain_b residues_b] rest]].
  - exists []. split; [reflexivity|]. split; [reflexivity|]. intros c [].
  - exists []. split; [reflexivity|]. split; [reflexivity|]. intros c [].
  - assert (Hwf2 : wf_coords [(chain_a, residues_a); (chain_b, residues_b)]).
    { destruct Hwf as [Hnd Hres]. split.
      - simpl in *. inversion Hnd as [|? ? Hn1 Hnd1]; subst.
        inversion Hnd1 as [|? ? Hn2 Hnd2]; subst.
        constructor; [|constructor; [intros []|constructor]].
        intros [E|[]]. apply Hn1. left. assumption.
      - intros chain residues [E|[E|[]]]; apply (Hres chain residues); rewrite <- E;
          [left | right; left]; reflexivity. }
    exists (map contact_of
                (findContacts (backbone_points chain_a residues_a)
                              (backbone_points chain_b residues_b) cutoff)).
    split; [apply (find_interface_contacts_spec cutoff Hwf)|].
    split; [apply (find_interface_contacts_spec cutoff Hwf2)|].
    intros c Hc. apply in_map_iff in Hc. destruct Hc as [t [<- Ht]].
    apply in_findContacts in Ht. destruct Ht as [a [b [Ha [Hb [-> _]]]]].
    apply in_backbone_points in Ha, Hb.
    destruct Ha as [r1 [atoms1 [a1 [xyz1 [He1 [Hi1 [B1 ->]]]]]]].
    destruct Hb as [r2 [atoms2 [a2 [xyz2 [He2 [Hi2 [B2 ->]]]]]]].
    simpl. split; [apply is_backbone_In; assumption|].
    split; [apply is_backbone_In; assumption|].
    exists residues_a, residues_b, atoms1, atoms2, xyz1, xyz2. auto 10.
Qed.

(** * Further properties *)

(** ** The last entry of the table is the best score *)

Section Optimality.

Variables seq1 seq2 : pystr.
Variables match_ mismatch gap : Z.

Abbreviation opt0 := (opt seq1 seq2 match_ mismatch gap).
Abbreviation score0 := (columns_score match_ mismatch gap).

Lemma firstn_snoc (A : Type) (l : list A) (i : nat) (d : A) :
  (i < length l)%nat -> firstn (S i) l = firstn i l ++ [nth i l d].
Proof.
  revert i. induction l as [|h t IH]; intros [|i] H; simpl in *; try lia.
  - reflexivity.
  - f_equal. apply IH. lia.
Qed.

Lemma opt_up (i j : nat) : (opt0 i j + gap <= opt0 (S i) j)%Z.
Proof.
  destruct j as [|j].
  - rewrite !opt_0_r. lia.
  - rewrite opt_S_S. unfold max3. lia.
Qed.

Lemma opt_left (i j : nat) : (opt0 i j + gap <= opt0 i (S j))%Z.
Proof.
  destruct i as [|i].
  - rewrite !opt_0_l. lia.
  - rewrite opt_S_S. unfold max3. lia.
Qed.

Lemma opt_diag (i j : nat) :
  (opt0 i j + subst_score seq1 seq2 match_ mismatch i j <= opt0 (S i) (S j))%Z.
Proof.
  rewrite opt_S_S. unfold max3. lia.
Qed.

Lemma prefix_last (l : pystr) (i : nat) (x : pystr) (a : ascii) :
  (i <= length l)%nat -> x ++ [a] = firstn i l ->
  exists i', i = S i' /\ (i' < length l)%nat /\ x = firstn i' l /\ a = nth i' l GAP.
Proof.
  intros Hi E.
  assert (Hlen : length (x ++ [a]) = i).
  { rewrite E, length_firstn. lia. }
  rewrite length_app in Hlen. simpl in Hlen.
  destruct i as [|i']; [lia|].
  exists i'. split; [reflexivity|]. split; [lia|].
  rewrite (@firstn_snoc _ l i' GAP) in E by lia.
  apply app_inj_tail in E. assumption.
Qed.

(** No list of columns that uses up the first [i] symbols of [seq1] and
    the first [j] of [seq2] scores above the recurrence at [(i, j)]. *)
Lemma columns_score_le_opt (cols : list column) :
  forall i j,
    (i <= length seq1)%nat -> (j <= length seq2)%nat ->
    consumed1 cols = firstn i seq1 -> consumed2 cols = firstn j seq2 ->
    (score0 cols <= opt0 i j)%Z.
Proof.
  induction cols as [|c cols IH] using rev_ind; intros i j Hi Hj H1 H2.
  - simpl in H1, H2.
    assert (i = O).
    { apply (f_equal (@length _)) in H1. rewrite length_firstn in H1. simpl in H1. lia. }
    assert (j = O).
    { apply (f_equal (@length _)) in H2. rewrite length_firstn in H2. simpl in H2. lia. }
    subst. simpl. lia.
  - rewrite consumed1_app in H1. rewrite consumed2_app in H2.
    rewrite columns_score_app. simpl score0 at 2.
    destruct c as [a b|a|b]; simpl in H1, H2.
    + destruct (@prefix_last _ _ _ _ Hi H1) as [i' [-> [Li [X1 ->]]]].
      destruct (@prefix_last _ _ _ _ Hj H2) as [j' [-> [Lj [X2 ->]]]].
      specialize (IH i' j' ltac:(lia) ltac:(lia) X1 X2).
      pose proof (opt_diag i' j') as Hd. unfold subst_score in Hd.
      cbn [column_score]. lia.
    + destruct (@prefix_last _ _ _ _ Hi H1) as [i' [-> [Li [X1 ->]]]].
      rewrite app_nil_r in H2.
      specialize (IH i' j ltac:(lia) Hj X1 H2).
      pose proof (opt_up i' j). cbn [column_score]. lia.
    + destruct (@prefix_last _ _ _ _ Hj H2) as [j' [-> [Lj [X2 ->]]]].
      rewrite app_nil_r in H1.
      specialize (IH i j' Hi ltac:(lia) H1 X2).
      pose proof (opt_left i j'). cbn [column_score]. lia.
Qed.

End Optimality.

(** The entry [score[m][n]] of the filled table is the score of the
    alignment [needleman_wunsch] returns, and no alignment of the two
    sequences (no list of columns that uses up both) scores higher. *)
Theorem table_entry_is_optimal (seq1 seq2 : pystr) (match_ mismatch gap : Z) :
  exists score best cols,
    setup_gyrase_model.score_matrix seq1 seq2 match_ mismatch gap = Ok score /\
    get2 score (Z.of_nat (length seq1)) (Z.of_nat (length seq2)) = Ok best /\
    setup_gyrase_model.needleman_wunsch seq1 seq2 match_ mismatch gap =
      Ok (map top cols, map bottom cols) /\
    consumed1 cols = seq1 /\ consumed2 cols = seq2 /\
    columns_score match_ mismatch gap cols = best /\
    forall cols',
      consumed1 cols' = seq1 -> consumed2 cols' = seq2 ->
      (columns_score match_ mismatch gap cols' <= best)%Z.
Proof.
  destruct (needleman_wunsch_columns seq1 seq2 match_ mismatch gap)
    as [score [cols [Es [Eg [E [H1 H2]]]]]].
  exists score, (columns_score match_ mismatch gap cols), cols.
  repeat split; try assumption.
  intros cols' K1 K2.
  destruct (score_matrix_spec seq1 seq2 match_ mismatch gap) as [score' [Es' Hf]].
  rewrite Es in Es'. injection Es' as <-.
  pose proof (@filled_get2 seq1 seq2 match_ mismatch gap score Hf
                (length seq1) (length seq2) (le_n _) (le_n _)) as Eg'.
  rewrite Eg in Eg'. injection Eg' as ->.
  apply columns_score_le_opt; try lia.
  - rewrite K1, firstn_all. reflexivity.
  - rewrite K2, firstn_all. reflexivity.
Qed.

(** ** RMSD of a point set with itself *)

Lemma sum_sq_self (p : np.vec3) : np.sum_sq (np.vsub p p) = 0%R.
Proof.
  destruct p as [[x y] z]. unfold np.sum_sq, np.vsub. ring.
Qed.

Lemma sum_sq_diag (P : list np.vec3) :
  fold_right Rplus 0%R
    (map np.sum_sq (map (fun pq => np.vsub (fst pq) (snd pq)) (combine P P))) = 0%R.
Proof.
  induction P as [|p P IH]; simpl; [reflexivity|].
  rewrite IH, sum_sq_self. ring.
Qed.

(** [calculate_rmsd(P, P)] is 0 for a non-empty point set. *)
Theorem rmsd_self (P : list np.vec3) :
  P <> [] -> structural_alignment.calculate_rmsd P P = Ok 0%R.
Proof.
  intros NP. destruct P as [|p P]; [congruence|].
  unfold structural_alignment.calculate_rmsd, np.sub.
  rewrite Nat.eqb_refl. cbn [bind combine map np.sum_sq_axis1]. f_equal.
  change (np.sum_sq (np.vsub (fst (p, p)) (snd (p, p)))
          :: map np.sum_sq
               (map (fun pq : np.vec3 * np.vec3 => np.vsub (fst pq) (snd pq))
                    (combine P P)))
    with (map np.sum_sq
            (map (fun pq : np.vec3 * np.vec3 => np.vsub (fst pq) (snd pq))
                 (combine (p :: P) (p :: P)))).
  unfold np.mean. rewrite sum_sq_diag.
  unfold Rdiv. rewrite Rmult_0_l. apply sqrt_0.
Qed.

Lemma rmsd_self_witness :
  [(0, 0, 0); (1, 0, 0); (0, 1, 0)]%R <> [] /\
  structural_alignment.calculate_rmsd
    [(0, 0, 0); (1, 0, 0); (0, 1, 0)]%R [(0, 0, 0); (1, 0, 0); (0, 1, 0)]%R = Ok 0%R.
Proof.
  assert (H : [(0, 0, 0); (1, 0, 0); (0, 1, 0)]%R <> []) by discriminate.
  split; [exact H|].
  exact (@rmsd_self [(0, 0, 0); (1, 0, 0); (0, 1, 0)]%R H).
Defined.

(** ** Two points three apart *)

Lemma distance_three :
  generate_constraints.calculate_distance (0, 0, 0)%R (0, 0, 3)%R = 3%R.
Proof.
  unfold generate_constraints.calculate_distance.
  replace (0 + (0 - 0) ^ 2 + (0 - 0) ^ 2 + (0 - 3) ^ 2)%R with (3 * 3)%R by ring.
  apply sqrt_square. lra.
Qed.

(** The points [(0, 0, 0)] and [(0, 0, 3)] of two chains are a contact, at
    distance 3, under the cutoff 5, and are none under the cutoff 2. *)
Theorem scenario_two_points :
  generate_constraints.find_interface_contacts two_chains 5 =
    Ok [generate_constraints.Contact "A" 1 "CA" "B" 1 "CA" 3] /\
  generate_constraints.find_interface_contacts two_chains 2 = Ok [].
Proof.
  rewrite !(find_interface_contacts_spec _ two_chains_wf).
  unfold two_chains, interface_point_sets, backbone_points, findContacts.
  cbn [flat_map fst snd app generate_constraints.is_backbone existsb
       generate_constraints.backbone].
  change (String.eqb "CA" "CA") with true. cbn [orb app]. cbv zeta.
  cbn [flat_map fst snd app].
  rewrite distance_three.
  destruct (Rlt_dec 3 5) as [_|N]; [|exfalso; apply N; lra].
  destruct (Rlt_dec 3 2) as [L|_]; [exfalso; lra|].
  split; reflexivity.
Qed.

(** ** The residue scan of [identify_interface_residues] *)

Lemma set_add_In (s : list Z) (x y : Z) :
  In y (set_add s x) <-> In y s \/ y = x.
Proof.
  unfold set_add. destruct (existsb (Z.eqb x) s) eqn:E.
  - apply existsb_exists in E. destruct E as [z [Hz Ez]].
    apply Z.eqb_eq in Ez. subst z. split; [auto|]. intros [H| ->]; assumption.
  - rewrite in_app_iff. simpl. intuition congruence.
Qed.

Lemma insert_sorted_In (x y : Z) (l : list Z) :
  In y (insert_sorted x l) <-> y = x \/ In y l.
Proof.
  induction l as [|z l IH]; simpl.
  - intuition congruence.
  - destruct (x <=? z)%Z; simpl; [intuition congruence|].
    rewrite IH. intuition congruence.
Qed.

Lemma sorted_In (y : Z) (l : list Z) : In y (sorted l) <-> In y l.
Proof.
  unfold sorted. induction l as [|x l IH]; simpl; [reflexivity|].
  rewrite insert_sorted_In, IH. intuition congruence.
Qed.

Ltac break_hyps :=
  repeat match goal with
         | H : _ \/ _ |- _ => destruct H
         | H : _ /\ _ |- _ => destruct H
         | H : exists _, _ |- _ => destruct H
         | H : In _ (_ :: _) |- _ => destruct H
         | H : In _ [] |- _ => destruct H
         | H : False |- _ => destruct H
         end; subst.

Section ResidueScanFacts.

Variable cutoff : R.
Variable chain_b_atoms : list analyze_models.ca_atom.

Abbreviation scan_b_ := (scan_b cutoff).
Abbreviation scan_a_ := (scan_a cutoff chain_b_atoms).

Lemma scan_b_In (res_a : Z) (xa ya za : R) (bs : list analyze_models.ca_atom) :
  forall (sets : list Z * list Z) (r : Z),
    (In r (fst (scan_b_ res_a xa ya za bs sets)) <->
     In r (fst sets) \/
     (r = res_a /\ exists b, In b bs /\ (ca_distance (res_a, xa, ya, za) b < cutoff)%R)) /\
    (In r (snd (scan_b_ res_a xa ya za bs sets)) <->
     In r (snd sets) \/
     exists b, In b bs /\ ca_res b = r /\
               (ca_distance (res_a, xa, ya, za) b < cutoff)%R).
Proof.
  unfold scan_b.
  induction bs as [|[[[res_b xb] yb] zb] bs IH]; intros [ia ib] r.
  - simpl. split; split; auto; intros H; break_hyps; auto.
  - cbn [fold_left].
    assert (Hd : ca_distance (res_a, xa, ya, za) (res_b, xb, yb, zb) =
                 sqrt ((xa - xb) ^ 2 + (ya - yb) ^ 2 + (za - zb) ^ 2)%R) by reflexivity.
    destruct (Rlt_dec (sqrt ((xa - xb) ^ 2 + (ya - yb) ^ 2 + (za - zb) ^ 2)) cutoff)
      as [Hlt|Hge]; rewrite <- Hd in *; cbv beta iota.
    + destruct (IH (set_add ia res_a, set_add ib res_b) r) as [IHa IHb].
      rewrite IHa, IHb. cbn [fst snd]. rewrite !set_add_In.
      split; split; intros H; break_hyps; eauto 8 using in_eq, in_cons.
    + destruct (IH (ia, ib) r) as [IHa IHb].
      rewrite IHa, IHb. cbn [fst snd].
      split; split; intros H; break_hyps; try contradiction;
        eauto 8 using in_eq, in_cons.
Qed.

Lemma scan_a_In (atoms : list analyze_models.ca_atom) :
  forall (sets : list Z * list Z) (r : Z),
    (In r (fst (scan_a_ atoms sets)) <->
     In r (fst sets) \/
     exists a b, In a atoms /\ In b chain_b_atoms /\ ca_res a = r /\
                 (ca_distance a b < cutoff)%R) /\
    (In r (snd (scan_a_ atoms sets)) <->
     In r (snd sets) \/
     exists a b, In a atoms /\ In b chain_b_atoms /\ ca_res b = r /\
                 (ca_distance a b < cutoff)%R).
Proof.
  unfold scan_a.
  induction atoms as [|[[[res_a xa] ya] za] atoms IH]; intros sets r.
  - simpl. split; split; auto; intros H; break_hyps; auto.
  - cbn [fold_left].
    destruct (IH (scan_b_ res_a xa ya za chain_b_atoms sets) r) as [IHa IHb].
    destruct (scan_b_In res_a xa ya za chain_b_atoms sets r) as [Ba Bb].
    rewrite IHa, IHb, Ba, Bb.
    split; split; intros H; break_hyps; eauto 10 using in_eq, in_cons.
Qed.

End ResidueScanFacts.

(** [identify_interface_residues] returns, for chain A and for chain B,
    exactly the residue numbers of the CA atoms that are strictly closer
    than the cutoff to some CA atom of the other chain. *)
Theorem interface_residues_cutoff
        (chain_a_atoms chain_b_atoms : list analyze_models.ca_atom)
        (cutoff : R) (r : Z) :
  (In r (fst (analyze_models.identify_interface_residues
                chain_a_atoms chain_b_atoms cutoff)) <->
   exists a b, In a chain_a_atoms /\ In b chain_b_atoms /\ ca_res a = r /\
               (ca_distance a b < cutoff)%R) /\
  (In r (snd (analyze_models.identify_interface_residues
                chain_a_atoms chain_b_atoms cutoff)) <->
   exists a b, In a chain_a_atoms /\ In b chain_b_atoms /\ ca_res b = r /\
               (ca_distance a b < cutoff)%R).
Proof.
  unfold analyze_models.identify_interface_residues. cbn [fst snd].
  rewrite !sorted_In.
  destruct (scan_a_In cutoff chain_b_atoms chain_a_atoms ([], []) r) as [Ha Hb].
  unfold scan_a, scan_b in Ha, Hb. rewrite Ha, Hb. cbn [fst snd In].
  split; split; intros H; auto; destruct H as [[]|H]; exact H.
Qed.

(** ** The two aligners are one *)

(** [simple_align(seq1, seq2)] returns what
    [needleman_wunsch(seq1, seq2, 2, -1, -2)] returns, and the two
    [calculate_identity] agree whenever the first aligned string holds
    at least as many non-gap symbols as the second. *)
Theorem simple_align_is_needleman_wunsch (seq1 seq2 : pystr) :
  generate_alignment.simple_align seq1 seq2 =
    setup_gyrase_model.needleman_wunsch seq1 seq2 2 (-1) (-2) /\
  forall aligned1 aligned2,
    (non_gap_symbols aligned2 <= non_gap_symbols aligned1)%nat ->
    generate_alignment.calculate_identity aligned1 aligned2 =
    setup_gyrase_model.calculate_identity aligned1 aligned2.
Proof.
  split; [apply simple_align_eq|].
  intros aligned1 aligned2 Hle.
  unfold generate_alignment.calculate_identity, setup_gyrase_model.calculate_identity,
    generate_alignment.identity_length, setup_gyrase_model.identity_length.
  rewrite !remove_gaps_length, Nat.max_l by assumption. reflexivity.
Qed.

(** * Properties of the residue mapping *)

Section DictSetFacts.

Context {K V : Type}.
Variable eqb : K -> K -> bool.
Hypothesis eqb_spec : forall a b, eqb a b = true <-> a = b.

Lemma dict_set_fresh (d : list (K * V)) (k : K) (v : V) :
  (forall kv, In kv d -> fst kv <> k) ->
  dict_set eqb d k v = d ++ [(k, v)].
Proof.
  induction d as [|[k' v'] d IH]; intros H; simpl.
  - reflexivity.
  - destruct (eqb k' k) eqn:E.
    + apply eqb_spec in E. exfalso. apply (H (k', v')); [left; reflexivity | exact E].
    + rewrite IH; [reflexivity|]. intros kv Hin. apply H. right. exact Hin.
Qed.

Lemma dict_set_keys (d : list (K * V)) (k : K) (v : V) :
  In k (keys d) -> keys (dict_set eqb d k v) = keys d.
Proof.
  unfold keys. induction d as [|[k' v'] d IH]; simpl; intros H.
  - contradiction.
  - destruct (eqb k' k) eqn:E; simpl.
    + reflexivity.
    + f_equal. apply IH. destruct H as [H|H]; [|exact H].
      subst k'. assert (eqb k k = true) by (apply eqb_spec; reflexivity). congruence.
Qed.

Lemma dict_mem_In (d : list (K * V)) (k : K) :
  dict_mem eqb d k = true <-> In k (keys d).
Proof.
  unfold dict_mem, keys. rewrite existsb_exists. split.
  - intros [[k' v'] [Hin E]]. apply eqb_spec in E. simpl in E. subst k'.
    apply in_map_iff. exists (k, v'). split; [reflexivity | exact Hin].
  - intros H. apply in_map_iff in H. destruct H as [[k' v'] [E Hin]].
    simpl in E. subst k'. exists (k, v'). split; [exact Hin|].
    apply eqb_spec. reflexivity.
Qed.

Lemma lookup_dict_set_same (d : list (K * V)) (k : K) (v : V) :
  lookup eqb (dict_set eqb d k v) k = Ok v.
Proof.
  induction d as [|[k' v'] d IH]; simpl.
  - replace (eqb k k) with true; [reflexivity|].
    symmetry. apply eqb_spec. reflexivity.
  - destruct (eqb k' k) eqn:E; simpl; rewrite E; [reflexivity | exact IH].
Qed.

Lemma lookup_dict_set_other (d : list (K * V)) (k k0 : K) (v : V) :
  k0 <> k -> lookup eqb (dict_set eqb d k v) k0 = lookup eqb d k0.
Proof.
  intros Hne. induction d as [|[k' v'] d IH]; simpl.
  - destruct (eqb k k0) eqn:E; [|reflexivity].
    apply eqb_spec in E. congruence.
  - destruct (eqb k' k) eqn:E; simpl.
    + apply eqb_spec in E. subst k'.
      destruct (eqb k k0) eqn:E'; [|reflexivity].
      apply eqb_spec in E'. congruence.
    + destruct (eqb k' k0); [reflexivity | exact IH].
Qed.

Lemma lookup_mem (d : list (K * V)) (k : K) :
  In k (keys d) -> exists v, lookup eqb d k = Ok v.
Proof.
  unfold keys. induction d as [|[k' v'] d IH]; simpl; intros H.
  - contradiction.
  - destruct (eqb k' k) eqn:E; [eauto|].
    destruct H as [H|H]; [|auto].
    subst k'. assert (eqb k k = true) by (apply eqb_spec; reflexivity). congruence.
Qed.

End DictSetFacts.

Lemma Zeqb_spec (a b : Z) : Z.eqb a b = true <-> a = b.
Proof. apply Z.eqb_eq. Qed.

Lemma residues_before_S_some (row : pystr) (i : nat) (a : ascii) :
  nth_error row i = Some a ->
  residues_before row (S i) =
  (residues_before row i + if negb (Ascii.eqb a GAP) then 1 else 0)%nat.
Proof.
  intros H. unfold residues_before.
  assert (Hi : (i < length row)%nat) by (apply nth_error_Some; congruence).
  rewrite (@firstn_snoc _ row i a Hi).
  rewrite (nth_error_nth row i a H).
  unfold remove_gaps. rewrite filter_app, length_app. simpl.
  destruct (Ascii.eqb a GAP); reflexivity.
Qed.

Lemma residues_before_S_none (row : pystr) (i : nat) :
  nth_error row i = None ->
  residues_before row (S i) = residues_before row i.
Proof.
  intros H. apply nth_error_None in H. unfold residues_before.
  rewrite !firstn_all2 by lia. reflexivity.
Qed.

Lemma residues_before_S_le (row : pystr) (i : nat) :
  (residues_before row i <= residues_before row (S i))%nat.
Proof.
  destruct (nth_error row i) as [a|] eqn:E.
  - rewrite (residues_before_S_some _ _ E). lia.
  - rewrite (residues_before_S_none _ _ E). lia.
Qed.

Lemma residues_before_mono (row : pystr) (i j : nat) :
  (i <= j)%nat -> (residues_before row i <= residues_before row j)%nat.
Proof.
  induction 1 as [|j _ IH]; [lia|].
  pose proof (residues_before_S_le row j). lia.
Qed.

Lemma residues_before_total (row : pystr) (i : nat) :
  (residues_before row i <= length (remove_gaps row))%nat.
Proof.
  transitivity (residues_before row (Nat.max i (length row))).
  - apply residues_before_mono. lia.
  - unfold residues_before. rewrite firstn_all2 by lia. lia.
Qed.

Lemma nth_error_remove_gaps (row : pystr) (i : nat) (a : ascii) :
  nth_error row i = Some a -> Ascii.eqb a GAP = false ->
  nth_error (remove_gaps row) (residues_before row i) = Some a.
Proof.
  intros H Ha.
  assert (Hi : (i < length row)%nat) by (apply nth_error_Some; congruence).
  rewrite <- (firstn_skipn i row) at 1.
  unfold residues_before, remove_gaps. rewrite filter_app.
  rewrite nth_error_app2 by lia. rewrite Nat.sub_diag.
  rewrite (@skipn_nth_cons _ row i a Hi), (nth_error_nth row i a H).
  simpl. rewrite Ha. reflexivity.
Qed.

Lemma paired_at_key (target template : pystr) (i : nat) kv :
  In kv (paired_at target template i) ->
  fst kv = Z.of_nat (residues_before target (S i)).
Proof.
  unfold paired_at. intros H.
  destruct (nth_error target i) as [a|]; [|contradiction].
  destruct (nth_error template i) as [b|]; [|contradiction].
  destruct (negb (Ascii.eqb a GAP) && negb (Ascii.eqb b GAP)); [|contradiction].
  destruct H as [H|[]]. subst kv. reflexivity.
Qed.

Lemma paired_prefix_keys (target template : pystr) (k : nat) kv :
  In kv (flat_map (paired_at target template) (seq 0 k)) ->
  (fst kv <= Z.of_nat (residues_before target k))%Z.
Proof.
  intros H. apply in_flat_map in H. destruct H as [i [Hi H]].
  apply in_seq in Hi. rewrite (paired_at_key _ _ _ _ H).
  apply inj_le. apply residues_before_mono. lia.
Qed.

(** The loop of [align_residue_mapping] adds the paired columns, from
    left to right. *)
Lemma align_residue_mapping_columns (target template : pystr) :
  check_binding_conservation.align_residue_mapping target template =
  Ok (paired_columns target template).
Proof.
  unfold check_binding_conservation.align_residue_mapping.
  set (body := fun (i : Z) (st : Z * Z * list (Z * check_binding_conservation.residue_pair)) => _).
  destruct (@for_range_invariant _
              (fun k st => st = (Z.of_nat (residues_before target k),
                                 Z.of_nat (residues_before template k),
                                 flat_map (paired_at target template) (seq 0 k)))
              body 0 (length target) (0%Z, 0%Z, []))
    as [st [E P]].
  - lia.
  - reflexivity.
  - intros k st [_ Hk] ->. unfold body.
    destruct (nth_error target k) as [a|] eqn:Ea;
      [|apply nth_error_None in Ea; lia].
    replace (Z.of_nat k <? Z.of_nat (length target))%Z with true
      by (symmetry; apply Z.ltb_lt; lia).
    rewrite (getitem_nth_error _ _ Ea). cbn [bind].
    rewrite seq_S, flat_map_app. cbn [flat_map Nat.add]. rewrite app_nil_r.
    assert (Hp : paired_at target template k =
                 match nth_error template k with
                 | Some b =>
                     if negb (Ascii.eqb a GAP) && negb (Ascii.eqb b GAP)
                     then [(Z.of_nat (residues_before target (S k)),
                            check_binding_conservation.ResiduePair a b
                              (Z.of_nat (residues_before template (S k))))]
                     else []
                 | None => []
                 end)
      by (unfold paired_at; rewrite Ea; reflexivity).
    rewrite Hp. clear Hp.
    rewrite (residues_before_S_some _ _ Ea).
    destruct (nth_error template k) as [b|] eqn:Eb.
    + assert (Hb : (k < length template)%nat) by (apply nth_error_Some; congruence).
      replace (Z.of_nat k <? Z.of_nat (length template))%Z with true
        by (symmetry; apply Z.ltb_lt; lia).
      rewrite (getitem_nth_error _ _ Eb). cbn [bind].
      rewrite (residues_before_S_some _ _ Eb).
      eexists. split; [reflexivity|].
      destruct (negb (Ascii.eqb a GAP)) eqn:Ha, (negb (Ascii.eqb b GAP)) eqn:Hb';
        cbn [andb]; rewrite ?app_nil_r, ?Nat.add_0_r;
        repeat (f_equal; try lia).
      rewrite dict_set_fresh by
        (try apply Zeqb_spec;
         intros kv Hin; apply paired_prefix_keys in Hin; lia).
      repeat (f_equal; try lia).
    + apply nth_error_None in Eb.
      replace (Z.of_nat k <? Z.of_nat (length template))%Z with false
        by (symmetry; apply Z.ltb_ge; lia).
      cbn [bind].
      rewrite (residues_before_S_none template k) by (apply nth_error_None; lia).
      eexists. split; [reflexivity|].
      change (Ascii.eqb GAP GAP) with true. cbn [negb andb].
      rewrite andb_false_r, app_nil_r.
      destruct (negb (Ascii.eqb a GAP)); repeat (f_equal; try lia).
  - change (Z.of_nat 0) with 0%Z in E. rewrite E. cbn [bind]. subst st.
    reflexivity.
Qed.

Lemma in_paired_columns (target template : pystr) p e :
  In (p, e) (paired_columns target template) ->
  exists i,
    nth_error target i = Some (check_binding_conservation.target_res e) /\
    nth_error template i = Some (check_binding_conservation.template_res e) /\
    Ascii.eqb (check_binding_conservation.target_res e) GAP = false /\
    Ascii.eqb (check_binding_conservation.template_res e) GAP = false /\
    p = (Z.of_nat (residues_before target i) + 1)%Z /\
    check_binding_conservation.template_pos e =
      (Z.of_nat (residues_before template i) + 1)%Z.
Proof.
  unfold paired_columns. intros H. apply in_flat_map in H.
  destruct H as [i [_ H]]. exists i. unfold paired_at in H.
  destruct (nth_error target i) as [a|] eqn:Ea; [|contradiction].
  destruct (nth_error template i) as [b|] eqn:Eb; [|contradiction].
  destruct (Ascii.eqb a GAP) eqn:Ha; [contradiction|].
  destruct (Ascii.eqb b GAP) eqn:Hb; [contradiction|].
  rewrite (residues_before_S_some _ _ Ea), (residues_before_S_some _ _ Eb) in H.
  rewrite Ha, Hb in H. cbn [negb] in H.
  destruct H as [H|[]]. inversion H; subst; clear H.
  cbn [check_binding_conservation.target_res
       check_binding_conservation.template_res
       check_binding_conservation.template_pos].
  repeat split; auto; lia.
Qed.

(** The mapping speaks of residue numbers: an entry under the key
    [p] holds residue [p] of the target row with its gaps deleted, and
    its [template_pos] is the number of the residue it holds of the
    template row with its gaps deleted.  The function returns for every
    two strings, also when the template row is the shorter one. *)
Theorem mapping_indexes_residues (target template : pystr) :
  exists mapping,
    check_binding_conservation.align_residue_mapping target template = Ok mapping /\
    forall p e, In (p, e) mapping ->
      getitem (remove_gaps target) (p - 1) =
        Ok (check_binding_conservation.target_res e) /\
      getitem (remove_gaps template)
              (check_binding_conservation.template_pos e - 1) =
        Ok (check_binding_conservation.template_res e).
Proof.
  exists (paired_columns target template).
  split; [apply align_residue_mapping_columns|].
  intros p e H. apply in_paired_columns in H.
  destruct H as [i [Ea [Eb [Ha [Hb [-> ->]]]]]].
  replace (Z.of_nat (residues_before target i) + 1 - 1)%Z
    with (Z.of_nat (residues_before target i)) by lia.
  replace (Z.of_nat (residues_before template i) + 1 - 1)%Z
    with (Z.of_nat (residues_before template i)) by lia.
  split; apply getitem_nth_error, nth_error_remove_gaps; assumption.
Qed.

Lemma paired_from_sorted (target template : pystr) (n lo : nat) :
  StronglySorted mapping_lt (flat_map (paired_at target template) (seq lo n)) /\
  Forall (fun y =>
            (Z.of_nat (residues_before target lo) < fst y)%Z /\
            (Z.of_nat (residues_before template lo) <
             check_binding_conservation.template_pos (snd y))%Z)
         (flat_map (paired_at target template) (seq lo n)).
Proof.
  revert lo. induction n as [|n IH]; intros lo; cbn [seq flat_map].
  - split; constructor.
  - destruct (IH (S lo)) as [Hs Hf].
    assert (Hf' : Forall (fun y =>
              (Z.of_nat (residues_before target lo) < fst y)%Z /\
              (Z.of_nat (residues_before template lo) <
               check_binding_conservation.template_pos (snd y))%Z)
             (flat_map (paired_at target template) (seq (S lo) n))).
    { eapply Forall_impl; [|exact Hf]. cbv beta. intros y [H1 H2].
      pose proof (residues_before_S_le target lo).
      pose proof (residues_before_S_le template lo). lia. }
    unfold paired_at at 1 3.
    destruct (nth_error target lo) as [a|] eqn:Ea; [|split; assumption].
    destruct (nth_error template lo) as [b|] eqn:Eb; [|split; assumption].
    destruct (negb (Ascii.eqb a GAP)) eqn:Ha; [|split; assumption].
    destruct (negb (Ascii.eqb b GAP)) eqn:Hb; [|split; assumption].
    cbn [andb app]. split.
    + constructor; [exact Hs|].
      eapply Forall_impl; [|exact Hf]. cbv beta. unfold mapping_lt. cbn.
      intros y H. exact H.
    + constructor; [|exact Hf'].
      rewrite (residues_before_S_some _ _ Ea), (residues_before_S_some _ _ Eb).
      rewrite Ha, Hb.
      cbn [fst snd check_binding_conservation.template_pos]. lia.
Qed.

(** The mapping keeps the order of the residues: its entries stand
    in the order of their keys, and from one entry to a later one both
    the key and [template_pos] grow.  No two target residues share a
    template residue, and no key is written twice. *)
Theorem mapping_is_increasing (target template : pystr) :
  exists mapping,
    check_binding_conservation.align_residue_mapping target template = Ok mapping /\
    StronglySorted mapping_lt mapping.
Proof.
  exists (paired_columns target template).
  split; [apply align_residue_mapping_columns|].
  apply paired_from_sorted.
Qed.

Lemma paired_at_length_cons (a b : ascii) (target template : pystr) (i : nat) :
  length (paired_at (a :: target) (b :: template) (S i)) =
  length (paired_at target template i).
Proof.
  unfold paired_at. cbn [nth_error].
  destruct (nth_error target i) as [x|]; [|reflexivity].
  destruct (nth_error template i) as [y|]; [|reflexivity].
  destruct (negb (Ascii.eqb x GAP) && negb (Ascii.eqb y GAP)); reflexivity.
Qed.

Lemma length_flat_map_shift (A B : Type) (f g : nat -> list B) (lo n : nat) :
  (forall i, length (f (S i)) = length (g i)) ->
  length (flat_map f (seq (S lo) n)) = length (flat_map g (seq lo n)).
Proof.
  intros H. revert lo. induction n as [|n IH]; intros lo; cbn [seq flat_map].
  - reflexivity.
  - rewrite !length_app, H, IH. reflexivity.
Qed.

Lemma paired_at_nil (target : pystr) (i : nat) : paired_at target [] i = [].
Proof.
  unfold paired_at. destruct (nth_error target i); destruct i; reflexivity.
Qed.

Lemma flat_map_nil (A B : Type) (f : A -> list B) (l : list A) :
  (forall x, f x = []) -> flat_map f l = [].
Proof.
  intros H. induction l as [|x l IH]; cbn [flat_map].
  - reflexivity.
  - rewrite H, IH. reflexivity.
Qed.

Lemma paired_columns_length (target template : pystr) :
  length (paired_columns target template) = ungapped_columns target template.
Proof.
  unfold paired_columns. revert template.
  induction target as [|a target IH]; intros template.
  - reflexivity.
  - destruct template as [|b template].
    + rewrite flat_map_nil by (intros i; apply paired_at_nil). reflexivity.
    + cbn [length seq flat_map]. rewrite length_app.
      rewrite (@length_flat_map_shift nat _ _ (paired_at target template))
        by (intros i; apply paired_at_length_cons).
      rewrite IH. cbn [ungapped_columns]. unfold paired_at. cbn [nth_error].
      destruct (negb (Ascii.eqb a GAP) && negb (Ascii.eqb b GAP)); reflexivity.
Qed.

(** The mapping has one entry for each column in which neither
    row shows a gap; columns of the template row beyond the end of the
    target row are not read, and where the template row has ended the
    target residues get no entry. *)
Theorem mapping_size (target template : pystr) :
  exists mapping,
    check_binding_conservation.align_residue_mapping target template = Ok mapping /\
    length mapping = ungapped_columns target template.
Proof.
  exists (paired_columns target template).
  split; [apply align_residue_mapping_columns | apply paired_columns_length].
Qed.

(** Aligning two gap-free sequences and mapping the two rows the
    aligner returns gives entries that index the sequences themselves:
    under key [p] stands residue [p] of the first sequence, paired with
    residue [template_pos] of the second. *)
Theorem aligned_mapping_indexes_inputs
        (seq1 seq2 : pystr) (match_ mismatch gap : Z) :
  gap_free seq1 -> gap_free seq2 ->
  exists aligned1 aligned2 mapping,
    setup_gyrase_model.needleman_wunsch seq1 seq2 match_ mismatch gap =
      Ok (aligned1, aligned2) /\
    check_binding_conservation.align_residue_mapping aligned1 aligned2 =
      Ok mapping /\
    length mapping = ungapped_columns aligned1 aligned2 /\
    forall p e, In (p, e) mapping ->
      getitem seq1 (p - 1) = Ok (check_binding_conservation.target_res e) /\
      getitem seq2 (check_binding_conservation.template_pos e - 1) =
        Ok (check_binding_conservation.template_res e).
Proof.
  intros G1 G2.
  destruct (needleman_wunsch_columns seq1 seq2 match_ mismatch gap)
    as [score [cols [_ [_ [E [H1 H2]]]]]].
  exists (map top cols), (map bottom cols),
         (paired_columns (map top cols) (map bottom cols)).
  split; [exact E|].
  split; [apply align_residue_mapping_columns|].
  split; [apply paired_columns_length|].
  intros p e H. apply in_paired_columns in H.
  destruct H as [i [Ea [Eb [Ha [Hb [-> ->]]]]]].
  replace (Z.of_nat (residues_before (map top cols) i) + 1 - 1)%Z
    with (Z.of_nat (residues_before (map top cols) i)) by lia.
  replace (Z.of_nat (residues_before (map bottom cols) i) + 1 - 1)%Z
    with (Z.of_nat (residues_before (map bottom cols) i)) by lia.
  pose proof (nth_error_remove_gaps _ _ Ea Ha) as N1.
  pose proof (nth_error_remove_gaps _ _ Eb Hb) as N2.
  rewrite remove_gaps_top, H1, (remove_gaps_gap_free G1) in N1.
  rewrite remove_gaps_bottom, H2, (remove_gaps_gap_free G2) in N2.
  split; apply getitem_nth_error; assumption.
Qed.

Lemma aligned_mapping_indexes_inputs_witness :
  exists aligned1 aligned2 mapping,
    setup_gyrase_model.needleman_wunsch (str "ACGT") (str "AGT") 2 (-1) (-2) =
      Ok (aligned1, aligned2) /\
    check_binding_conservation.align_residue_mapping aligned1 aligned2 =
      Ok mapping /\
    length mapping = ungapped_columns aligned1 aligned2 /\
    forall p e, In (p, e) mapping ->
      getitem (str "ACGT") (p - 1) =
        Ok (check_binding_conservation.target_res e) /\
      getitem (str "AGT") (check_binding_conservation.template_pos e - 1) =
        Ok (check_binding_conservation.template_res e).
Proof.
  apply aligned_mapping_indexes_inputs;
    repeat constructor; discriminate.
Defined.

(** * Properties of the chain renaming and the renumbering *)

Lemma pystr_eqb_spec (a b : pystr) : PyStr.eqb a b = true <-> a = b.
Proof.
  revert b. induction a as [|x a IH]; intros [|y b]; simpl;
    try (split; [discriminate | discriminate]); try tauto.
  rewrite andb_true_iff, Ascii.eqb_eq, IH. split.
  - intros [-> ->]. reflexivity.
  - intros H. inversion H. auto.
Qed.

Lemma for_each_map (A B : Type) (f : A -> B)
      (body : A -> list B -> result (list B)) (xs : list A) :
  (forall x acc, In x xs -> body x acc = Ok (acc ++ [f x])) ->
  forall acc, for_each xs body acc = Ok (acc ++ map f xs).
Proof.
  induction xs as [|x xs IH]; intros Hbody acc; simpl.
  - rewrite app_nil_r. reflexivity.
  - rewrite Hbody by (left; reflexivity). cbn [bind].
    rewrite IH by (intros; apply Hbody; right; assumption).
    rewrite <- app_assoc. reflexivity.
Qed.

Lemma fold_left_map (A B : Type) (f : A -> B) (xs : list A) :
  forall acc, fold_left (fun acc x => acc ++ [f x]) xs acc = acc ++ map f xs.
Proof.
  induction xs as [|x xs IH]; intros acc; simpl.
  - rewrite app_nil_r. reflexivity.
  - rewrite IH, <- app_assoc. reflexivity.
Qed.

Lemma startswith_nil (s : pystr) : PyStr.startswith s [] = true.
Proof. destruct s; reflexivity. Qed.

Lemma startswith_app (s t prefix : pystr) :
  (length prefix <= length s)%nat ->
  PyStr.startswith (s ++ t) prefix = PyStr.startswith s prefix.
Proof.
  revert s. induction prefix as [|p prefix IH]; intros s H.
  - destruct s, t; reflexivity.
  - destruct s as [|c s]; simpl in H; [lia|].
    simpl. rewrite IH by lia. reflexivity.
Qed.

Lemma startswith_firstn (s prefix : pystr) (k : nat) :
  (length prefix <= k)%nat ->
  PyStr.startswith (firstn k s) prefix = PyStr.startswith s prefix.
Proof.
  revert s k. induction prefix as [|p prefix IH]; intros s k H.
  - destruct (firstn k s); destruct s; reflexivity.
  - destruct k as [|k]; simpl in H; [lia|].
    destruct s as [|c s]; simpl; [reflexivity|].
    rewrite IH by lia. reflexivity.
Qed.

(** Writing at index 21 leaves the record name alone. *)
Lemma is_record_set_chain (line new : pystr) :
  (21 <= length line)%nat ->
  is_record (set_chain line new) = is_record line.
Proof.
  intros H.
  unfold is_record, set_chain, PyStr.startswith_any, PyStr.slice_to.
  cbn [existsb].
  assert (L : forall k, (k <= 21)%nat -> (k <= length (firstn 21 line))%nat)
    by (intros; rewrite length_firstn; lia).
  rewrite !startswith_app by (apply L; vm_compute; lia).
  rewrite !startswith_firstn by (vm_compute; lia). reflexivity.
Qed.

Section SpliceFacts.

Context {A : Type}.
Variables (line : list A) (k : nat).
Hypothesis Hk : (k < length line)%nat.

Lemma splice_length (x : A) :
  length (firstn k line ++ [x] ++ skipn (S k) line) = length line.
Proof.
  rewrite !length_app, length_firstn, length_skipn. simpl. lia.
Qed.

Lemma splice_nth_same (x : A) :
  nth_error (firstn k line ++ [x] ++ skipn (S k) line) k = Some x.
Proof.
  rewrite nth_error_app2 by (rewrite length_firstn; lia).
  rewrite length_firstn, Nat.min_l by lia. rewrite Nat.sub_diag. reflexivity.
Qed.

Lemma splice_nth_other (x : A) (j : nat) :
  j <> k ->
  nth_error (firstn k line ++ [x] ++ skipn (S k) line) j = nth_error line j.
Proof.
  intros Hj. destruct (Nat.lt_ge_cases j k) as [Hlt|Hge].
  - rewrite nth_error_app1 by (rewrite length_firstn; lia).
    rewrite nth_error_firstn.
    replace (j <? k)%nat with true by (symmetry; apply Nat.ltb_lt; lia).
    reflexivity.
  - rewrite nth_error_app2 by (rewrite length_firstn; lia).
    rewrite length_firstn, Nat.min_l by lia.
    destruct (j - k)%nat as [|d] eqn:E; [lia|]. cbn [app nth_error].
    rewrite nth_error_skipn. f_equal. lia.
Qed.

Lemma splice_same (x : A) :
  nth_error line k = Some x ->
  firstn k line ++ [x] ++ skipn (S k) line = line.
Proof.
  intros H. rewrite <- (firstn_skipn k line) at 3. f_equal.
  rewrite (@skipn_nth_cons _ line k x Hk), (nth_error_nth line k x H).
  reflexivity.
Qed.

Lemma splice_splice (x y : A) :
  firstn k (firstn k line ++ [x] ++ skipn (S k) line) ++ [y]
    ++ skipn (S k) (firstn k line ++ [x] ++ skipn (S k) line) =
  firstn k line ++ [y] ++ skipn (S k) line.
Proof.
  assert (L : length (firstn k line) = k) by (rewrite length_firstn; lia).
  rewrite firstn_app, L, Nat.sub_diag, firstn_O, app_nil_r.
  rewrite (firstn_all2 (n := k) (firstn k line)) by lia.
  rewrite skipn_app, L.
  rewrite (skipn_all2 (n := S k) (firstn k line)) by lia.
  replace (S k - k)%nat with 1%nat by lia. reflexivity.
Qed.

End SpliceFacts.

Lemma has_chain_some (line chain : pystr) :
  has_chain line chain = true ->
  exists c, nth_error line 21 = Some c /\ chain = [c].
Proof.
  unfold has_chain. destruct (nth_error line 21) as [c|]; [|discriminate].
  intros H. apply pystr_eqb_spec in H. eauto.
Qed.

Lemma has_chain_length (line chain : pystr) :
  has_chain line chain = true -> (21 < length line)%nat.
Proof.
  intros H. apply has_chain_some in H. destruct H as [c [H _]].
  apply nth_error_Some. congruence.
Qed.

(** [structural_alignment.change_chain_id] never raises, and renames
    line by line. *)
Lemma change_chain_id_lines (pdb_lines : list pystr) (old_chain new_chain : pystr) :
  structural_alignment.change_chain_id pdb_lines old_chain new_chain =
  Ok (map (rename_line old_chain new_chain) pdb_lines).
Proof.
  unfold structural_alignment.change_chain_id.
  rewrite (@for_each_map _ _ (rename_line old_chain new_chain)); [reflexivity|].
  intros line acc _. unfold rename_line, is_record, has_chain.
  destruct (PyStr.startswith_any line _) eqn:R; cbn [andb]; [|reflexivity].
  destruct (21 <? length line)%nat eqn:L.
  - apply Nat.ltb_lt in L.
    destruct (nth_error line 21) as [c|] eqn:E;
      [|apply nth_error_None in E; lia].
    change 21%Z with (Z.of_nat 21).
    rewrite (getitem_nth_error _ _ E). cbn [bind]. reflexivity.
  - apply Nat.ltb_ge in L.
    replace (nth_error line 21) with (@None ascii)
      by (symmetry; apply nth_error_None; lia).
    reflexivity.
Qed.

Lemma rename_line_layout (old line : pystr) (n : ascii) :
  same_but_at 21 line (rename_line old [n] line) /\
  nth_error (rename_line old [n] line) 21 =
    if is_record line && has_chain line old then Some n else nth_error line 21.
Proof.
  unfold rename_line, same_but_at.
  destruct (is_record line && has_chain line old) eqn:E; [|auto].
  apply andb_true_iff in E. destruct E as [_ E].
  apply has_chain_length in E. unfold set_chain, PyStr.slice_to, PyStr.slice_from.
  split; [split|].
  - apply splice_length. lia.
  - intros j Hj. apply splice_nth_other; assumption.
  - apply splice_nth_same. lia.
Qed.

(** [change_chain_id] of [structural_alignment.py] never raises
    and touches one column: it returns as many lines as it is given,
    each as long as it was and the same everywhere but at index 21,
    where a record of chain [old_chain] now has the new identifier and
    every other line has what it had. *)
Theorem change_chain_id_touches_one_column
        (pdb_lines : list pystr) (old_chain : pystr) (n : ascii) :
  exists modified,
    structural_alignment.change_chain_id pdb_lines old_chain [n] = Ok modified /\
    Forall2 (fun line line' =>
               same_but_at 21 line line' /\
               nth_error line' 21 =
                 if is_record line && has_chain line old_chain
                 then Some n else nth_error line 21)
            pdb_lines modified.
Proof.
  exists (map (rename_line old_chain [n]) pdb_lines).
  split; [apply change_chain_id_lines|].
  induction pdb_lines as [|line rest IH]; constructor.
  - apply rename_line_layout.
  - exact IH.
Qed.

Lemma rename_line_hit (line new : pystr) (c : ascii) :
  is_record line = true -> nth_error line 21 = Some c ->
  rename_line [c] new line = set_chain line new.
Proof.
  intros R E. unfold rename_line, has_chain. rewrite R, E.
  replace (PyStr.eqb [c] [c]) with true
    by (symmetry; apply pystr_eqb_spec; reflexivity).
  reflexivity.
Qed.

Lemma rename_line_miss (line new : pystr) (c o : ascii) :
  nth_error line 21 = Some c -> c <> o ->
  rename_line [o] new line = line.
Proof.
  intros E Hne. unfold rename_line, has_chain. rewrite E.
  destruct (PyStr.eqb [c] [o]) eqn:B.
  - apply pystr_eqb_spec in B. congruence.
  - rewrite andb_false_r. reflexivity.
Qed.

Lemma rename_line_other (old new line : pystr) :
  is_record line = false \/ nth_error line 21 = None ->
  rename_line old new line = line.
Proof.
  unfold rename_line, has_chain. intros [H|H]; rewrite H; [reflexivity|].
  rewrite andb_false_r. reflexivity.
Qed.

Lemma set_chain_chain (line : pystr) (n : ascii) :
  (21 < length line)%nat -> nth_error (set_chain line [n]) 21 = Some n.
Proof. intros H. apply splice_nth_same. exact H. Qed.

(** Renaming a chain and renaming it back gives the lines back,
    when no record had the new identifier to begin with. *)
Theorem change_chain_id_undo (pdb_lines : list pystr) (o n : ascii) :
  (forall line, In line pdb_lines -> is_record line = true ->
                nth_error line 21 <> Some n) ->
  exists modified,
    structural_alignment.change_chain_id pdb_lines [o] [n] = Ok modified /\
    structural_alignment.change_chain_id modified [n] [o] = Ok pdb_lines.
Proof.
  intros H. exists (map (rename_line [o] [n]) pdb_lines).
  split; [apply change_chain_id_lines|].
  rewrite change_chain_id_lines, map_map. f_equal.
  rewrite <- (map_id pdb_lines) at 2. apply map_ext_in. intros line Hin.
  destruct (is_record line) eqn:R;
    [|rewrite !(@rename_line_other _ _ line) by (left; exact R); reflexivity].
  destruct (nth_error line 21) as [c|] eqn:E;
    [|rewrite !(@rename_line_other _ _ line) by (right; exact E); reflexivity].
  assert (L : (21 < length line)%nat) by (apply nth_error_Some; congruence).
  destruct (ascii_dec c o) as [->|Hco].
  - rewrite (@rename_line_hit line _ _ R E).
    rewrite rename_line_hit;
      [| rewrite is_record_set_chain by lia; exact R
       | apply set_chain_chain; exact L].
    unfold set_chain, PyStr.slice_to, PyStr.slice_from.
    rewrite splice_splice by exact L. apply splice_same; assumption.
  - rewrite (@rename_line_miss line _ _ _ E Hco).
    apply (@rename_line_miss line _ _ _ E). intros ->.
    apply (H line Hin R). exact E.
Qed.

Lemma change_chain_id_undo_witness :
  exists modified,
    structural_alignment.change_chain_id
      [str "ATOM      1  N   MET A   1"; str "TER"] [ascii_of_nat 65] [ascii_of_nat 87]
      = Ok modified /\
    structural_alignment.change_chain_id modified [ascii_of_nat 87] [ascii_of_nat 65]
      = Ok [str "ATOM      1  N   MET A   1"; str "TER"].
Proof.
  apply change_chain_id_undo.
  intros line [<-|[<-|[]]] _; vm_compute; discriminate.
Defined.

Lemma four_renames_line (line : pystr) :
  rename_line (lit "D") (lit "Z")
    (rename_line (lit "C") (lit "Y")
       (rename_line (lit "B") (lit "X")
          (rename_line (lit "A") (lit "W") line))) =
  relabel_line line.
Proof.
  unfold relabel_line. cbn [list_ascii_of_string].
  destruct (nth_error line 21) as [c|] eqn:E;
    [|rewrite !(@rename_line_other _ _ line) by (right; exact E); reflexivity].
  destruct (is_record line) eqn:R;
    [|rewrite !(@rename_line_other _ _ line) by (left; exact R); reflexivity].
  assert (L : (21 < length line)%nat) by (apply nth_error_Some; congruence).
  assert (R' : forall n, is_record (set_chain line [n]) = true)
    by (intros n; rewrite is_record_set_chain by lia; exact R).
  unfold chain_relabel.
  repeat
    match goal with
    | |- context [Ascii.eqb c ?x] =>
        destruct (Ascii.eqb_spec c x) as [->|?]
    end;
    repeat
      first
        [ rewrite (@rename_line_hit line _ _ R E)
        | rewrite (@rename_line_miss line _ _ _ E)
            by (assumption || discriminate)
        | rewrite (@rename_line_miss (set_chain line _) _ _ _
                     (@set_chain_chain line _ L)) by discriminate ];
    first [ reflexivity | symmetry; apply splice_same; assumption ].
Qed.

(** The four renamings [main] of [structural_alignment.py] runs
    one after the other, A to W, B to X, C to Y and D to Z, do not feed
    into each other: together they rename the four chains at once, each
    record getting the new identifier of the chain it had, every other
    line staying as it was. *)
Theorem template_chains_renamed_at_once (template_protein : list pystr) :
  structural_alignment.rename_template_chains template_protein =
  Ok (map relabel_line template_protein).
Proof.
  unfold structural_alignment.rename_template_chains.
  rewrite !change_chain_id_lines. cbn [bind].
  rewrite !change_chain_id_lines. cbn [bind].
  rewrite !change_chain_id_lines. cbn [bind].
  rewrite !change_chain_id_lines, !map_map.
  f_equal. apply map_ext. intros line. apply four_renames_line.
Qed.

(** [assemble_tetramer.change_chain_id] writes the identifier into every
    record, whatever its length. *)
Lemma tetramer_change_chain_id_lines (pdb_lines : list pystr) (new_chain_id : pystr) :
  assemble_tetramer.change_chain_id pdb_lines new_chain_id =
  map (fun line => if is_record line then set_chain line new_chain_id else line)
      pdb_lines.
Proof.
  unfold assemble_tetramer.change_chain_id.
  set (f := fun line : pystr =>
              if is_record line then set_chain line new_chain_id else line).
  match goal with |- fold_left ?b _ _ = _ => set (body := b) end.
  assert (H : forall acc, fold_left body pdb_lines acc = acc ++ map f pdb_lines).
  { induction pdb_lines as [|line rest IH]; intros acc; cbn [fold_left map].
    - rewrite app_nil_r. reflexivity.
    - rewrite IH. unfold body, f, is_record.
      destruct (PyStr.startswith_any line _);
        rewrite <- app_assoc; reflexivity. }
  apply H.
Qed.

(** [change_chain_id] of [assemble_tetramer.py] does not look at
    the length of a record.  A record of more than 21 characters keeps
    its length and gets the identifier at index 21, the rest of it
    unchanged; a record of at most 21 characters, such as a bare
    [TER] line, gets the identifier appended after its end, line
    break included; every other line is returned as it is. *)
Theorem tetramer_change_chain_id_layout (pdb_lines : list pystr) (n : ascii) :
  Forall2 (fun line line' =>
             if is_record line
             then if (21 <? length line)%nat
                  then same_but_at 21 line line' /\ nth_error line' 21 = Some n
                  else line' = line ++ [n]
             else line' = line)
          pdb_lines (assemble_tetramer.change_chain_id pdb_lines [n]).
Proof.
  rewrite tetramer_change_chain_id_lines.
  induction pdb_lines as [|line rest IH]; constructor; [|exact IH].
  destruct (is_record line); [|reflexivity].
  unfold set_chain, PyStr.slice_to, PyStr.slice_from.
  destruct (21 <? length line)%nat eqn:L.
  - apply Nat.ltb_lt in L. split; [split|].
    + apply splice_length. exact L.
    + intros j Hj. apply splice_nth_other; assumption.
    + apply splice_nth_same. exact L.
  - apply Nat.ltb_ge in L.
    rewrite firstn_all2, skipn_all2 by lia. reflexivity.
Qed.

(** [get_atoms_by_chain] never raises: it keeps the lines that have the
    identifier at index 21. *)
Lemma get_atoms_by_chain_filter (pdb_lines : list pystr) (chain_id : pystr) :
  assemble_tetramer.get_atoms_by_chain pdb_lines chain_id =
  Ok (filter (fun line => has_chain line chain_id) pdb_lines).
Proof.
  unfold assemble_tetramer.get_atoms_by_chain.
  rewrite (@for_each_flat_map _ _
             (fun line => if has_chain line chain_id then [line] else [])).
  - cbn [app]. f_equal. induction pdb_lines as [|line rest IH]; cbn [flat_map filter].
    + reflexivity.
    + rewrite IH. destruct (has_chain line chain_id); reflexivity.
  - intros line acc _. unfold has_chain.
    destruct (21 <? length line)%nat eqn:L.
    + apply Nat.ltb_lt in L.
      destruct (nth_error line 21) as [c|] eqn:E;
        [|apply nth_error_None in E; lia].
      change 21%Z with (Z.of_nat 21).
      rewrite (getitem_nth_error _ _ E). cbn [bind].
      destruct (PyStr.eqb [c] chain_id); [reflexivity|].
      rewrite app_nil_r. reflexivity.
    + apply Nat.ltb_ge in L.
      replace (nth_error line 21) with (@None ascii)
        by (symmetry; apply nth_error_None; lia).
      cbn [bind]. rewrite app_nil_r. reflexivity.
Qed.

(** After [change_chain_id] has given the records of a model a
    chain identifier, [get_atoms_by_chain] with that identifier finds
    them all, when every line is a record of more than 21 characters. *)
Theorem renamed_chain_is_selected (pdb_lines : list pystr) (n : ascii) :
  Forall (fun line => is_record line = true /\ (21 < length line)%nat) pdb_lines ->
  assemble_tetramer.get_atoms_by_chain
    (assemble_tetramer.change_chain_id pdb_lines [n]) [n] =
  Ok (assemble_tetramer.change_chain_id pdb_lines [n]).
Proof.
  intros H. rewrite get_atoms_by_chain_filter. f_equal.
  rewrite tetramer_change_chain_id_lines.
  induction H as [|line rest [R L] _ IH]; cbn [map filter].
  - reflexivity.
  - rewrite R. unfold has_chain at 1.
    rewrite (@set_chain_chain line n L).
    replace (PyStr.eqb [n] [n]) with true
      by (symmetry; apply pystr_eqb_spec; reflexivity).
    f_equal. exact IH.
Qed.

Lemma renamed_chain_is_selected_witness :
  assemble_tetramer.get_atoms_by_chain
    (assemble_tetramer.change_chain_id
       [str "ATOM      1  N   MET X   1"; str "TER       2      MET X   1"]
       [ascii_of_nat 65])
    [ascii_of_nat 65] =
  Ok (assemble_tetramer.change_chain_id
        [str "ATOM      1  N   MET X   1"; str "TER       2      MET X   1"]
        [ascii_of_nat 65]).
Proof.
  apply renamed_chain_is_selected.
  repeat constructor.
Defined.

(** ** Decimal numbers in a field of five characters *)

Lemma digits_fuel_short (k fuel : nat) (n : Z) :
  (0 <= n < 10 ^ Z.of_nat (S k))%Z ->
  (length (PyStr.digits_fuel fuel n) <= S k)%nat.
Proof.
  revert fuel n. induction k as [|k IH]; intros [|fuel] n H;
    cbn [PyStr.digits_fuel length]; try lia.
  - destruct (n <? 10)%Z eqn:E; [simpl; lia|].
    apply Z.ltb_ge in E. change (10 ^ Z.of_nat 1)%Z with 10%Z in H. lia.
  - destruct (n <? 10)%Z eqn:E; [simpl; lia|].
    apply Z.ltb_ge in E. rewrite length_app. cbn [length].
    assert (length (PyStr.digits_fuel fuel (n / 10)) <= S k)%nat; [|lia].
    apply IH. split; [apply Z.div_pos; lia|].
    apply Z.div_lt_upper_bound; [lia|].
    replace (Z.of_nat (S (S k))) with (Z.succ (Z.of_nat (S k))) in H by lia.
    rewrite Z.pow_succ_r in H by lia. lia.
Qed.

Lemma digits_fuel_long (k fuel : nat) (n : Z) :
  (10 ^ Z.of_nat k <= n)%Z -> (Z.log2 n < Z.of_nat fuel)%Z ->
  (S k <= length (PyStr.digits_fuel fuel n))%nat.
Proof.
  revert fuel n. induction k as [|k IH]; intros [|fuel] n H F;
    try (pose proof (Z.log2_nonneg n); lia);
    cbn [PyStr.digits_fuel].
  - destruct (n <? 10)%Z; [simpl; lia|]. rewrite length_app. simpl. lia.
  - replace (Z.of_nat (S k)) with (Z.succ (Z.of_nat k)) in H by lia.
    rewrite Z.pow_succ_r in H by lia.
    assert (P : (0 < 10 ^ Z.of_nat k)%Z) by (apply Z.pow_pos_nonneg; lia).
    destruct (n <? 10)%Z eqn:E; [apply Z.ltb_lt in E; lia|].
    rewrite length_app. cbn [length].
    assert (S k <= length (PyStr.digits_fuel fuel (n / 10)))%nat; [|lia].
    apply IH.
    + apply Z.div_le_lower_bound; lia.
    + assert (Z.log2 (n / 10) <= Z.log2 (n / 2))%Z.
      { apply Z.log2_le_mono. apply Z.div_le_compat_l; lia. }
      assert (0 < n / 2)%Z by (apply Z.div_str_pos; lia).
      pose proof (Z.log2_double (n / 2) ltac:(lia)) as D.
      assert (Z.log2 (2 * (n / 2)) <= Z.log2 n)%Z
        by (apply Z.log2_le_mono; pose proof (Z.mul_div_le n 2); lia).
      lia.
Qed.

Lemma format_d_fits (n : Z) :
  (0 <= n < 100000)%Z -> length (PyStr.format_d 5 n) = 5%nat.
Proof.
  intros H. unfold PyStr.format_d, PyStr.decimal.
  replace (n <? 0)%Z with false by (symmetry; apply Z.ltb_ge; lia).
  cbv zeta. rewrite length_app, repeat_length.
  pose proof (@digits_fuel_short 4 (S (Z.to_nat (Z.log2 n))) n H) as L.
  unfold PyStr.digits. lia.
Qed.

Lemma format_d_overflows (n : Z) :
  (100000 <= n)%Z -> (5 < length (PyStr.format_d 5 n))%nat.
Proof.
  intros H. unfold PyStr.format_d, PyStr.decimal.
  replace (n <? 0)%Z with false by (symmetry; apply Z.ltb_ge; lia).
  cbv zeta. rewrite length_app, repeat_length.
  assert (L : (6 <= length (PyStr.digits n))%nat); [|lia].
  unfold PyStr.digits. apply (@digits_fuel_long 5); [exact H|].
  pose proof (Z.log2_nonneg n). lia.
Qed.

(** ** Renumbering *)

Lemma renumber_atoms_cons (line : pystr) (rest : list pystr) (start_num : Z) :
  assemble_tetramer.renumber_atoms (line :: rest) start_num =
  if is_atom line
  then let r := assemble_tetramer.renumber_atoms rest (start_num + 1) in
       ((PyStr.slice_to line 6 ++ PyStr.format_d 5 start_num
         ++ PyStr.slice_from line 11) :: fst r, snd r)
  else let r := assemble_tetramer.renumber_atoms rest start_num in
       (line :: fst r, snd r).
Proof.
  unfold assemble_tetramer.renumber_atoms, is_atom. cbn [fold_left].
  match goal with |- fold_left ?b _ _ = _ => set (body := b) end.
  assert (H : forall ls acc n,
             fold_left body ls (acc, n) =
             (acc ++ fst (fold_left body ls ([], n)),
              snd (fold_left body ls ([], n)))).
  { induction ls as [|l ls IH]; intros acc n; cbn [fold_left].
    - cbn [fst snd]. rewrite app_nil_r. reflexivity.
    - unfold body at 2 4 6. destruct (PyStr.startswith_any l _);
        rewrite IH; rewrite (IH ([] ++ _)); cbn [fst snd];
        rewrite <- app_assoc; reflexivity. }
  destruct (PyStr.startswith_any line _); cbn [app]; rewrite H; reflexivity.
Qed.

(** Renumbering threads its counter: the number it returns is the
    first number it has not used, so that renumbering a list in two
    parts, the second from the number the first returns, gives what
    renumbering it in one piece gives. *)
Theorem renumber_atoms_in_parts (part1 part2 : list pystr) (start_num : Z) :
  assemble_tetramer.renumber_atoms (part1 ++ part2) start_num =
    (fst (assemble_tetramer.renumber_atoms part1 start_num)
     ++ fst (assemble_tetramer.renumber_atoms part2
               (snd (assemble_tetramer.renumber_atoms part1 start_num))),
     snd (assemble_tetramer.renumber_atoms part2
            (snd (assemble_tetramer.renumber_atoms part1 start_num)))) /\
  snd (assemble_tetramer.renumber_atoms part1 start_num) =
    (start_num + Z.of_nat (atom_count part1))%Z.
Proof.
  revert start_num.
  induction part1 as [|line rest IH]; intros start_num.
  - cbn [app]. unfold atom_count. cbn.
    split; [|lia]. destruct (assemble_tetramer.renumber_atoms part2 start_num).
    reflexivity.
  - cbn [app]. rewrite !renumber_atoms_cons. unfold atom_count. cbn [filter].
    destruct (is_atom line); cbv zeta; cbn [fst snd length].
    + destruct (IH (start_num + 1)%Z) as [E1 E2]. rewrite E1. cbn [fst snd app].
      split; [reflexivity|]. rewrite E2. unfold atom_count. lia.
    + destruct (IH start_num) as [E1 E2]. rewrite E1. cbn [fst snd app].
      split; [reflexivity|]. exact E2.
Qed.

Lemma renumbered_line_layout (line : pystr) (n : Z) :
  (11 <= length line)%nat -> (0 <= n < 100000)%Z ->
  same_outside 6 11 line
    (PyStr.slice_to line 6 ++ PyStr.format_d 5 n ++ PyStr.slice_from line 11).
Proof.
  intros L H. pose proof (format_d_fits H) as F.
  unfold same_outside, PyStr.slice_to, PyStr.slice_from.
  assert (L6 : length (firstn 6 line) = 6%nat) by (rewrite length_firstn; lia).
  split.
  - rewrite !length_app, L6, F, length_skipn. lia.
  - intros j [Hj|Hj].
    + rewrite nth_error_app1 by lia. rewrite nth_error_firstn.
      replace (j <? 6)%nat with true by (symmetry; apply Nat.ltb_lt; lia).
      reflexivity.
    + rewrite nth_error_app2 by lia. rewrite nth_error_app2 by lia.
      rewrite nth_error_skipn, L6, F. f_equal. lia.
Qed.

(** Renumbering keeps the layout of the records while the numbers
    fit the five columns of the serial number: when the numbers it
    hands out stay between 0 and 99999 and every atom record has its
    eleven leading characters, each atom record keeps its length and
    all it holds outside the indices 6 to 10, and every other line is
    returned as it is. *)
Theorem renumber_atoms_layout (pdb_lines : list pystr) (start_num : Z) :
  (0 <= start_num)%Z ->
  (start_num + Z.of_nat (atom_count pdb_lines) <= 100000)%Z ->
  Forall (fun line => is_atom line = true -> (11 <= length line)%nat) pdb_lines ->
  Forall2 (fun line line' =>
             if is_atom line then same_outside 6 11 line line' else line' = line)
          pdb_lines
          (fst (assemble_tetramer.renumber_atoms pdb_lines start_num)).
Proof.
  intros H0 H1 H. revert start_num H0 H1.
  induction H as [|line rest L _ IH]; intros start_num H0 H1.
  - constructor.
  - rewrite renumber_atoms_cons. unfold atom_count in H1. cbn [filter] in H1.
    destruct (is_atom line) eqn:A; cbv zeta; cbn [fst length] in *.
    + constructor.
      * rewrite A. apply renumbered_line_layout; [auto | lia].
      * apply IH; unfold atom_count; lia.
    + constructor; [rewrite A; reflexivity|].
      apply IH; unfold atom_count; lia.
Qed.

Lemma renumber_atoms_layout_witness :
  Forall2 (fun line line' =>
             if is_atom line then same_outside 6 11 line line' else line' = line)
          [str "ATOM      7  N   MET A   1"; str "TER"; str "HETATM    9 MG    MG A 900"]
          (fst (assemble_tetramer.renumber_atoms
                  [str "ATOM      7  N   MET A   1"; str "TER";
                   str "HETATM    9 MG    MG A 900"] 1)).
Proof.
  apply renumber_atoms_layout.
  - lia.
  - vm_compute. discriminate.
  - repeat (constructor;
            [first [ intros H; vm_compute in H; discriminate H
                   | intros _; vm_compute; lia ]|]).
    constructor.
Defined.

(** From the number 100000 on the serial number no longer fits
    its five columns: the record grows, and what followed the serial
    number, the chain identifier and the coordinates among it, stands
    further to the right than the format has it. *)
Theorem renumber_atoms_overflow (line : pystr) (n : Z) :
  is_atom line = true -> (11 <= length line)%nat -> (100000 <= n)%Z ->
  exists line',
    assemble_tetramer.renumber_atoms [line] n = ([line'], (n + 1)%Z) /\
    (length line < length line')%nat /\
    exists shift, (11 < shift)%nat /\
                  PyStr.slice_from line' shift = PyStr.slice_from line 11.
Proof.
  intros A L H. rewrite renumber_atoms_cons, A. cbv zeta.
  eexists. split; [reflexivity|].
  pose proof (format_d_overflows H) as F.
  unfold PyStr.slice_to, PyStr.slice_from.
  assert (L6 : length (firstn 6 line) = 6%nat) by (rewrite length_firstn; lia).
  split.
  - rewrite !length_app, L6, length_skipn. lia.
  - exists (6 + length (PyStr.format_d 5 n))%nat. split; [lia|].
    rewrite app_assoc, skipn_app.
    rewrite skipn_all2 by (rewrite length_app; lia).
    rewrite length_app, L6, Nat.sub_diag. reflexivity.
Qed.

Lemma renumber_atoms_overflow_witness :
  exists line',
    assemble_tetramer.renumber_atoms
      [str "ATOM  99999  N   MET A   1"] 100000 = ([line'], (100000 + 1)%Z) /\
    (length (str "ATOM  99999  N   MET A   1") < length line')%nat /\
    exists shift, (11 < shift)%nat /\
                  PyStr.slice_from line' shift =
                  PyStr.slice_from (str "ATOM  99999  N   MET A   1") 11.
Proof.
  apply renumber_atoms_overflow.
  - reflexivity.
  - vm_compute. repeat constructor.
  - lia.
Defined.

(** * Properties of the text files the scripts exchange *)

(** ** Lines *)

Lemma lines_from_line (body : pystr) :
  one_line body ->
  forall cur rest,
    PyStr.lines_from cur (body ++ PyStr.LF :: rest) =
    (cur ++ ended body) :: PyStr.lines_from [] rest.
Proof.
  unfold one_line, ended.
  induction body as [|c body IH]; intros H cur rest.
  - reflexivity.
  - cbn [forallb] in H. apply andb_true_iff in H. destruct H as [Hc H].
    apply negb_true_iff, orb_false_iff in Hc. destruct Hc as [H1 H2].
    cbn [app PyStr.lines_from]. rewrite H1, H2.
    rewrite (IH H). rewrite <- app_assoc. reflexivity.
Qed.

(** Reading back what was written line by line gives the lines. *)
Lemma readlines_lines (bodies : list pystr) :
  Forall one_line bodies ->
  PyStr.readlines (concat (map ended bodies)) = map ended bodies.
Proof.
  unfold PyStr.readlines. induction 1 as [|body rest H _ IH].
  - reflexivity.
  - cbn [map concat]. unfold ended at 1. rewrite <- app_assoc. cbn [app].
    rewrite (lines_from_line H). rewrite IH. reflexivity.
Qed.

Lemma fold_left_write (parts : list pystr) (f : pystr) :
  fold_left PyStr.write parts f = f ++ concat parts.
Proof.
  revert f. induction parts as [|part rest IH]; intros f; cbn [fold_left concat].
  - rewrite app_nil_r. reflexivity.
  - rewrite IH. unfold PyStr.write. rewrite app_assoc. reflexivity.
Qed.

Lemma one_line_app (a b : pystr) : one_line a -> one_line b -> one_line (a ++ b).
Proof.
  unfold one_line. intros Ha Hb. rewrite forallb_app, Ha, Hb. reflexivity.
Qed.

Lemma no_space_one_line (s : pystr) : no_space s -> one_line s.
Proof.
  unfold no_space, one_line. rewrite !forallb_forall. intros H c Hc.
  specialize (H c Hc). apply negb_true_iff in H. apply negb_true_iff.
  apply orb_false_iff. split.
  - destruct (Ascii.eqb_spec c PyStr.LF) as [->|]; [discriminate H | reflexivity].
  - destruct (Ascii.eqb_spec c PyStr.CR) as [->|]; [discriminate H | reflexivity].
Qed.

(** ** White space *)

Lemma lstrip_app (a b : pystr) :
  PyStr.lstrip (a ++ b) =
  match PyStr.lstrip a with
  | [] => PyStr.lstrip b
  | _ :: _ => PyStr.lstrip a ++ b
  end.
Proof.
  induction a as [|c a IH]; cbn [app PyStr.lstrip].
  - reflexivity.
  - destruct (PyStr.isspace c); [exact IH | reflexivity].
Qed.

Lemma rstrip_snoc_space (s : pystr) (c : ascii) :
  PyStr.isspace c = true -> PyStr.rstrip (s ++ [c]) = PyStr.rstrip s.
Proof.
  intros H. unfold PyStr.rstrip. rewrite rev_app_distr. cbn [rev app PyStr.lstrip].
  rewrite H. reflexivity.
Qed.

(** The line break at the end of a line is stripped with the rest. *)
Lemma strip_ended (s : pystr) : PyStr.strip (ended s) = PyStr.strip s.
Proof.
  unfold PyStr.strip, ended. rewrite lstrip_app.
  destruct (PyStr.lstrip s) as [|c t] eqn:E.
  - reflexivity.
  - apply rstrip_snoc_space. reflexivity.
Qed.

Lemma lstrip_no_space (s : pystr) : no_space s -> PyStr.lstrip s = s.
Proof.
  unfold no_space. destruct s as [|c s]; cbn [forallb PyStr.lstrip].
  - reflexivity.
  - intros H. apply andb_true_iff in H. destruct H as [H _].
    apply negb_true_iff in H. rewrite H. reflexivity.
Qed.

Lemma strip_no_space (s : pystr) : no_space s -> PyStr.strip s = s.
Proof.
  intros H. unfold PyStr.strip, PyStr.rstrip.
  rewrite (lstrip_no_space H), lstrip_no_space, rev_involutive; [reflexivity|].
  unfold no_space in *. rewrite forallb_forall in *.
  intros c Hc. apply H. apply in_rev. exact Hc.
Qed.

Lemma no_space_app (a b : pystr) : no_space a -> no_space b -> no_space (a ++ b).
Proof.
  unfold no_space. intros Ha Hb. rewrite forallb_app, Ha, Hb. reflexivity.
Qed.

Lemma split_from_no_space (s : pystr) :
  no_space s ->
  forall cur, cur ++ s <> [] -> PyStr.split_from cur s = [cur ++ s].
Proof.
  unfold no_space. induction s as [|c s IH]; intros H cur Hne.
  - rewrite app_nil_r in *. destruct cur; [congruence | reflexivity].
  - cbn [forallb] in H. apply andb_true_iff in H. destruct H as [Hc H].
    apply negb_true_iff in Hc. cbn [PyStr.split_from]. rewrite Hc.
    rewrite (IH H); rewrite <- app_assoc; [reflexivity|].
    cbn [app]. destruct cur; discriminate.
Qed.

Lemma split_no_space (s : pystr) :
  no_space s -> s <> [] -> PyStr.split s = [s].
Proof.
  intros H Hne. unfold PyStr.split. apply (split_from_no_space H []). exact Hne.
Qed.

(** ** Alignment files *)

Lemma write_block_lines (f target_name template_name aligned_target
                           aligned_template : pystr) :
  generate_alignment.write_block f target_name template_name aligned_target
                                 aligned_template =
  f ++ concat (map ended
                 [lit "## " ++ target_name ++ lit " " ++ template_name;
                  lit "#";
                  lit "scores_from_program: 0";
                  lit "0 " ++ aligned_target;
                  lit "0 " ++ aligned_template;
                  lit "--"]).
Proof.
  unfold generate_alignment.write_block, PyStr.write, ended.
  cbn [map concat]. rewrite app_nil_r, <- !app_assoc. reflexivity.
Qed.

Lemma block_one_line (target_name template_name aligned_target
                        aligned_template : pystr) :
  one_line target_name -> one_line template_name ->
  one_line aligned_target -> one_line aligned_template ->
  Forall one_line
         [lit "## " ++ target_name ++ lit " " ++ template_name;
          lit "#";
          lit "scores_from_program: 0";
          lit "0 " ++ aligned_target;
          lit "0 " ++ aligned_template;
          lit "--"].
Proof.
  intros H1 H2 H3 H4.
  repeat constructor; repeat apply one_line_app; try assumption; reflexivity.
Qed.

(** An alignment written by [write_grishin_alignment] and read
    by [parse_grishin_alignment] comes back: the two aligned rows under
    the keys [mabs] and [mtb], each without the white space it may have
    had at its ends, when neither the names nor the rows hold a line
    break. *)
Theorem grishin_round_trip
        (target_name target_seq template_name template_seq
         aligned_target aligned_template : pystr) :
  one_line target_name -> one_line template_name ->
  one_line aligned_target -> one_line aligned_template ->
  check_binding_conservation.parse_grishin_alignment
    (generate_alignment.write_grishin_alignment
       target_name target_seq template_name template_seq
       aligned_target aligned_template) =
  [(lit "mabs", PyStr.strip aligned_target);
   (lit "mtb", PyStr.strip aligned_template)].
Proof.
  intros H1 H2 H3 H4.
  unfold generate_alignment.write_grishin_alignment,
         check_binding_conservation.parse_grishin_alignment.
  rewrite write_block_lines. cbn [app].
  rewrite (readlines_lines (block_one_line H1 H2 H3 H4)).
  cbn [map length seq combine fold_left].
  cbn -[PyStr.strip]. rewrite !startswith_nil.
  change (aligned_target ++ _) with (ended aligned_target).
  change (aligned_template ++ _) with (ended aligned_template).
  rewrite !strip_ended. reflexivity.
Qed.

Lemma grishin_round_trip_witness :
  check_binding_conservation.parse_grishin_alignment
    (generate_alignment.write_grishin_alignment
       (str "target") (str "ACGT") (str "5bs8A") (str "AGT")
       (str "ACGT") (str "A-GT")) =
  [(lit "mabs", PyStr.strip (str "ACGT"));
   (lit "mtb", PyStr.strip (str "A-GT"))].
Proof.
  apply grishin_round_trip; reflexivity.
Defined.

Lemma lookup_Ok_In (K V : Type) (eqb : K -> K -> bool)
      (eqb_spec : forall a b, eqb a b = true <-> a = b)
      (d : list (K * V)) (k : K) (v : V) :
  lookup eqb d k = Ok v -> In (k, v) d.
Proof.
  induction d as [|[k' v'] d IH]; simpl; [discriminate|].
  destruct (eqb k' k) eqn:E.
  - apply eqb_spec in E. subst k'. intros H. inversion H. left. reflexivity.
  - intros H. right. apply IH. exact H.
Qed.

(** The rows of an alignment hold nothing but the symbols of the
    sequences and the gap symbol. *)
Lemma forallb_top (P : ascii -> bool) (cols : list column) :
  P GAP = true -> forallb P (consumed1 cols) = true ->
  forallb P (map top cols) = true.
Proof.
  intros G. induction cols as [|[a b|a|b] cols IH]; cbn [consumed1 flat_map map top forallb app];
    try (fold (consumed1 cols)); intros H.
  - reflexivity.
  - apply andb_true_iff in H. destruct H as [-> H]. exact (IH H).
  - apply andb_true_iff in H. destruct H as [-> H]. exact (IH H).
  - rewrite G. exact (IH H).
Qed.

Lemma forallb_bottom (P : ascii -> bool) (cols : list column) :
  P GAP = true -> forallb P (consumed2 cols) = true ->
  forallb P (map bottom cols) = true.
Proof.
  intros G. induction cols as [|[a b|a|b] cols IH]; cbn [consumed2 flat_map map bottom forallb app];
    try (fold (consumed2 cols)); intros H.
  - reflexivity.
  - apply andb_true_iff in H. destruct H as [-> H]. exact (IH H).
  - rewrite G. exact (IH H).
  - apply andb_true_iff in H. destruct H as [-> H]. exact (IH H).
Qed.

(** [simple_align] returns for every two strings, and rows of one line
    for sequences of one line. *)
Lemma simple_align_rows (seq1 seq2 : pystr) :
  exists aligned1 aligned2,
    generate_alignment.simple_align seq1 seq2 = Ok (aligned1, aligned2) /\
    (one_line seq1 -> one_line aligned1) /\
    (one_line seq2 -> one_line aligned2) /\
    (no_space seq1 -> no_space aligned1) /\
    (no_space seq2 -> no_space aligned2).
Proof.
  rewrite simple_align_eq.
  destruct (needleman_wunsch_columns seq1 seq2 2 (-1) (-2))
    as [score [cols [_ [_ [E [H1 H2]]]]]].
  exists (map top cols), (map bottom cols). split; [exact E|].
  unfold one_line, no_space. rewrite <- H1 at 1 2. rewrite <- H2 at 1 2.
  repeat split; intros H;
    first [ apply forallb_top | apply forallb_bottom ];
    solve [ reflexivity | exact H ].
Qed.

Lemma second_or_first_value (seqs : list (pystr * pystr)) :
  seqs <> [] ->
  exists name s, generate_alignment.second_or_first seqs = Ok s /\ In (name, s) seqs.
Proof.
  intros Hne. unfold generate_alignment.second_or_first, keys.
  destruct seqs as [|[k0 v0] [|[k1 v1] rest]]; [congruence | |].
  - exists k0, v0. cbn. rewrite (proj2 (pystr_eqb_spec k0 k0) eq_refl).
    auto.
  - replace (1 <? Z.of_nat (length (map fst ((k0, v0) :: (k1, v1) :: rest))))%Z
      with true by (symmetry; apply Z.ltb_lt; cbn [map length]; lia).
    change 1%Z with (Z.of_nat 1).
    rewrite (@getitem_nth_error _ (map fst ((k0, v0) :: (k1, v1) :: rest))
               1 k1 eq_refl).
    cbn [bind].
    destruct (@lookup_mem _ _ PyStr.eqb pystr_eqb_spec
                ((k0, v0) :: (k1, v1) :: rest) k1) as [s E].
    { right. left. reflexivity. }
    exists k1, s. split; [exact E|].
    apply (@lookup_Ok_In _ _ PyStr.eqb pystr_eqb_spec _ _ _ E).
Qed.

(** [parse_grishin_alignment] reads the fourth and the fifth line of a
    file and nothing else. *)
Lemma parse_grishin_tail (more : list pystr) :
  forall (lo : nat) (acc : list (pystr * pystr)),
    (5 <= lo)%nat ->
    fold_left
      (fun sequences '(i, line) =>
         if PyStr.startswith line (lit "0 ") then
           let sequence := PyStr.strip (PyStr.slice_from line 2) in
           if (i =? 3)%nat then dict_set PyStr.eqb sequences (lit "mabs") sequence
           else if (i =? 4)%nat
                then dict_set PyStr.eqb sequences (lit "mtb") sequence
                else sequences
         else sequences)
      (combine (seq lo (length more)) more) acc = acc.
Proof.
  induction more as [|line more IH]; intros lo acc H; cbn [length seq combine fold_left].
  - reflexivity.
  - replace (lo =? 3)%nat with false by (symmetry; apply Nat.eqb_neq; lia).
    replace (lo =? 4)%nat with false by (symmetry; apply Nat.eqb_neq; lia).
    cbv zeta. destruct (PyStr.startswith line (lit "0 ")); apply IH; lia.
Qed.

Lemma parse_grishin_lines (text l0 l1 l2 row3 row4 : pystr) (more : list pystr) :
  PyStr.readlines text =
    l0 :: l1 :: l2 :: ended (lit "0 " ++ row3) :: ended (lit "0 " ++ row4) :: more ->
  check_binding_conservation.parse_grishin_alignment text =
    [(lit "mabs", PyStr.strip row3); (lit "mtb", PyStr.strip row4)].
Proof.
  intros H. unfold check_binding_conservation.parse_grishin_alignment.
  rewrite H. cbn [length seq combine fold_left].
  rewrite parse_grishin_tail by lia.
  change (0 =? 3)%nat with false. change (0 =? 4)%nat with false.
  change (1 =? 3)%nat with false. change (1 =? 4)%nat with false.
  change (2 =? 3)%nat with false. change (2 =? 4)%nat with false.
  change (3 =? 3)%nat with true. change (4 =? 3)%nat with false.
  change (4 =? 4)%nat with true. cbv zeta.
  destruct (PyStr.startswith l0 (lit "0 ")), (PyStr.startswith l1 (lit "0 ")),
    (PyStr.startswith l2 (lit "0 "));
    cbn [ended app list_ascii_of_string PyStr.startswith Ascii.eqb Bool.eqb andb
         PyStr.slice_from skipn];
    rewrite !startswith_nil;
    change (row3 ++ [PyStr.LF]) with (ended row3);
    change (row4 ++ [PyStr.LF]) with (ended row4);
    rewrite !strip_ended; reflexivity.
Qed.

Lemma getitem_head (A : Type) (x : A) (l : list A) : getitem (x :: l) 0 = Ok x.
Proof.
  change 0%Z with (Z.of_nat 0). apply getitem_nth_error. reflexivity.
Qed.

(** What [create_dimer_alignment] writes when neither dictionary is
    empty: the block of the first sequences, then the block of the
    second ones, or of the first ones again where there is no second. *)
Lemma create_dimer_alignment_text
      (k t k' m : pystr) (rest_t rest_m : list (pystr * pystr))
      (template_name : pystr) :
  exists a1 a2 tb mb b1 b2,
    generate_alignment.simple_align t m = Ok (a1, a2) /\
    In tb (map snd ((k, t) :: rest_t)) /\
    In mb (map snd ((k', m) :: rest_m)) /\
    generate_alignment.simple_align tb mb = Ok (b1, b2) /\
    generate_alignment.create_dimer_alignment
      ((k, t) :: rest_t) ((k', m) :: rest_m) template_name =
    Ok (generate_alignment.write_block
          (generate_alignment.write_block
             [] (lit "Target_ChainA") (template_name ++ lit "_ChainA") a1 a2)
          (lit "Target_ChainB") (template_name ++ lit "_ChainB") b1 b2).
Proof.
  destruct (simple_align_rows t m) as [a1 [a2 [Ea _]]].
  destruct (@second_or_first_value ((k, t) :: rest_t)) as [nt [tb [Et It]]];
    [discriminate|].
  destruct (@second_or_first_value ((k', m) :: rest_m)) as [nm [mb [Em Im]]];
    [discriminate|].
  destruct (simple_align_rows tb mb) as [b1 [b2 [Eb _]]].
  exists a1, a2, tb, mb, b1, b2.
  split; [exact Ea|].
  split; [apply in_map_iff; exists (nt, tb); auto|].
  split; [apply in_map_iff; exists (nm, mb); auto|].
  split; [exact Eb|].
  unfold generate_alignment.create_dimer_alignment, keys. cbn [map fst].
  rewrite !getitem_head. cbn [bind].
  rewrite !(lookup_first PyStr.eqb pystr_eqb_spec). cbn [bind].
  rewrite Et, Em. cbn [bind]. rewrite Ea, Eb. cbn [bind fst snd]. reflexivity.
Qed.

(** An alignment file of [create_dimer_alignment] read by
    [parse_grishin_alignment] gives the alignment of the first chains:
    the rows [simple_align] returns for the first target and the first
    template sequence.  The block of the second chains is not read. *)
Theorem dimer_alignment_read_back
        (k t k' m : pystr) (rest_t rest_m : list (pystr * pystr))
        (template_name : pystr) :
  Forall one_line (map snd ((k, t) :: rest_t)) ->
  Forall one_line (map snd ((k', m) :: rest_m)) ->
  one_line template_name ->
  exists text aligned1 aligned2,
    generate_alignment.create_dimer_alignment
      ((k, t) :: rest_t) ((k', m) :: rest_m) template_name = Ok text /\
    generate_alignment.simple_align t m = Ok (aligned1, aligned2) /\
    check_binding_conservation.parse_grishin_alignment text =
      [(lit "mabs", PyStr.strip aligned1); (lit "mtb", PyStr.strip aligned2)].
Proof.
  intros Ht Hm Hn.
  destruct (create_dimer_alignment_text k t k' m rest_t rest_m template_name)
    as [a1 [a2 [tb [mb [b1 [b2 [Ea [It [Im [Eb E]]]]]]]]]].
  exists (generate_alignment.write_block
            (generate_alignment.write_block
               [] (lit "Target_ChainA") (template_name ++ lit "_ChainA") a1 a2)
            (lit "Target_ChainB") (template_name ++ lit "_ChainB") b1 b2), a1, a2.
  split; [exact E|]. split; [exact Ea|].
  destruct (simple_align_rows t m) as [a1' [a2' [Ea' [A1 [A2 _]]]]].
  rewrite Ea in Ea'. inversion Ea'; subst a1' a2'; clear Ea'.
  destruct (simple_align_rows tb mb) as [b1' [b2' [Eb' [B1 [B2 _]]]]].
  rewrite Eb in Eb'. inversion Eb'; subst b1' b2'; clear Eb'.
  rewrite Forall_forall in Ht, Hm.
  specialize (A1 (Ht t (or_introl eq_refl))).
  specialize (A2 (Hm m (or_introl eq_refl))).
  specialize (B1 (Ht tb It)). specialize (B2 (Hm mb Im)).
  rewrite !write_block_lines. cbn [app]. rewrite <- concat_app, <- map_app.
  eapply parse_grishin_lines.
  rewrite readlines_lines.
  - cbn [map app]. reflexivity.
  - apply Forall_app. split; apply block_one_line; try assumption;
      solve [ reflexivity | apply one_line_app; [assumption | reflexivity] ].
Qed.

Lemma dimer_alignment_read_back_witness :
  exists text aligned1 aligned2,
    generate_alignment.create_dimer_alignment
      ((str "tA", str "ACGT") :: [(str "tB", str "AC")])
      ((str "mA", str "AGT") :: []) (str "5bs8") = Ok text /\
    generate_alignment.simple_align (str "ACGT") (str "AGT") =
      Ok (aligned1, aligned2) /\
    check_binding_conservation.parse_grishin_alignment text =
      [(lit "mabs", PyStr.strip aligned1); (lit "mtb", PyStr.strip aligned2)].
Proof.
  apply dimer_alignment_read_back; repeat constructor.
Defined.

(** [create_dimer_alignment] raises [IndexError] when the target
    or the template dictionary is empty, and only then: with a sequence
    on either side it writes its file, a single sequence standing in
    for the second chain as well. *)
Theorem dimer_alignment_needs_sequences
        (target_seqs template_seqs : list (pystr * pystr))
        (template_name : pystr) :
  (generate_alignment.create_dimer_alignment target_seqs template_seqs
     template_name = Raise IndexError <->
   target_seqs = [] \/ template_seqs = []) /\
  (target_seqs <> [] -> template_seqs <> [] ->
   exists text,
     generate_alignment.create_dimer_alignment target_seqs template_seqs
       template_name = Ok text).
Proof.
  assert (G : target_seqs <> [] -> template_seqs <> [] ->
              exists text,
                generate_alignment.create_dimer_alignment
                  target_seqs template_seqs template_name = Ok text).
  { destruct target_seqs as [|[k t] rest_t]; [congruence|].
    destruct template_seqs as [|[k' m] rest_m]; [congruence|]. intros _ _.
    destruct (create_dimer_alignment_text k t k' m rest_t rest_m template_name)
      as [a1 [a2 [tb [mb [b1 [b2 [_ [_ [_ [_ E]]]]]]]]]].
    eauto. }
  split; [|exact G]. split.
  - intros E. destruct target_seqs as [|kt rest_t]; [auto|].
    destruct template_seqs as [|km rest_m]; [auto|].
    destruct G as [text G]; [discriminate | discriminate |]. congruence.
  - intros [-> | ->].
    + reflexivity.
    + destruct target_seqs as [|[k t] rest_t]; [reflexivity|].
      unfold generate_alignment.create_dimer_alignment, keys. cbn [map fst].
      rewrite getitem_head. cbn [bind].
      rewrite (lookup_first PyStr.eqb pystr_eqb_spec). cbn [bind].
      destruct (@second_or_first_value ((k, t) :: rest_t)) as [nt [tb [Et _]]];
        [discriminate|].
      unfold keys in Et. cbn [map fst] in Et. rewrite Et. reflexivity.
Qed.

(** ** FASTA files *)

Lemma firstn_add (A : Type) (a b : nat) (l : list A) :
  firstn (a + b) l = firstn a l ++ firstn b (skipn a l).
Proof.
  revert l. induction a as [|a IH]; intros l; cbn [Nat.add firstn skipn app].
  - reflexivity.
  - destruct l as [|x l]; cbn [firstn skipn app].
    + rewrite firstn_nil. reflexivity.
    + rewrite IH. reflexivity.
Qed.

Lemma concat_pieces (width : nat) (s : pystr) (k : nat) :
  concat (map (fun i => PyStr.slice s i (i + width))
              (map (fun q => (q * width)%nat) (seq 0 k))) =
  firstn (k * width) s.
Proof.
  induction k as [|k IH].
  - reflexivity.
  - rewrite seq_S, !map_app, concat_app, IH. cbn [Nat.add map concat].
    rewrite app_nil_r. unfold PyStr.slice.
    replace (k * width + width - k * width)%nat with width by lia.
    rewrite <- firstn_add. f_equal. lia.
Qed.

(** The pieces of a sequence, put together, are the sequence. *)
Lemma concat_chunks (width : nat) (s : pystr) :
  (0 < width)%nat -> concat (chunks width s) = s.
Proof.
  intros W. unfold chunks, range_step. rewrite concat_pieces.
  apply firstn_all2.
  pose proof (Nat.div_mod_eq (length s + width - 1) width) as D.
  pose proof (Nat.mod_upper_bound (length s + width - 1) width ltac:(lia)) as M.
  nia.
Qed.

Lemma forallb_chunks (P : ascii -> bool) (width : nat) (s : pystr) :
  forallb P s = true -> Forall (fun piece => forallb P piece = true) (chunks width s).
Proof.
  intros H. unfold chunks. apply Forall_forall. intros piece Hin.
  apply in_map_iff in Hin. destruct Hin as [i [<- _]].
  unfold PyStr.slice. rewrite forallb_forall in *. intros c Hc.
  apply H. rewrite <- (firstn_skipn i s). apply in_or_app. right.
  rewrite <- (firstn_skipn (i + width - i) (skipn i s)).
  apply in_or_app. left. exact Hc.
Qed.

Lemma for_each_app (A S : Type) (xs ys : list A) (body : A -> S -> result S) (s : S) :
  for_each (xs ++ ys) body s = bind (for_each xs body s) (for_each ys body).
Proof.
  revert s. induction xs as [|x xs IH]; intros s; cbn [app for_each].
  - reflexivity.
  - destruct (body x s); cbn [bind]; [apply IH | reflexivity | reflexivity].
Qed.

(** What [write_template_fasta] writes, line by line. *)
Lemma write_template_fasta_lines (sequences : list (pystr * pystr))
      (template_name : pystr) :
  prepare_templates.write_template_fasta sequences template_name =
  concat (map ended
            (flat_map (fun kv => (lit ">" ++ chain_header template_name (fst kv))
                                 :: chunks 80 (snd kv))
                      sequences)).
Proof.
  unfold prepare_templates.write_template_fasta.
  match goal with |- fold_left ?b _ _ = _ => set (body := b) end.
  assert (H : forall seqs f,
             fold_left body seqs f =
             f ++ concat (map ended
                            (flat_map (fun kv => (lit ">" ++ chain_header template_name (fst kv))
                                                 :: chunks 80 (snd kv)) seqs))).
  { induction seqs as [|[chain_id sequence] seqs IH]; intros f;
      cbn [fold_left flat_map map concat].
    - rewrite app_nil_r. reflexivity.
    - rewrite IH. unfold body. cbn [fst snd].
      assert (I : forall idxs g,
                 fold_left (fun f0 i => PyStr.write f0
                              (PyStr.slice sequence i (i + 80) ++ [PyStr.LF]))
                           idxs g =
                 g ++ concat (map ended
                                (map (fun i => PyStr.slice sequence i (i + 80)) idxs))).
      { induction idxs as [|i idxs IHi]; intros g; cbn [fold_left map concat].
        - rewrite app_nil_r. reflexivity.
        - rewrite IHi. unfold PyStr.write, ended. rewrite <- !app_assoc.
          reflexivity. }
      rewrite I. unfold PyStr.write, ended, chunks, chain_header.
      rewrite map_app, concat_app. cbn [map concat].
      rewrite <- !app_assoc. reflexivity. }
  apply (H sequences []).
Qed.

Lemma read_fasta_loop (fasta_file : pystr) :
  generate_alignment.read_fasta fasta_file =
  bind (for_each (PyStr.readlines fasta_file) fasta_step ([], None, []))
       (fun st => Ok (generate_alignment.store_sequence
                        (fst (fst st)) (snd (fst st)) (snd st))).
Proof.
  unfold generate_alignment.read_fasta.
  change (for_each (PyStr.readlines fasta_file) _ ([], None, []))
    with (for_each (PyStr.readlines fasta_file) fasta_step ([], None, [])).
  destruct (for_each _ _ _) as [[[D h] cs]| |]; reflexivity.
Qed.

Lemma plain_no_space (s : pystr) : plain s -> no_space s.
Proof.
  unfold plain, no_space. rewrite !forallb_forall. intros H c Hc.
  specialize (H c Hc). apply andb_true_iff in H. tauto.
Qed.

Lemma plain_not_header (s : pystr) : plain s -> PyStr.startswith s (lit ">") = false.
Proof.
  unfold plain. destruct s as [|c s]; [reflexivity|].
  cbn [forallb]. intros H. apply andb_true_iff in H. destruct H as [H _].
  apply andb_true_iff in H. destruct H as [_ H]. apply negb_true_iff in H.
  cbn [list_ascii_of_string PyStr.startswith]. rewrite H. reflexivity.
Qed.

Lemma fasta_step_header (hdr : pystr) D h cs :
  no_space hdr -> hdr <> [] ->
  fasta_step (ended (lit ">" ++ hdr)) (D, h, cs) =
  Ok (generate_alignment.store_sequence D h cs, Some hdr, []).
Proof.
  intros Hs Hne. unfold fasta_step. rewrite strip_ended.
  rewrite strip_no_space by (apply (@no_space_app (lit ">") hdr); [reflexivity | exact Hs]).
  cbn [list_ascii_of_string app PyStr.startswith PyStr.slice_from skipn].
  rewrite startswith_nil. cbn [andb Ascii.eqb Bool.eqb].
  rewrite (split_no_space Hs Hne), getitem_head. reflexivity.
Qed.

Lemma fasta_step_piece (piece : pystr) D h cs :
  plain piece ->
  fasta_step (ended piece) (D, h, cs) = Ok (D, h, cs ++ [piece]).
Proof.
  intros H. unfold fasta_step. rewrite strip_ended.
  rewrite (strip_no_space (plain_no_space H)), (plain_not_header H).
  reflexivity.
Qed.

Lemma fasta_step_pieces (pieces : list pystr) :
  Forall plain pieces ->
  forall D h cs,
    for_each (map ended pieces) fasta_step (D, h, cs) = Ok (D, h, cs ++ pieces).
Proof.
  induction 1 as [|piece pieces H _ IH]; intros D h cs; cbn [map for_each].
  - rewrite app_nil_r. reflexivity.
  - rewrite (fasta_step_piece _ _ _ H). cbn [bind]. rewrite IH, <- app_assoc.
    reflexivity.
Qed.

Lemma store_sequence_header (D : list (pystr * pystr)) (hdr : pystr) (cs : list pystr) :
  hdr <> [] ->
  generate_alignment.store_sequence D (Some hdr) cs =
  dict_set PyStr.eqb D hdr (PyStr.join cs).
Proof. destruct hdr; [congruence | reflexivity]. Qed.

Lemma chain_header_facts (template_name chain_id : pystr) :
  no_space template_name -> no_space chain_id ->
  no_space (chain_header template_name chain_id) /\
  chain_header template_name chain_id <> [].
Proof.
  intros Hn Hc. unfold chain_header. split.
  - repeat apply no_space_app; try assumption. reflexivity.
  - destruct template_name; discriminate.
Qed.

Lemma fasta_blocks (template_name : pystr) (sequences : list (pystr * pystr)) :
  no_space template_name ->
  Forall (fun kv => no_space (fst kv) /\ plain (snd kv)) sequences ->
  forall D h cs,
  exists st,
    for_each
      (map ended
         (flat_map (fun kv => (lit ">" ++ chain_header template_name (fst kv))
                              :: chunks 80 (snd kv))
                   sequences))
      fasta_step (D, h, cs) = Ok st /\
    generate_alignment.store_sequence (fst (fst st)) (snd (fst st)) (snd st) =
    fold_left (fun acc kv =>
                 dict_set PyStr.eqb acc (chain_header template_name (fst kv)) (snd kv))
              sequences (generate_alignment.store_sequence D h cs).
Proof.
  intros Hn. induction 1 as [|[chain_id sequence] rest [Hc Hs] _ IH];
    intros D h cs; cbn [flat_map map fold_left fst snd].
  - exists (D, h, cs). split; reflexivity.
  - destruct (chain_header_facts Hn Hc) as [Hh Hne].
    rewrite map_app, for_each_app. cbn [map for_each fst snd].
    rewrite (fasta_step_header _ _ _ Hh Hne). cbn [bind].
    rewrite fasta_step_pieces by (apply forallb_chunks; exact Hs).
    cbn [bind app].
    destruct (IH (generate_alignment.store_sequence D h cs)
                 (Some (chain_header template_name chain_id))
                 (chunks 80 sequence)) as [st [E S]].
    exists st. split; [exact E|]. rewrite S.
    rewrite (store_sequence_header _ _ Hne). unfold PyStr.join.
    rewrite concat_chunks by lia. reflexivity.
Qed.

Lemma fold_dict_set_fresh (K V : Type) (eqb : K -> K -> bool)
      (eqb_spec : forall a b, eqb a b = true <-> a = b)
      (rename : K -> K) (sequences : list (K * V)) :
  (forall a b, rename a = rename b -> a = b) ->
  NoDup (keys sequences) ->
  forall acc,
    (forall kv, In kv sequences -> ~ In (rename (fst kv)) (keys acc)) ->
    fold_left (fun acc kv => dict_set eqb acc (rename (fst kv)) (snd kv))
              sequences acc =
    acc ++ map (fun kv => (rename (fst kv), snd kv)) sequences.
Proof.
  intros Hinj. unfold keys.
  induction sequences as [|[k v] rest IH]; intros Hnd acc Hacc; cbn [fold_left map].
  - rewrite app_nil_r. reflexivity.
  - cbn [map fst] in Hnd. inversion Hnd as [|? ? Hk Hnd']; subst.
    cbn [fst snd]. rewrite (dict_set_fresh eqb eqb_spec).
    + rewrite IH; [rewrite <- app_assoc; reflexivity | exact Hnd' |].
      intros kv Hin. rewrite map_app, in_app_iff. cbn [map fst In].
      intros [H|[H|[]]].
      * apply (Hacc kv (or_intror Hin)). exact H.
      * apply Hinj in H. apply Hk. rewrite H. apply in_map. exact Hin.
    + intros kv Hin E. apply (Hacc (k, v) (or_introl eq_refl)).
      cbn [fst]. rewrite <- E. apply in_map. exact Hin.
Qed.

Lemma fasta_written_read (sequences : list (pystr * pystr)) (template_name : pystr) :
  NoDup (keys sequences) ->
  no_space template_name ->
  Forall (fun kv => no_space (fst kv) /\ plain (snd kv)) sequences ->
  generate_alignment.read_fasta
    (prepare_templates.write_template_fasta sequences template_name) =
  Ok (map (fun kv => (chain_header template_name (fst kv), snd kv)) sequences).
Proof.
  intros Hnd Hn Hs.
  rewrite write_template_fasta_lines, read_fasta_loop, readlines_lines.
  - destruct (fasta_blocks Hn Hs [] None []) as [st [E S]].
    rewrite E. cbn [bind]. rewrite S. f_equal.
    change (generate_alignment.store_sequence [] None []) with (@nil (pystr * pystr)).
    rewrite (@fold_dict_set_fresh _ _ PyStr.eqb pystr_eqb_spec
               (chain_header template_name));
      [reflexivity | | exact Hnd | intros kv _ []].
    intros a b H. unfold chain_header in H.
    apply app_inv_head in H. apply app_inv_head in H. exact H.
  - apply Forall_forall. intros body Hin. apply in_flat_map in Hin.
    destruct Hin as [[chain_id sequence] [Hin Hb]].
    rewrite Forall_forall in Hs. destruct (Hs _ Hin) as [Hc Hp].
    cbn [fst snd] in *. apply no_space_one_line.
    destruct Hb as [<-|Hb].
    + apply (@no_space_app (lit ">")); [reflexivity|].
      apply chain_header_facts; assumption.
    + pose proof (forallb_chunks _ 80 _ (plain_no_space Hp)) as F.
      rewrite Forall_forall in F. apply F. exact Hb.
Qed.

(** The sequences [write_template_fasta] writes are the
    sequences [read_fasta] reads: each comes back whole, put together
    from its lines of 80 characters, under the header the writer gave
    it, in the order of the dictionary.  This asks that the name of
    the template and the chain identifiers hold no white space, and the
    sequences neither white space nor the mark of a header. *)
Theorem fasta_round_trip (sequences : list (pystr * pystr)) (template_name : pystr) :
  NoDup (keys sequences) ->
  no_space template_name ->
  Forall (fun kv => no_space (fst kv) /\ plain (snd kv)) sequences ->
  generate_alignment.read_fasta
    (prepare_templates.write_template_fasta sequences template_name) =
  Ok (map (fun kv => (chain_header template_name (fst kv), snd kv)) sequences).
Proof. apply fasta_written_read. Qed.

Lemma fasta_round_trip_witness :
  generate_alignment.read_fasta
    (prepare_templates.write_template_fasta
       [(str "A", str "MSDLAR"); (str "B", str "")] (str "5bs8")) =
  Ok (map (fun kv => (chain_header (str "5bs8") (fst kv), snd kv))
          [(str "A", str "MSDLAR"); (str "B", str "")]).
Proof.
  apply fasta_round_trip.
  - repeat constructor; cbn; intuition discriminate.
  - reflexivity.
  - repeat constructor.
Defined.

(** ** A header without a name *)

Lemma lstrip_head (s t : pystr) (c : ascii) :
  PyStr.lstrip s = c :: t -> PyStr.isspace c = false.
Proof.
  induction s as [|x s IH]; cbn [PyStr.lstrip]; [discriminate|].
  destruct (PyStr.isspace x) eqn:E; [exact IH|].
  intros H. inversion H; subst. exact E.
Qed.

Lemma strip_last (s t : pystr) (c : ascii) :
  PyStr.strip s = t ++ [c] -> PyStr.isspace c = false.
Proof.
  unfold PyStr.strip, PyStr.rstrip. intros H.
  apply (f_equal (@rev ascii)) in H.
  rewrite rev_involutive, rev_app_distr in H. cbn [rev app] in H.
  apply (lstrip_head _ H).
Qed.

Lemma split_from_cur (s cur : pystr) : cur <> [] -> PyStr.split_from cur s <> [].
Proof.
  revert cur. induction s as [|c s IH]; intros cur H; cbn [PyStr.split_from].
  - destruct cur; [congruence | discriminate].
  - destruct (PyStr.isspace c).
    + destruct cur; [congruence | discriminate].
    + apply IH. destruct cur; discriminate.
Qed.

Lemma split_from_nonspace (s cur : pystr) (c : ascii) :
  In c s -> PyStr.isspace c = false -> PyStr.split_from cur s <> [].
Proof.
  revert cur. induction s as [|x s IH]; intros cur Hin Hc; [contradiction|].
  cbn [PyStr.split_from]. destruct Hin as [->|Hin].
  - rewrite Hc. apply split_from_cur. destruct cur; discriminate.
  - destruct (PyStr.isspace x).
    + destruct cur; [|discriminate]. apply IH; assumption.
    + apply IH; assumption.
Qed.

(** A turn of the loop of [read_fasta] fails on a line that holds the
    mark of a header and nothing else, and on no other line. *)
Lemma fasta_step_outcome (line : pystr) st :
  (PyStr.strip line = lit ">" -> fasta_step line st = Raise IndexError) /\
  (PyStr.strip line <> lit ">" -> exists st', fasta_step line st = Ok st').
Proof.
  destruct st as [[D h] cs]. unfold fasta_step.
  destruct (PyStr.strip line) as [|c t] eqn:E.
  - split; [discriminate|]. intros _. cbn. eauto.
  - cbn [list_ascii_of_string PyStr.startswith]. rewrite startswith_nil, andb_true_r.
    destruct (Ascii.eqb_spec c ">") as [->|Hc].
    + cbn [PyStr.slice_from skipn]. split.
      * intros H. inversion H; subst. reflexivity.
      * intros Hne. destruct t as [|x t]; [congruence|].
        destruct (@exists_last _ (x :: t)) as [t' [z Ez]]; [discriminate|].
        assert (Hz : PyStr.isspace z = false).
        { apply (@strip_last line (">"%char :: t') z). rewrite E, Ez. reflexivity. }
        destruct (PyStr.split (x :: t)) as [|w ws] eqn:Es.
        -- exfalso. unfold PyStr.split in Es.
           apply (@split_from_nonspace (x :: t) [] z); [|exact Hz|exact Es].
           rewrite Ez. apply in_or_app. right. left. reflexivity.
        -- rewrite getitem_head. cbn [bind]. eauto.
    + split; [intros H; inversion H; congruence|]. intros _. eauto.
Qed.

(** [read_fasta] raises [IndexError] when a line of the file
    holds, white space apart, the mark [>] of a header and nothing
    after it; on every other file it returns a dictionary. *)
Theorem read_fasta_bare_header (fasta_file : pystr) :
  (Exists (fun line => PyStr.strip line = lit ">") (PyStr.readlines fasta_file) ->
   generate_alignment.read_fasta fasta_file = Raise IndexError) /\
  (Forall (fun line => PyStr.strip line <> lit ">") (PyStr.readlines fasta_file) ->
   exists sequences, generate_alignment.read_fasta fasta_file = Ok sequences).
Proof.
  rewrite read_fasta_loop. generalize (PyStr.readlines fasta_file) as lines.
  generalize (@nil (pystr * pystr), @None pystr, @nil pystr) as st.
  intros st lines. split; intros H.
  - revert st. induction lines as [|line lines IH]; intros st.
    + inversion H.
    + cbn [for_each].
      destruct (list_eq_dec ascii_dec (PyStr.strip line) (lit ">")) as [E|N].
      * rewrite (proj1 (fasta_step_outcome line st) E). reflexivity.
      * destruct (proj2 (fasta_step_outcome line st) N) as [st' ->]. cbn [bind].
        apply IH. inversion H; subst; [contradiction | assumption].
  - assert (G : exists st', for_each lines fasta_step st = Ok st').
    { revert st. induction H as [|line lines N _ IH]; intros st; cbn [for_each].
      - eauto.
      - destruct (proj2 (fasta_step_outcome line st) N) as [st' ->]. cbn [bind].
        apply IH. }
    destruct G as [st' ->]. cbn [bind]. eauto.
Qed.

(** * Properties of the template preparation *)

Lemma clean_pdb_lines (pdb_file : pystr) (keep_chains : option (list pystr)) :
  prepare_templates.clean_pdb pdb_file keep_chains =
  bind (clean_lines keep_chains (PyStr.readlines pdb_file))
       (fun kept => Ok (concat (kept ++ [ended (lit "END")]))).
Proof.
  unfold prepare_templates.clean_pdb, clean_lines.
  assert (H : forall lines acc,
             for_each lines
               (fun line clean_lines =>
                  if PyStr.startswith line (lit "ATOM") then
                    alt_loc <- getitem line 16 ;;
                    if negb (existsb (PyStr.eqb [alt_loc]) [lit " "; lit "A"])
                    then Ok clean_lines
                    else
                      chain_id <- getitem line 21 ;;
                      if prepare_templates.chain_dropped keep_chains [chain_id]
                      then Ok clean_lines
                      else Ok (clean_lines
                               ++ [PyStr.slice_to line 16 ++ lit " "
                                   ++ PyStr.slice_from line 17])
                  else if PyStr.startswith line (lit "TER")
                       then Ok (clean_lines ++ [line])
                       else Ok clean_lines) acc =
             for_each lines
               (fun line acc => kept <- clean_line keep_chains line ;; Ok (acc ++ kept))
               acc).
  { induction lines as [|line lines IH]; intros acc; cbn [for_each]; [reflexivity|].
    unfold clean_line at 1.
    destruct (PyStr.startswith line (lit "ATOM")).
    - destruct (getitem line 16) as [alt| |]; cbn [bind]; try reflexivity.
      destruct (negb _); cbn [bind].
      + rewrite app_nil_r. apply IH.
      + destruct (getitem line 21) as [ch| |]; cbn [bind]; try reflexivity.
        destruct (prepare_templates.chain_dropped _ _); cbn [bind].
        * rewrite app_nil_r. apply IH.
        * apply IH.
    - destruct (PyStr.startswith line (lit "TER")); cbn [bind].
      + apply IH.
      + rewrite app_nil_r. apply IH. }
  rewrite H. destruct (for_each _ _ _) as [kept| |]; cbn [bind]; try reflexivity.
  rewrite fold_left_write. reflexivity.
Qed.

Lemma terminated_tail (c : ascii) (rest : pystr) :
  terminated (c :: rest) -> rest <> [] -> terminated rest.
Proof.
  unfold terminated. cbn [rev]. intros H Hne.
  destruct (rev rest) as [|x t] eqn:E.
  - apply (f_equal (@rev ascii)) in E. rewrite rev_involutive in E.
    contradiction.
  - exact H.
Qed.

Lemma terminated_last (c : ascii) :
  terminated [c] -> Ascii.eqb c PyStr.LF || Ascii.eqb c PyStr.CR = true.
Proof.
  unfold terminated. cbn [rev app]. intros [->| ->]; reflexivity.
Qed.

Lemma one_line_snoc (cur : pystr) (c : ascii) :
  one_line cur -> Ascii.eqb c PyStr.LF = false -> Ascii.eqb c PyStr.CR = false ->
  one_line (cur ++ [c]).
Proof.
  intros H H1 H2. apply one_line_app; [exact H|].
  unfold one_line. cbn [forallb]. rewrite H1, H2. reflexivity.
Qed.

Lemma lines_from_whole (n : nat) :
  forall text cur,
    (length text <= n)%nat -> one_line cur -> terminated text ->
    (text = [] -> cur = []) ->
    Forall whole_line (PyStr.lines_from cur text).
Proof.
  induction n as [|n IH]; intros [|c rest] cur L Hc T E;
    cbn [length] in L; try lia.
  - rewrite (E eq_refl). constructor.
  - rewrite (E eq_refl). constructor.
  - assert (W : whole_line (cur ++ [PyStr.LF])) by (exists cur; split; auto).
    assert (R : rest <> [] -> Forall whole_line (PyStr.lines_from [] rest)).
    { intros Hne. apply IH; [lia | reflexivity | | congruence].
      apply (@terminated_tail c rest T Hne). }
    cbn [PyStr.lines_from].
    destruct (Ascii.eqb c PyStr.LF) eqn:E1.
    { constructor; [exact W|]. destruct rest; [constructor | apply R; discriminate]. }
    destruct (Ascii.eqb c PyStr.CR) eqn:E2.
    { destruct rest as [|c' rest']; [repeat constructor; exact W|].
      destruct (Ascii.eqb c' PyStr.LF) eqn:E3.
      - constructor; [exact W|]. destruct rest' as [|c'' rest''];
          [constructor|].
        apply IH; [cbn [length] in *; lia | reflexivity | | discriminate].
        apply (@terminated_tail c' (c'' :: rest'')); [|discriminate].
        apply (@terminated_tail c (c' :: c'' :: rest'') T). discriminate.
      - constructor; [exact W|]. apply R. discriminate. }
    destruct rest as [|c' rest'].
    { apply terminated_last in T. rewrite E1, E2 in T. discriminate. }
    apply IH; [lia | apply one_line_snoc; assumption | | discriminate].
    apply (@terminated_tail c (c' :: rest') T). discriminate.
Qed.

(** A file that ends with a line break is read as whole lines. *)
Lemma readlines_whole (text : pystr) :
  terminated text -> Forall whole_line (PyStr.readlines text).
Proof.
  intros T. apply (@lines_from_whole (length text)); auto. reflexivity.
Qed.

(** Whole lines, written one after the other, are read back as they
    are. *)
Lemma readlines_concat (lines : list pystr) :
  Forall whole_line lines -> PyStr.readlines (concat lines) = lines.
Proof.
  unfold PyStr.readlines. induction 1 as [|line rest [body [-> H]] _ IH].
  - reflexivity.
  - cbn [concat]. unfold ended at 1. rewrite <- app_assoc. cbn [app].
    rewrite (lines_from_line H). rewrite IH. reflexivity.
Qed.

Lemma getitem_nonneg_inv (A : Type) (l : list A) (k : nat) (a : A) :
  getitem l (Z.of_nat k) = Ok a -> nth_error l k = Some a.
Proof.
  unfold getitem, index.
  destruct (Nat.lt_ge_cases k (length l)) as [H|H].
  - replace ((0 <=? Z.of_nat k)%Z && (Z.of_nat k <? Z.of_nat (length l))%Z)
      with true by (symmetry; apply andb_true_iff; split;
                    [apply Z.leb_le | apply Z.ltb_lt]; lia).
    rewrite Nat2Z.id. destruct (nth_error l k); [congruence | discriminate].
  - replace ((0 <=? Z.of_nat k)%Z && (Z.of_nat k <? Z.of_nat (length l))%Z)
      with false by (symmetry; apply andb_false_iff; right; apply Z.ltb_ge; lia).
    replace ((- Z.of_nat (length l) <=? Z.of_nat k)%Z && (Z.of_nat k <? 0)%Z)
      with false by (symmetry; apply andb_false_iff; right; apply Z.ltb_ge; lia).
    discriminate.
Qed.

Lemma getitem_short (A : Type) (l : list A) (k : nat) :
  (length l <= k)%nat -> getitem l (Z.of_nat k) = Raise IndexError.
Proof.
  intros H. destruct (getitem l (Z.of_nat k)) as [a| |] eqn:E.
  - apply getitem_nonneg_inv in E.
    assert (k < length l)%nat by (apply nth_error_Some; congruence). lia.
  - unfold getitem in E. destruct (index _ _); [|congruence].
    destruct (nth_error l n); congruence.
  - unfold getitem in E. destruct (index _ _); [|discriminate].
    destruct (nth_error l n); discriminate.
Qed.

Section Collect.

Context {A B : Type}.
Variable g : A -> result (list B).

Let body := fun (x : A) (acc : list B) => kept <- g x ;; Ok (acc ++ kept).

Lemma collect_shift (xs : list A) (acc : list B) :
  for_each xs body acc = bind (for_each xs body []) (fun r => Ok (acc ++ r)).
Proof.
  revert acc. induction xs as [|x xs IH]; intros acc; cbn [for_each].
  - cbn [bind]. rewrite app_nil_r. reflexivity.
  - unfold body at 1 3. destruct (g x) as [k1| |]; cbn [bind]; try reflexivity.
    rewrite IH. rewrite (IH ([] ++ k1)).
    destruct (for_each xs body []) as [k2| |]; cbn [bind app]; try reflexivity.
    rewrite app_assoc. reflexivity.
Qed.

Lemma collect_cons (x : A) (xs : list A) :
  for_each (x :: xs) body [] =
  bind (g x) (fun k1 => bind (for_each xs body []) (fun k2 => Ok (k1 ++ k2))).
Proof.
  cbn [for_each]. unfold body at 1. destruct (g x) as [k1| |]; cbn [bind app];
    try reflexivity.
  apply collect_shift.
Qed.

Lemma collect_app (xs ys : list A) :
  for_each (xs ++ ys) body [] =
  bind (for_each xs body [])
       (fun k1 => bind (for_each ys body []) (fun k2 => Ok (k1 ++ k2))).
Proof.
  rewrite for_each_app.
  destruct (for_each xs body []) as [k1| |]; cbn [bind]; try reflexivity.
  apply collect_shift.
Qed.

End Collect.

Lemma forallb_firstn (P : ascii -> bool) (k : nat) (s : pystr) :
  forallb P s = true -> forallb P (firstn k s) = true.
Proof.
  rewrite !forallb_forall. intros H c Hc. apply H.
  rewrite <- (firstn_skipn k s). apply in_or_app. left. exact Hc.
Qed.

Lemma forallb_skipn (P : ascii -> bool) (k : nat) (s : pystr) :
  forallb P s = true -> forallb P (skipn k s) = true.
Proof.
  rewrite !forallb_forall. intros H c Hc. apply H.
  rewrite <- (firstn_skipn k s). apply in_or_app. right. exact Hc.
Qed.

(** Putting a blank at an index inside the text of a whole line leaves
    a whole line. *)
Lemma whole_line_blank (line : pystr) (k : nat) :
  whole_line line -> (S k < length line)%nat ->
  whole_line (firstn k line ++ [" "%char] ++ skipn (S k) line).
Proof.
  intros [body [-> H]] L. unfold ended in *. rewrite length_app in L.
  cbn [length] in L.
  exists (firstn k body ++ [" "%char] ++ skipn (S k) body). split.
  - rewrite firstn_app, skipn_app.
    replace (k - length body)%nat with 0%nat by lia.
    replace (S k - length body)%nat with 0%nat by lia.
    cbn [firstn skipn]. rewrite app_nil_r. unfold ended.
    rewrite <- !app_assoc. reflexivity.
  - unfold one_line in *. rewrite !forallb_app.
    rewrite (forallb_firstn _ k _ H), (forallb_skipn _ (S k) _ H). reflexivity.
Qed.

Lemma clean_line_kept (keep_chains : option (list pystr)) (line : pystr)
      (kept : list pystr) :
  clean_line keep_chains line = Ok kept ->
  kept = [] \/
  exists line',
    kept = [line'] /\
    clean_line keep_chains line' = Ok [line'] /\
    cleaned_record keep_chains line' /\
    (whole_line line -> whole_line line').
Proof.
  unfold clean_line at 1.
  destruct (PyStr.startswith line (lit "ATOM")) eqn:A.
  - change 16%Z with (Z.of_nat 16). change 21%Z with (Z.of_nat 21).
    destruct (getitem line (Z.of_nat 16)) as [alt| |] eqn:E16; cbn [bind];
      try discriminate.
    destruct (negb _) eqn:Alt; [intros H; inversion H; auto|].
    destruct (getitem line (Z.of_nat 21)) as [ch| |] eqn:E21; cbn [bind];
      try discriminate.
    destruct (prepare_templates.chain_dropped keep_chains [ch]) eqn:Dr;
      intros H; inversion H; subst; clear H; [auto|].
    right. apply getitem_nonneg_inv in E16, E21.
    assert (L : (21 < length line)%nat) by (apply nth_error_Some; congruence).
    unfold PyStr.slice_to, PyStr.slice_from. cbn [list_ascii_of_string].
    set (line' := firstn 16 line ++ [" "%char] ++ skipn 17 line).
    assert (N16 : nth_error line' 16 = Some " "%char)
      by (apply splice_nth_same; lia).
    assert (N21 : nth_error line' 21 = Some ch)
      by (unfold line'; rewrite splice_nth_other by lia; exact E21).
    assert (A' : PyStr.startswith line' (lit "ATOM") = true).
    { unfold line'.
      assert (L4 : (length (lit "ATOM") <= length (firstn 16 line))%nat)
        by (rewrite length_firstn; change (length (lit "ATOM")) with 4%nat; lia).
      rewrite (@startswith_app _ _ _ L4).
      rewrite startswith_firstn by (vm_compute; lia). exact A. }
    exists line'. split; [reflexivity|]. split; [|split].
    + unfold clean_line. rewrite A'.
      change 16%Z with (Z.of_nat 16). change 21%Z with (Z.of_nat 21).
      rewrite (getitem_nth_error _ _ N16), (getitem_nth_error _ _ N21).
      cbn [bind]. rewrite Dr.
      change (negb (existsb (PyStr.eqb [" "%char]) [lit " "; lit "A"])) with false.
      cbv iota. unfold PyStr.slice_to, PyStr.slice_from.
      cbn [list_ascii_of_string].
      assert (L16 : (16 < length line')%nat)
        by (apply nth_error_Some; congruence).
      rewrite (@splice_same _ line' 16 L16 " "%char N16). reflexivity.
    + left. split; [exact A'|]. split; [exact N16|]. eauto.
    + intros W. apply whole_line_blank; [exact W | lia].
  - destruct (PyStr.startswith line (lit "TER")) eqn:T;
      intros H; inversion H; subst; clear H; [|auto].
    right. exists line. split; [reflexivity|]. split; [|split].
    + unfold clean_line. rewrite A, T. reflexivity.
    + right. auto.
    + auto.
Qed.

Lemma clean_lines_kept (keep_chains : option (list pystr)) (lines : list pystr) :
  forall kept,
    clean_lines keep_chains lines = Ok kept ->
    clean_lines keep_chains kept = Ok kept /\
    Forall (cleaned_record keep_chains) kept /\
    (Forall whole_line lines -> Forall whole_line kept).
Proof.
  unfold clean_lines.
  induction lines as [|line lines IH]; intros kept.
  - cbn [for_each]. intros H. inversion H; subst. repeat split; auto.
  - rewrite collect_cons.
    destruct (clean_line keep_chains line) as [k1| |] eqn:E1; cbn [bind];
      try discriminate.
    destruct (for_each lines _ []) as [k2| |] eqn:E2; cbn [bind];
      try discriminate.
    intros H. inversion H; subst; clear H.
    destruct (IH k2 eq_refl) as [I1 [I2 I3]].
    destruct (clean_line_kept _ _ E1) as [->|[line' [-> [C1 [C2 C3]]]]].
    + cbn [app]. split; [exact I1|]. split; [exact I2|].
      intros W. inversion W; subst. auto.
    + cbn [app]. split; [|split].
      * rewrite collect_cons, C1. cbn [bind]. rewrite I1. reflexivity.
      * constructor; assumption.
      * intros W. inversion W; subst. constructor; auto.
Qed.

Lemma clean_line_end (keep_chains : option (list pystr)) :
  clean_line keep_chains (ended (lit "END")) = Ok [].
Proof. reflexivity. Qed.

(** What a successful [clean_pdb] has written, for a file that ends
    with a line break. *)
Lemma clean_pdb_output (pdb_file : pystr) (keep_chains : option (list pystr))
      (cleaned : pystr) :
  terminated pdb_file ->
  prepare_templates.clean_pdb pdb_file keep_chains = Ok cleaned ->
  exists kept,
    clean_lines keep_chains (PyStr.readlines pdb_file) = Ok kept /\
    cleaned = concat (kept ++ [ended (lit "END")]) /\
    PyStr.readlines cleaned = kept ++ [ended (lit "END")] /\
    clean_lines keep_chains kept = Ok kept /\
    Forall (cleaned_record keep_chains) kept.
Proof.
  intros T. rewrite clean_pdb_lines.
  destruct (clean_lines keep_chains (PyStr.readlines pdb_file)) as [kept| |] eqn:E;
    cbn [bind]; try discriminate.
  intros H. inversion H; subst; clear H.
  destruct (clean_lines_kept _ _ E) as [I1 [I2 I3]].
  exists kept. repeat split; auto.
  apply readlines_concat. apply Forall_app. split.
  - apply I3. apply readlines_whole. exact T.
  - constructor; [|constructor]. exists (lit "END"). split; reflexivity.
Qed.

(** Cleaning a cleaned file changes nothing: [clean_pdb] run on
    its own output, with the same chains to keep, writes that output
    again.  This holds for an input that ends with a line break; a last
    line without one would be written with [END] on the same line. *)
Theorem clean_pdb_idempotent (pdb_file : pystr) (keep_chains : option (list pystr))
        (cleaned : pystr) :
  terminated pdb_file ->
  prepare_templates.clean_pdb pdb_file keep_chains = Ok cleaned ->
  prepare_templates.clean_pdb cleaned keep_chains = Ok cleaned.
Proof.
  intros T H.
  destruct (@clean_pdb_output _ _ _ T H) as [kept [_ [-> [R [I _]]]]].
  rewrite clean_pdb_lines, R. unfold clean_lines in *.
  rewrite collect_app, I. cbn [bind for_each].
  rewrite clean_line_end. cbn [bind]. rewrite !app_nil_r. reflexivity.
Qed.

(** A cleaned file holds atom records, [TER] records and a last
    line [END], and nothing else; each atom record has a blank where
    the alternate location stood and belongs to a chain that was to be
    kept. *)
Theorem clean_pdb_records (pdb_file : pystr) (keep_chains : option (list pystr))
        (cleaned : pystr) :
  terminated pdb_file ->
  prepare_templates.clean_pdb pdb_file keep_chains = Ok cleaned ->
  exists kept,
    PyStr.readlines cleaned = kept ++ [ended (lit "END")] /\
    Forall (cleaned_record keep_chains) kept.
Proof.
  intros T H.
  destruct (@clean_pdb_output _ _ _ T H) as [kept [_ [_ [R [_ F]]]]].
  exists kept. split; assumption.
Qed.

Lemma clean_pdb_idempotent_witness :
  prepare_templates.clean_pdb
    (ended (str "ATOM      1  N   MET A   1") ++ ended (str "END")) None =
  Ok (ended (str "ATOM      1  N   MET A   1") ++ ended (str "END")).
Proof.
  apply (@clean_pdb_idempotent
           (ended (str "ATOM      1  N  AMET A   1")
            ++ ended (str "ATOM      1  N  BMET A   1")
            ++ ended (str "HETATM    2  O   HOH A 900")) None).
  - vm_compute. auto.
  - vm_compute. reflexivity.
Defined.

Lemma clean_pdb_records_witness :
  exists kept,
    PyStr.readlines
      (ended (str "ATOM      1  N   MET A   1") ++ ended (str "TER")
       ++ ended (str "END")) = kept ++ [ended (lit "END")] /\
    Forall (cleaned_record (Some [str "A"])) kept.
Proof.
  apply (@clean_pdb_records
           (ended (str "ATOM      1  N  AMET A   1")
            ++ ended (str "ATOM      2  N   MET B   1")
            ++ ended (str "TER")) (Some [str "A"])).
  - vm_compute. auto.
  - vm_compute. reflexivity.
Defined.

Lemma clean_line_outcome (keep_chains : option (list pystr)) (line : pystr) :
  (PyStr.startswith line (lit "ATOM") = true -> (length line <= 16)%nat ->
   clean_line keep_chains line = Raise IndexError) /\
  ((PyStr.startswith line (lit "ATOM") = true -> (21 < length line)%nat) ->
   exists kept, clean_line keep_chains line = Ok kept) /\
  ((exists kept, clean_line keep_chains line = Ok kept) \/
   clean_line keep_chains line = Raise IndexError).
Proof.
  unfold clean_line.
  change 16%Z with (Z.of_nat 16). change 21%Z with (Z.of_nat 21).
  destruct (PyStr.startswith line (lit "ATOM")) eqn:A.
  - destruct (Nat.lt_ge_cases 16 (length line)) as [L16|L16].
    + destruct (nth_error line 16) as [alt|] eqn:E16;
        [|apply nth_error_None in E16; lia].
      rewrite (getitem_nth_error _ _ E16). cbn [bind].
      destruct (negb _).
      * split; [intros; lia|]. split; eauto.
      * destruct (Nat.lt_ge_cases 21 (length line)) as [L21|L21].
        -- destruct (nth_error line 21) as [ch|] eqn:E21;
             [|apply nth_error_None in E21; lia].
           rewrite (getitem_nth_error _ _ E21). cbn [bind].
           destruct (prepare_templates.chain_dropped _ _);
             (split; [intros; lia|]); split; eauto.
        -- rewrite (getitem_short _ L21). cbn [bind].
           split; [intros; lia|]. split; [|auto].
           intros H. specialize (H eq_refl). lia.
    + rewrite (getitem_short _ L16). cbn [bind].
      split; [reflexivity|]. split; [|auto].
      intros H. specialize (H eq_refl). lia.
  - split; [discriminate|].
    destruct (PyStr.startswith line (lit "TER")); split; eauto.
Qed.

(** [clean_pdb] reads index 16 and index 21 of every atom record
    without looking at its length: an atom record of at most 16
    characters makes it raise [IndexError], and when every atom record
    has more than 21 characters it returns. *)
Theorem clean_pdb_short_record (pdb_file : pystr) (keep_chains : option (list pystr)) :
  (Exists (fun line => PyStr.startswith line (lit "ATOM") = true /\
                       (length line <= 16)%nat)
          (PyStr.readlines pdb_file) ->
   prepare_templates.clean_pdb pdb_file keep_chains = Raise IndexError) /\
  (Forall (fun line => PyStr.startswith line (lit "ATOM") = true ->
                       (21 < length line)%nat)
          (PyStr.readlines pdb_file) ->
   exists cleaned, prepare_templates.clean_pdb pdb_file keep_chains = Ok cleaned).
Proof.
  rewrite clean_pdb_lines. unfold clean_lines.
  generalize (PyStr.readlines pdb_file) as lines. intros lines. split; intros H.
  - assert (G : for_each lines
                  (fun line acc => kept <- clean_line keep_chains line ;;
                                   Ok (acc ++ kept)) [] = Raise IndexError).
    { induction H as [line lines [A L]|line lines _ IH]; rewrite collect_cons.
      - rewrite (proj1 (clean_line_outcome keep_chains line) A L). reflexivity.
      - destruct (proj2 (proj2 (clean_line_outcome keep_chains line)))
          as [[k1 ->]| ->]; [|reflexivity].
        cbn [bind]. rewrite IH. reflexivity. }
    rewrite G. reflexivity.
  - assert (G : exists kept,
               for_each lines
                 (fun line acc => kept <- clean_line keep_chains line ;;
                                  Ok (acc ++ kept)) [] = Ok kept).
    { induction H as [|line lines L _ [k2 IH]].
      - exists []. reflexivity.
      - rewrite collect_cons.
        destruct (proj1 (proj2 (clean_line_outcome keep_chains line)) L)
          as [k1 ->].
        cbn [bind]. rewrite IH. cbn [bind]. eauto. }
    destruct G as [kept ->]. cbn [bind]. eauto.
Qed.

(** ** Sequences of a template *)

Lemma extract_loop (pdb_file : pystr) :
  prepare_templates.extract_sequence_from_pdb pdb_file =
  bind (for_each (PyStr.readlines pdb_file) extract_step ([], []))
       (fun st => Ok (map (fun '(chain, chain_seq) => (chain, PyStr.join chain_seq))
                          (fst st))).
Proof. reflexivity. Qed.

Section DictSetMore.

Context {K V : Type}.
Variable eqb : K -> K -> bool.
Hypothesis eqb_spec : forall a b, eqb a b = true <-> a = b.

Lemma dict_set_keys_new (d : list (K * V)) (k : K) (v : V) :
  dict_mem eqb d k = false -> keys (dict_set eqb d k v) = keys d ++ [k].
Proof.
  intros H. rewrite (dict_set_fresh eqb eqb_spec).
  - unfold keys. rewrite map_app. reflexivity.
  - intros kv Hin E.
    assert (dict_mem eqb d k = true); [|congruence].
    apply (dict_mem_In eqb eqb_spec). unfold keys. rewrite <- E.
    apply in_map. exact Hin.
Qed.

Lemma dict_set_In (d : list (K * V)) (k : K) (v : V) (kv : K * V) :
  In kv (dict_set eqb d k v) -> snd kv = v \/ In kv d.
Proof.
  induction d as [|[k' v'] d IH]; simpl.
  - intros [<-|[]]. left. reflexivity.
  - destruct (eqb k' k); simpl.
    + intros [<-|H]; [left; reflexivity | right; right; exact H].
    + intros [<-|H]; [right; left; reflexivity|].
      destruct (IH H); [left | right; right]; assumption.
Qed.

End DictSetMore.

Lemma extract_inv_ensure S L (k : pystr) :
  extract_inv (S, L) ->
  extract_inv (if negb (dict_mem PyStr.eqb S k)
               then (dict_set PyStr.eqb S k [], dict_set PyStr.eqb L k None)
               else (S, L)) /\
  In k (keys (fst (if negb (dict_mem PyStr.eqb S k)
                   then (dict_set PyStr.eqb S k [], dict_set PyStr.eqb L k None)
                   else (S, L)))).
Proof.
  intros [Hk [Hn Hf]]. cbn [fst snd] in *.
  destruct (dict_mem PyStr.eqb S k) eqn:M; cbn [negb fst snd].
  - split; [repeat split; assumption|].
    apply (dict_mem_In PyStr.eqb pystr_eqb_spec). exact M.
  - assert (M' : dict_mem PyStr.eqb L k = false).
    { destruct (dict_mem PyStr.eqb L k) eqn:M'; [|reflexivity].
      apply (dict_mem_In PyStr.eqb pystr_eqb_spec) in M'. rewrite <- Hk in M'.
      apply (dict_mem_In PyStr.eqb pystr_eqb_spec) in M'. congruence. }
    assert (Nk : ~ In k (keys S)).
    { intros H. apply (dict_mem_In PyStr.eqb pystr_eqb_spec) in H. congruence. }
    split; [split; [|split]|]; cbn [fst snd].
    + rewrite !(dict_set_keys_new PyStr.eqb pystr_eqb_spec) by assumption.
      rewrite Hk. reflexivity.
    + rewrite (dict_set_keys_new PyStr.eqb pystr_eqb_spec) by assumption.
      apply NoDup_app; [exact Hn | repeat constructor; intros [] |].
      intros x Hx [<-|[]]. exact (Nk Hx).
    + apply Forall_forall. intros kv Hin.
      apply dict_set_In in Hin. destruct Hin as [->|Hin]; [constructor|].
      rewrite Forall_forall in Hf. apply Hf. exact Hin.
    + rewrite (dict_set_keys_new PyStr.eqb pystr_eqb_spec) by assumption.
      apply in_or_app. right. left. reflexivity.
Qed.

Lemma extract_inv_append S L (k : pystr) (chain_seq : list pystr) (one : pystr) :
  extract_inv (S, L) -> In k (keys S) ->
  lookup PyStr.eqb S k = Ok chain_seq ->
  In one (map snd prepare_templates.three_to_one) ->
  extract_inv (dict_set PyStr.eqb S k (chain_seq ++ [one]), L).
Proof.
  intros [Hk [Hn Hf]] Hin El Ho. cbn [fst snd] in *.
  split; [|split]; cbn [fst snd].
  - rewrite (dict_set_keys PyStr.eqb pystr_eqb_spec) by exact Hin. exact Hk.
  - rewrite (dict_set_keys PyStr.eqb pystr_eqb_spec) by exact Hin. exact Hn.
  - rewrite Forall_forall in *. intros kv Hkv.
    apply dict_set_In in Hkv. destruct Hkv as [->|Hkv]; [|apply Hf; exact Hkv].
    apply Forall_app. split; [|constructor; [exact Ho | constructor]].
    apply (@lookup_Ok_In _ _ PyStr.eqb pystr_eqb_spec) in El.
    apply (Hf _ El).
Qed.

Lemma extract_inv_last S L (k : pystr) (v : option pystr) :
  extract_inv (S, L) -> In k (keys S) ->
  extract_inv (S, dict_set PyStr.eqb L k v).
Proof.
  intros [Hk [Hn Hf]] Hin. cbn [fst snd] in *.
  split; [|split]; cbn [fst snd]; try assumption.
  rewrite (dict_set_keys PyStr.eqb pystr_eqb_spec) by (rewrite <- Hk; exact Hin).
  exact Hk.
Qed.

Lemma extract_step_outcome (line : pystr) st :
  extract_inv st ->
  (PyStr.startswith line (lit "ATOM") = true -> (length line <= 21)%nat ->
   extract_step line st = Raise IndexError) /\
  ((PyStr.startswith line (lit "ATOM") = true -> (21 < length line)%nat) ->
   exists st', extract_step line st = Ok st' /\ extract_inv st').
Proof.
  destruct st as [S L]. intros Inv. unfold extract_step.
  change 21%Z with (Z.of_nat 21).
  destruct (PyStr.startswith line (lit "ATOM")) eqn:A;
    [|split; [discriminate | eauto]].
  destruct (Nat.lt_ge_cases 21 (length line)) as [L21|L21].
  2:{ rewrite (getitem_short _ L21). cbn [bind].
      split; [reflexivity|]. intros H. specialize (H eq_refl). lia. }
  split; [intros; lia|]. intros _.
  destruct (nth_error line 21) as [c|] eqn:E21;
    [|apply nth_error_None in E21; lia].
  rewrite (getitem_nth_error _ _ E21). cbn [bind]. cbv zeta.
  destruct (extract_inv_ensure [c] Inv) as [Inv1 In1].
  destruct (if negb (dict_mem PyStr.eqb S [c])
            then (dict_set PyStr.eqb S [c] [], dict_set PyStr.eqb L [c] None)
            else (S, L)) as [S1 L1].
  cbn [fst] in In1.
  destruct (@lookup_mem _ _ PyStr.eqb pystr_eqb_spec L1 [c]) as [last El].
  { destruct Inv1 as [Hk _]. cbn [fst snd] in Hk. rewrite <- Hk. exact In1. }
  rewrite El. cbn [bind].
  destruct (prepare_templates.differs _ last); [|eauto].
  destruct (dict_mem PyStr.eqb prepare_templates.three_to_one _) eqn:T3.
  - destruct (@lookup_mem _ _ PyStr.eqb pystr_eqb_spec S1 [c] In1) as [chain_seq Es].
    rewrite Es. cbn [bind].
    apply (dict_mem_In PyStr.eqb pystr_eqb_spec) in T3.
    destruct (@lookup_mem _ _ PyStr.eqb pystr_eqb_spec _ _ T3) as [one Eo].
    rewrite Eo. cbn [bind]. eexists. split; [reflexivity|].
    apply extract_inv_last.
    + apply extract_inv_append; try assumption.
      apply (@lookup_Ok_In _ _ PyStr.eqb pystr_eqb_spec) in Eo.
      apply in_map_iff. exists (PyStr.strip (PyStr.slice line 17 20), one).
      split; [reflexivity | exact Eo].
    + rewrite (dict_set_keys PyStr.eqb pystr_eqb_spec) by exact In1. exact In1.
  - cbn [bind]. eexists. split; [reflexivity|].
    apply extract_inv_last; assumption.
Qed.

Lemma extract_loop_outcome (lines : list pystr) :
  forall st,
    extract_inv st ->
    (Exists (fun line => PyStr.startswith line (lit "ATOM") = true /\
                         (length line <= 21)%nat) lines ->
     for_each lines extract_step st = Raise IndexError) /\
    (Forall (fun line => PyStr.startswith line (lit "ATOM") = true ->
                         (21 < length line)%nat) lines ->
     exists st', for_each lines extract_step st = Ok st') /\
    (forall st', for_each lines extract_step st = Ok st' -> extract_inv st').
Proof.
  induction lines as [|line lines IH]; intros st Inv; cbn [for_each].
  - split; [intros H; inversion H|]. split; [eauto|].
    intros st' H. inversion H; subst. exact Inv.
  - destruct (extract_step_outcome line Inv) as [Short Long].
    destruct (PyStr.startswith line (lit "ATOM")) eqn:A.
    + destruct (Nat.lt_ge_cases 21 (length line)) as [L|L].
      * destruct Long as [st1 [E1 Inv1]]; [intros _; exact L|].
        rewrite E1. cbn [bind]. destruct (IH st1 Inv1) as [I1 [I2 I3]].
        split; [|split].
        -- intros H. inversion H as [? ? [_ H']|]; subst; [lia | auto].
        -- intros H. inversion H; subst. auto.
        -- exact I3.
      * rewrite (Short eq_refl L). cbn [bind]. split; [reflexivity|].
        split; [|discriminate].
        intros H. inversion H as [|? ? H' _]; subst. specialize (H' A). lia.
    + destruct Long as [st1 [E1 Inv1]]; [discriminate|].
      rewrite E1. cbn [bind]. destruct (IH st1 Inv1) as [I1 [I2 I3]].
      split; [|split].
      * intros H. inversion H as [? ? [H' _]|]; subst; [congruence | auto].
      * intros H. inversion H; subst. auto.
      * exact I3.
Qed.

Lemma extract_inv_init : extract_inv ([], []).
Proof. repeat split; constructor. Qed.

Lemma plain_concat (parts : list pystr) :
  Forall plain parts -> plain (concat parts).
Proof.
  unfold plain. induction 1 as [|part parts H _ IH]; cbn [concat].
  - reflexivity.
  - rewrite forallb_app, H, IH. reflexivity.
Qed.

Lemma three_to_one_plain (one : pystr) :
  In one (map snd prepare_templates.three_to_one) -> plain one.
Proof.
  cbn. intros H.
  repeat (destruct H as [<-|H]; [reflexivity|]). contradiction.
Qed.

(** The sequences [extract_sequence_from_pdb] reads off a
    structure survive the FASTA file: written by
    [write_template_fasta] and read by [read_fasta] they come back
    unchanged, chain by chain in the order of the structure, under the
    headers the writer gave them, when the name of the template holds
    no white space and no chain identifier is blank. *)
Theorem template_sequences_round_trip
        (pdb_file template_name : pystr) (sequences : list (pystr * pystr)) :
  prepare_templates.extract_sequence_from_pdb pdb_file = Ok sequences ->
  no_space template_name ->
  Forall (fun kv => no_space (fst kv)) sequences ->
  generate_alignment.read_fasta
    (prepare_templates.write_template_fasta sequences template_name) =
  Ok (map (fun kv => (chain_header template_name (fst kv), snd kv)) sequences).
Proof.
  rewrite extract_loop. intros E Hn Hk.
  destruct (for_each _ extract_step _) as [[S L]| |] eqn:El; cbn [bind] in E;
    try discriminate.
  inversion E; subst; clear E. cbn [fst] in *.
  destruct (proj2 (proj2 (extract_loop_outcome (PyStr.readlines pdb_file)
                            extract_inv_init)) _ El) as [_ [Hn' Hf]].
  cbn [fst] in *.
  apply fasta_written_read; [| exact Hn |].
  - unfold keys in *. rewrite map_map.
    erewrite map_ext; [exact Hn'|]. intros [k v]. reflexivity.
  - rewrite Forall_forall in *. intros kv Hin. split; [apply Hk; exact Hin|].
    apply in_map_iff in Hin. destruct Hin as [[k v] [<- Hin]]. cbn [snd].
    apply plain_concat. apply Forall_forall. intros one Ho.
    apply three_to_one_plain.
    specialize (Hf _ Hin). rewrite Forall_forall in Hf. apply Hf. exact Ho.
Qed.

(** [extract_sequence_from_pdb] reads index 21 of every atom
    record: a record of at most 21 characters makes it raise
    [IndexError]; when every atom record is longer it returns, and no
    look-up in its dictionaries fails. *)
Theorem extract_sequence_short_record (pdb_file : pystr) :
  (Exists (fun line => PyStr.startswith line (lit "ATOM") = true /\
                       (length line <= 21)%nat)
          (PyStr.readlines pdb_file) ->
   prepare_templates.extract_sequence_from_pdb pdb_file = Raise IndexError) /\
  (Forall (fun line => PyStr.startswith line (lit "ATOM") = true ->
                       (21 < length line)%nat)
          (PyStr.readlines pdb_file) ->
   exists sequences,
     prepare_templates.extract_sequence_from_pdb pdb_file = Ok sequences).
Proof.
  rewrite extract_loop.
  destruct (extract_loop_outcome (PyStr.readlines pdb_file) extract_inv_init)
    as [I1 [I2 _]].
  split; intros H.
  - rewrite (I1 H). reflexivity.
  - destruct (I2 H) as [st' ->]. cbn [bind]. eauto.
Qed.

Lemma template_sequences_round_trip_witness :
  generate_alignment.read_fasta
    (prepare_templates.write_template_fasta
       [(str "A", str "MG"); (str "B", str "A")] (str "5bs8")) =
  Ok (map (fun kv => (chain_header (str "5bs8") (fst kv), snd kv))
          [(str "A", str "MG"); (str "B", str "A")]).
Proof.
  apply (@template_sequences_round_trip
           (ended (str "ATOM      1  N   MET A   1")
            ++ ended (str "ATOM      2  CA  MET A   1")
            ++ ended (str "ATOM      3  N   GLY A   2")
            ++ ended (str "HETATM    4  O   HOH A 900")
            ++ ended (str "ATOM      5  N   ALA B   1"))).
  - vm_compute. reflexivity.
  - reflexivity.
  - repeat constructor.
Defined.

(** * Properties of the template sequence read from SEQRES records *)

Lemma seqres_loop (pdb_file chain_id : pystr) :
  setup_gyrase_model.get_seqres_sequence pdb_file chain_id =
  bind (for_each (PyStr.readlines pdb_file) (seqres_step chain_id) [])
       (fun sequence => Ok (PyStr.join sequence)).
Proof. reflexivity. Qed.

Lemma seqres_residue_outcome (res : pystr) (sequence : list pystr) :
  one_letter_codes sequence ->
  exists sequence',
    seqres_residue res sequence = Ok sequence' /\ one_letter_codes sequence'.
Proof.
  intros H. unfold seqres_residue.
  destruct (dict_mem PyStr.eqb setup_gyrase_model.THREE_TO_ONE res) eqn:M;
    [|eauto].
  apply (dict_mem_In PyStr.eqb pystr_eqb_spec) in M.
  destruct (@lookup_mem _ _ PyStr.eqb pystr_eqb_spec _ _ M) as [one E].
  rewrite E. cbn [bind]. eexists. split; [reflexivity|].
  apply Forall_app. split; [exact H|]. constructor; [|constructor].
  apply (@lookup_Ok_In _ _ PyStr.eqb pystr_eqb_spec) in E.
  apply in_map_iff. exists (res, one). split; [reflexivity | exact E].
Qed.

Lemma seqres_residues_outcome (residues : list pystr) :
  forall sequence,
    one_letter_codes sequence ->
    exists sequence',
      for_each residues seqres_residue sequence = Ok sequence' /\
      one_letter_codes sequence'.
Proof.
  induction residues as [|res residues IH]; intros sequence H; cbn [for_each].
  - eauto.
  - destruct (seqres_residue_outcome res H) as [s1 [-> H1]]. cbn [bind].
    apply IH. exact H1.
Qed.

Lemma seqres_step_outcome (chain_id line : pystr) (sequence : list pystr) :
  one_letter_codes sequence ->
  (PyStr.startswith line (lit "SEQRES") = true -> (length line <= 11)%nat ->
   seqres_step chain_id line sequence = Raise IndexError) /\
  ((PyStr.startswith line (lit "SEQRES") = true -> (11 < length line)%nat) ->
   exists sequence',
     seqres_step chain_id line sequence = Ok sequence' /\
     one_letter_codes sequence').
Proof.
  intros H. unfold seqres_step. change 11%Z with (Z.of_nat 11).
  destruct (PyStr.startswith line (lit "SEQRES")) eqn:A.
  - destruct (Nat.lt_ge_cases 11 (length line)) as [L|L].
    + split; [intros; lia|]. intros _.
      destruct (nth_error line 11) as [c|] eqn:E;
        [|apply nth_error_None in E; lia].
      rewrite (getitem_nth_error _ _ E). cbn [bind].
      destruct (PyStr.eqb [c] chain_id); [|eauto].
      apply seqres_residues_outcome. exact H.
    + rewrite (getitem_short _ L). cbn [bind]. split; [reflexivity|].
      intros G. specialize (G eq_refl). lia.
  - cbn [bind]. split; [discriminate | eauto].
Qed.

Lemma seqres_loop_outcome (chain_id : pystr) (lines : list pystr) :
  forall sequence,
    one_letter_codes sequence ->
    (Exists (fun line => PyStr.startswith line (lit "SEQRES") = true /\
                         (length line <= 11)%nat) lines ->
     for_each lines (seqres_step chain_id) sequence = Raise IndexError) /\
    (Forall (fun line => PyStr.startswith line (lit "SEQRES") = true ->
                         (11 < length line)%nat) lines ->
     exists sequence', for_each lines (seqres_step chain_id) sequence = Ok sequence') /\
    (forall sequence',
        for_each lines (seqres_step chain_id) sequence = Ok sequence' ->
        one_letter_codes sequence').
Proof.
  induction lines as [|line lines IH]; intros sequence Inv; cbn [for_each].
  - split; [intros H; inversion H|]. split; [eauto|].
    intros s' H. inversion H; subst. exact Inv.
  - destruct (seqres_step_outcome chain_id line Inv) as [Short Long].
    destruct (PyStr.startswith line (lit "SEQRES")) eqn:A.
    + destruct (Nat.lt_ge_cases 11 (length line)) as [L|L].
      * destruct Long as [s1 [E1 Inv1]]; [intros _; exact L|].
        rewrite E1. cbn [bind]. destruct (IH s1 Inv1) as [I1 [I2 I3]].
        split; [|split].
        -- intros H. inversion H as [? ? [_ H']|]; subst; [lia | auto].
        -- intros H. inversion H; subst. auto.
        -- exact I3.
      * rewrite (Short eq_refl L). cbn [bind]. split; [reflexivity|].
        split; [|discriminate].
        intros H. inversion H as [|? ? H' _]; subst. specialize (H' A). lia.
    + destruct Long as [s1 [E1 Inv1]]; [discriminate|].
      rewrite E1. cbn [bind]. destruct (IH s1 Inv1) as [I1 [I2 I3]].
      split; [|split].
      * intros H. inversion H as [? ? [H' _]|]; subst; [congruence | auto].
      * intros H. inversion H; subst. auto.
      * exact I3.
Qed.

Lemma one_letter_gap_free (one : pystr) :
  In one (map snd setup_gyrase_model.THREE_TO_ONE) -> gap_free one.
Proof.
  cbn. intros H.
  repeat (destruct H as [<-|H]; [repeat constructor; discriminate|]).
  contradiction.
Qed.

Lemma gap_free_join (sequence : list pystr) :
  one_letter_codes sequence -> gap_free (PyStr.join sequence).
Proof.
  unfold one_letter_codes, gap_free, PyStr.join.
  induction 1 as [|one rest H _ IH]; cbn [concat].
  - constructor.
  - apply Forall_app. split; [apply one_letter_gap_free; exact H | exact IH].
Qed.

(** The sequence [get_seqres_sequence] returns is made of the
    one-letter codes of [THREE_TO_ONE] and so holds no gap symbol:
    aligned as the second sequence, as [main] aligns it, it is always
    what the second row of the alignment spells with its gaps deleted. *)
Theorem seqres_sequence_aligns (pdb_file chain_id template : pystr) :
  setup_gyrase_model.get_seqres_sequence pdb_file chain_id = Ok template ->
  gap_free template /\
  forall (target : pystr) (match_ mismatch gap : Z),
  exists aligned_target aligned_template,
    setup_gyrase_model.needleman_wunsch target template match_ mismatch gap =
      Ok (aligned_target, aligned_template) /\
    remove_gaps aligned_template = template /\
    remove_gaps aligned_target = remove_gaps target.
Proof.
  rewrite seqres_loop. intros E.
  destruct (for_each _ (seqres_step chain_id) []) as [sequence| |] eqn:El;
    cbn [bind] in E; try discriminate.
  inversion E; subst; clear E.
  assert (G : gap_free (PyStr.join sequence)).
  { apply gap_free_join.
    apply (proj2 (proj2 (@seqres_loop_outcome chain_id (PyStr.readlines pdb_file)
                           [] (Forall_nil _))) _ El). }
  split; [exact G|]. intros target ma mi g.
  destruct (needleman_wunsch_columns target (PyStr.join sequence) ma mi g)
    as [score [cols [_ [_ [E [H1 H2]]]]]].
  exists (map top cols), (map bottom cols). split; [exact E|].
  rewrite remove_gaps_top, remove_gaps_bottom, H1, H2.
  split; [apply remove_gaps_gap_free; exact G | reflexivity].
Qed.

Lemma seqres_sequence_aligns_witness :
  gap_free (str "MG") /\
  forall (target : pystr) (match_ mismatch gap : Z),
  exists aligned_target aligned_template,
    setup_gyrase_model.needleman_wunsch target (str "MG") match_ mismatch gap =
      Ok (aligned_target, aligned_template) /\
    remove_gaps aligned_template = str "MG" /\
    remove_gaps aligned_target = remove_gaps target.
Proof.
  apply (@seqres_sequence_aligns
           (ended (str "SEQRES   1 A  486  MET HOH GLY")
            ++ ended (str "SEQRES   1 B  245  ALA"))
           (str "A")).
  vm_compute. reflexivity.
Defined.

(** [get_seqres_sequence] reads index 11 of every SEQRES record:
    a record of at most 11 characters makes it raise [IndexError]; when
    every SEQRES record is longer it returns, whatever residue names
    the records hold. *)
Theorem seqres_short_record (pdb_file chain_id : pystr) :
  (Exists (fun line => PyStr.startswith line (lit "SEQRES") = true /\
                       (length line <= 11)%nat)
          (PyStr.readlines pdb_file) ->
   setup_gyrase_model.get_seqres_sequence pdb_file chain_id = Raise IndexError) /\
  (Forall (fun line => PyStr.startswith line (lit "SEQRES") = true ->
                       (11 < length line)%nat)
          (PyStr.readlines pdb_file) ->
   exists template,
     setup_gyrase_model.get_seqres_sequence pdb_file chain_id = Ok template).
Proof.
  rewrite seqres_loop.
  destruct (@seqres_loop_outcome chain_id (PyStr.readlines pdb_file)
              [] (Forall_nil _)) as [I1 [I2 _]].
  split; intros H.
  - rewrite (I1 H). reflexivity.
  - destruct (I2 H) as [sequence ->]. cbn [bind]. eauto.
Qed.

(** * The template preparation as [main] chains it *)

(** [main] of [prepare_templates.py] reads the sequences off the
    file [clean_pdb] has written.  On such a file
    [extract_sequence_from_pdb] cannot fail: every atom record of a
    cleaned file reaches past index 21, so the [IndexError] a short
    record would raise does not occur. *)
Theorem cleaned_file_has_sequences
        (pdb_file : pystr) (keep_chains : option (list pystr)) (cleaned : pystr) :
  terminated pdb_file ->
  prepare_templates.clean_pdb pdb_file keep_chains = Ok cleaned ->
  exists sequences,
    prepare_templates.extract_sequence_from_pdb cleaned = Ok sequences.
Proof.
  intros T H.
  destruct (@clean_pdb_output _ _ _ T H) as [kept [_ [_ [R [_ F]]]]].
  rewrite extract_loop, R.
  destruct (extract_loop_outcome (kept ++ [ended (lit "END")]) extract_inv_init)
    as [_ [I2 _]].
  destruct I2 as [st' ->]; [|cbn [bind]; eauto].
  apply Forall_app. split.
  - eapply Forall_impl; [|exact F]. cbv beta.
    intros line [[_ [_ [ch [E _]]]]|[A _]] A'.
    + apply nth_error_Some. congruence.
    + congruence.
  - constructor; [|constructor]. intros A. vm_compute in A. discriminate A.
Qed.

Lemma cleaned_file_has_sequences_witness :
  exists sequences,
    prepare_templates.extract_sequence_from_pdb
      (ended (str "ATOM      1  N   MET A   1") ++ ended (str "END")) =
    Ok sequences.
Proof.
  apply (@cleaned_file_has_sequences
           (ended (str "ATOM      1  N  AMET A   1")
            ++ ended (str "ATOM      1  N  BMET A   1")
            ++ ended (str "HETATM    2  O   HOH A 900")) None).
  - vm_compute. auto.
  - vm_compute. reflexivity.
Defined.
